(** * react-native-debugger-external-sync: device side of the sync protocol

    A shallow embedding of
    - [src/react-query-external-sync/executeExpoCommand.ts]
      (the command registry and its fallback chains),
    - [src/react-query-external-sync/useSyncQueriesExternal.ts]
      (targeting, the socket handlers, the effect and its cleanup),
    - [src/index.ts] (the production switch),
    followed by the properties the specification states about them.

    JavaScript runs one handler at a time; a handler is modelled as a
    function from the state of the device to an outcome and the state it
    leaves.  An [await] on a promise that never settles leaves the handler
    suspended for ever: outcome [Stuck].

    The collaborators (the socket, queryClient and onlineManager of
    @tanstack/react-query, the key/value store, the native runtime) are part
    of the state; what a call into them does when it can fail is a field of
    that state.  [socket.emit], [log] and [console] calls return.

    A string holds the UTF-8 bytes of the JavaScript text. *)

From Stdlib Require Import ZArith Lia Bool.
From stdpp Require Import gmap strings list pretty.

Local Open Scope string_scope.
Local Open Scope list_scope.

(** ** Outcomes and the handler monad *)

(** A thrown JavaScript value, told apart by what converting it to a string
    does:
    - [new Error(message)];
    - another instance of [Error], with its [name] and [message] (a
      [TypeError], or an error whose name was set);
    - a value that has a string conversion, kept as [String(value)] (a
      string, a number, an object with a [toString]);
    - a symbol, with its description: [String(value)] is defined, a template
      literal throws;
    - a value without a string conversion, such as [Object.create(null)]:
      [String(value)] and a template literal both throw. *)
Inductive Thrown :=
| ErrorObj (message : string)
| ErrorNamed (name message : string)
| OtherValue (rendered : string)
| SymbolValue (description : string)
| NoString.

(** [Error.prototype.toString] *)
Definition Error_toString (name message : string) : string :=
  if String.eqb name "" then message
  else if String.eqb message "" then name
  else name +:+ ": " +:+ message.

(** [String(value)]; [None] when the conversion throws. *)
Definition String_of (e : Thrown) : option string :=
  match e with
  | ErrorObj m => Some (Error_toString "Error" m)
  | ErrorNamed n m => Some (Error_toString n m)
  | OtherValue s => Some s
  | SymbolValue d => Some ("Symbol(" +:+ d +:+ ")")
  | NoString => None
  end.

(** [error instanceof Error ? error.message : String(error)] *)
Definition error_text (e : Thrown) : option string :=
  match e with
  | ErrorObj m => Some m
  | ErrorNamed _ m => Some m
  | _ => String_of e
  end.

(** The text of [error] inside a template literal; [None] when the
    conversion throws, which it does for a symbol too. *)
Definition template_text (e : Thrown) : option string :=
  match e with
  | SymbolValue _ => None
  | _ => String_of e
  end.

(** The [TypeError] a failed conversion throws; its text is the engine's. *)
Definition conversion_error (e : Thrown) : Thrown :=
  ErrorNamed "TypeError"
    match e with
    | SymbolValue _ => "Cannot convert a Symbol value to a string"
    | _ => "Cannot convert object to primitive value"
    end.

Inductive Res (A : Type) :=
| Done (a : A)
| Raised (e : Thrown)
| Stuck.
Arguments Done {A} a.
Arguments Raised {A} e.
Arguments Stuck {A}.

(** What a synchronous call into a collaborator does. *)
Inductive SyncCall := Returns | Throws (e : Thrown).

(** What an awaited call does. *)
Inductive AsyncCall := Resolves | Rejects (e : Thrown) | NeverSettles.

Section Monad.
Context {S : Type}.

Definition M (A : Type) : Type := S -> Res A * S.

Definition ret {A} (a : A) : M A := fun s => (Done a, s).

Definition bind {A B} (m : M A) (k : A -> M B) : M B :=
  fun s =>
    match m s with
    | (Done a, s') => k a s'
    | (Raised e, s') => (Raised e, s')
    | (Stuck, s') => (Stuck, s')
    end.

Definition throw {A} (e : Thrown) : M A := fun s => (Raised e, s).

Definition stuck {A} : M A := fun s => (Stuck, s).

(** [try { body } catch (e) { handler e }]; a suspended body stays
    suspended. *)
Definition try_catch {A} (body : M A) (handler : Thrown -> M A) : M A :=
  fun s =>
    match body s with
    | (Raised e, s') => handler e s'
    | other => other
    end.

Definition get : M S := fun s => (Done s, s).

Definition modify (f : S -> S) : M unit := fun s => (Done tt, f s).

(** [if (c) { m }] *)
Definition when (c : bool) (m : M unit) : M unit :=
  if c then m else ret tt.

(** The conversion of a caught value to a string, where the code asks for
    it. *)
Definition render (text : Thrown -> option string) (e : Thrown) : M string :=
  match text e with
  | Some s => ret s
  | None => throw (conversion_error e)
  end.
End Monad.
Arguments M : clear implicits.

Notation "'let*' x ':=' m 'in' k" := (bind m (fun x => k))
  (at level 10, x name, m at level 100, k at level 200).
Notation "m '>>' k" := (bind m (fun _ => k))
  (at level 90, right associativity).

(** ** The JavaScript runtime seen by the default implementations *)

Record ExpoT := {
  expo_reload : option SyncCall;
  expo_openDevMenu : option SyncCall;
}.

Record DevSettingsT := {
  ds_reload : option SyncCall;
  ds_toggleElementInspector : option SyncCall;
  ds_togglePerformanceMonitor : option SyncCall;
  ds_setIsDebuggingRemotely : option SyncCall;
  ds_show : option SyncCall;
}.

Record DevMenuT := {
  dm_reload : option SyncCall;
  dm_toggleElementInspector : option SyncCall;
  dm_togglePerformanceMonitor : option SyncCall;
  dm_toggleRemoteDebugging : option SyncCall;
  dm_show : option SyncCall;
}.

Record ImageLoaderT := { il_clearCache : option AsyncCall }.
Record RNScreenshotT := { sc_takeScreenshot : option AsyncCall }.

Record NativeModulesT := {
  DevMenu : option DevMenuT;
  ImageLoader : option ImageLoaderT;
  RNScreenshot : option RNScreenshotT;
}.

Record ReactNativeT := {
  DevSettings : option DevSettingsT;
  NativeModules : option NativeModulesT;
}.

Record AsyncStorageT := { as_clear : option AsyncCall }.
Record AsyncStorageModuleT := { as_default : option AsyncStorageT }.

(** [global.require(name)]: throws, or returns a module ([None] for
    [undefined]). *)
Inductive Required (A : Type) :=
| RequireThrows (e : Thrown)
| RequireReturns (m : option A).
Arguments RequireThrows {A} e.
Arguments RequireReturns {A} m.

Record GlobalRequire := {
  req_react_native : Required ReactNativeT;
  req_async_storage : Required AsyncStorageModuleT;
}.

Record Global := {
  g_expo : option ExpoT;                 (* global.__expo *)
  g_require : option GlobalRequire;      (* global.require *)
  g_devtools_hook : bool;                (* __REACT_DEVTOOLS_GLOBAL_HOOK__ defined *)
}.

Inductive HostEvent :=
| ConsoleLog (text : string)
| ConsoleWarn (text : string) (e : Thrown)
| NativeCall (api : string) (arg : option bool).

(** [global] is [None] when [typeof global === 'undefined']. *)
Record Host := {
  global : option Global;
  trace : list HostEvent;
}.

Definition emit_host (ev : HostEvent) : M Host unit :=
  modify (fun h => {| global := global h; trace := trace h ++ [ev] |}).

Definition console_log (text : string) : M Host unit :=
  emit_host (ConsoleLog text).

Definition console_warn (text : string) (e : Thrown) : M Host unit :=
  emit_host (ConsoleWarn text e).

Definition call_sync (api : string) (arg : option bool) (f : SyncCall)
  : M Host unit :=
  emit_host (NativeCall api arg) >>
  match f with
  | Returns => ret tt
  | Throws e => throw e
  end.

Definition call_await (api : string) (f : AsyncCall) : M Host unit :=
  emit_host (NativeCall api None) >>
  match f with
  | Resolves => ret tt
  | Rejects e => throw e
  | NeverSettles => stuck
  end.

(** Reading a property of [undefined] throws a [TypeError]. *)
Definition type_error (what : string) : Thrown :=
  ErrorObj ("Cannot read properties of undefined (reading '" +:+ what +:+ "')").

(** [global.require('react-native')], then a property read on the result. *)
Definition require_react_native (r : GlobalRequire) (prop : string)
  : M Host ReactNativeT :=
  match req_react_native r with
  | RequireThrows e => throw e
  | RequireReturns None => throw (type_error prop)
  | RequireReturns (Some m) => ret m
  end.

(** [const DevSettings = global.require('react-native').DevSettings] *)
Definition get_DevSettings (r : GlobalRequire) : M Host (option DevSettingsT) :=
  let* rn := require_react_native r "DevSettings" in
  ret (DevSettings rn).

(** [const { X } = global.require('react-native').NativeModules]:
    destructuring [undefined] throws. *)
Definition get_NativeModules (r : GlobalRequire) : M Host NativeModulesT :=
  let* rn := require_react_native r "NativeModules" in
  match NativeModules rn with
  | None => throw (type_error "NativeModules")
  | Some nm => ret nm
  end.

(** [global.require('@react-native-async-storage/async-storage').default] *)
Definition get_AsyncStorage (r : GlobalRequire) : M Host (option AsyncStorageT) :=
  match req_async_storage r with
  | RequireThrows e => throw e
  | RequireReturns None => throw (type_error "default")
  | RequireReturns (Some m) => ret (as_default m)
  end.

(** [typeof global !== 'undefined' && global.require] *)
Definition global_require (h : Host) : option GlobalRequire :=
  match global h with
  | Some g => g_require g
  | None => None
  end.

(** [typeof global !== 'undefined' && global.__expo && global.__expo.f] *)
Definition global_expo (f : ExpoT -> option SyncCall) (h : Host)
  : option SyncCall :=
  match global h with
  | Some g =>
      match g_expo g with
      | Some x => f x
      | None => None
      end
  | None => None
  end.

(** [X && X.f] for an object [X] that may be [undefined]. *)
Definition member {O C : Type} (o : option O) (f : O -> option C) : option C :=
  match o with
  | Some x => f x
  | None => None
  end.

(** One guarded block of a fallback chain:
    [if (typeof global !== 'undefined' && global.require) { try { body } catch (e) {} }].
    The body answers [true] when it reached its [return]. *)
Definition probe (body : GlobalRequire -> M Host bool) : M Host bool :=
  let* h := get in
  match global_require h with
  | Some r => try_catch (body r) (fun _ => ret false)
  | None => ret false
  end.

(** [if (f) { f(); return; }] inside a probe. *)
Definition use_sync (api : string) (arg : option bool) (f : option SyncCall)
  : M Host bool :=
  match f with
  | Some c => call_sync api arg c >> ret true
  | None => ret false
  end.

Definition use_await (api : string) (f : option AsyncCall) : M Host bool :=
  match f with
  | Some c => call_await api c >> ret true
  | None => ret false
  end.

(** Continue with the rest of the function unless a block returned. *)
Definition unless_returned (block : M Host bool) (rest : M Host unit)
  : M Host unit :=
  let* returned := block in
  if (returned : bool) then ret tt else rest.

(** An implementation of a command: [() => Promise<void>]. *)
Definition Impl : Type := M Host unit.

(** ** Default implementations (fallback chains) *)

Definition devtools_hook_defined (h : Host) : bool :=
  match global h with
  | Some g => g_devtools_hook g
  | None => false
  end.

Definition executeReload_default : Impl :=
  try_catch
    (let* h := get in
     unless_returned
       (use_sync "global.__expo.reload" None (global_expo expo_reload h))
    (unless_returned
       (probe (fun r =>
          let* ds := get_DevSettings r in
          use_sync "DevSettings.reload" None (member ds ds_reload)))
    (unless_returned
       (probe (fun r =>
          let* nm := get_NativeModules r in
          use_sync "DevMenu.reload" None (member (DevMenu nm) dm_reload)))
    (console_log "Reload command received but no implementation found. Override with setReloadImplementation() for custom behavior."))))
    (fun error => console_warn "Error executing reload command:" error).

Definition executeToggleInspector_default : Impl :=
  try_catch
    (unless_returned
       (probe (fun r =>
          let* ds := get_DevSettings r in
          use_sync "DevSettings.toggleElementInspector" None
            (member ds ds_toggleElementInspector)))
    (unless_returned
       (probe (fun r =>
          let* nm := get_NativeModules r in
          use_sync "DevMenu.toggleElementInspector" None
            (member (DevMenu nm) dm_toggleElementInspector)))
    (console_log "Toggle inspector command received but no implementation found. Override with setToggleInspectorImplementation() for custom behavior.")))
    (fun error => console_warn "Error executing toggle inspector command:" error).

Definition executeTogglePerformanceMonitor_default : Impl :=
  try_catch
    (unless_returned
       (probe (fun r =>
          let* ds := get_DevSettings r in
          use_sync "DevSettings.togglePerformanceMonitor" None
            (member ds ds_togglePerformanceMonitor)))
    (unless_returned
       (probe (fun r =>
          let* nm := get_NativeModules r in
          use_sync "DevMenu.togglePerformanceMonitor" None
            (member (DevMenu nm) dm_togglePerformanceMonitor)))
    (console_log "Toggle performance monitor command received but no implementation found. Override with setTogglePerformanceMonitorImplementation() for custom behavior.")))
    (fun error =>
       console_warn "Error executing toggle performance monitor command:" error).

Definition executeToggleElementInspector_default : Impl :=
  try_catch
    (unless_returned
       (probe (fun r =>
          let* ds := get_DevSettings r in
          use_sync "DevSettings.toggleElementInspector" None
            (member ds ds_toggleElementInspector)))
    (unless_returned
       (probe (fun r =>
          let* nm := get_NativeModules r in
          use_sync "DevMenu.toggleElementInspector" None
            (member (DevMenu nm) dm_toggleElementInspector)))
    (console_log "Toggle element inspector command received but no implementation found. Override with setToggleElementInspectorImplementation() for custom behavior.")))
    (fun error =>
       console_warn "Error executing toggle element inspector command:" error).

Definition executeClearCache_default : Impl :=
  try_catch
    (unless_returned
       (probe (fun r =>
          let* st := get_AsyncStorage r in
          let* used := use_await "AsyncStorage.clear" (member st as_clear) in
          if (used : bool)
          then console_log "AsyncStorage cache cleared" >> ret true
          else ret false))
    (unless_returned
       (probe (fun r =>
          let* nm := get_NativeModules r in
          let* used :=
            use_await "ImageLoader.clearCache"
              (member (ImageLoader nm) il_clearCache) in
          if (used : bool)
          then console_log "Image cache cleared" >> ret true
          else ret false))
    (console_log "Clear cache command received but no implementation found. Override with setClearCacheImplementation() for custom behavior.")))
    (fun error => console_warn "Error executing clear cache command:" error).

Definition executeToggleRemoteDebugging_default : Impl :=
  try_catch
    (unless_returned
       (probe (fun r =>
          let* ds := get_DevSettings r in
          let* h := get in
          (* const currentState = typeof global.__REACT_DEVTOOLS_GLOBAL_HOOK__ !== 'undefined' *)
          let currentState := devtools_hook_defined h in
          use_sync "DevSettings.setIsDebuggingRemotely"
            (Some (negb currentState)) (member ds ds_setIsDebuggingRemotely)))
    (unless_returned
       (probe (fun r =>
          let* nm := get_NativeModules r in
          use_sync "DevMenu.toggleRemoteDebugging" None
            (member (DevMenu nm) dm_toggleRemoteDebugging)))
    (console_log "Toggle remote debugging command received but no implementation found. Override with setToggleRemoteDebuggingImplementation() for custom behavior.")))
    (fun error =>
       console_warn "Error executing toggle remote debugging command:" error).

Definition executeOpenDevMenu_default : Impl :=
  try_catch
    (let* h := get in
     unless_returned
       (use_sync "global.__expo.openDevMenu" None
          (global_expo expo_openDevMenu h))
    (unless_returned
       (probe (fun r =>
          let* nm := get_NativeModules r in
          use_sync "DevMenu.show" None (member (DevMenu nm) dm_show)))
    (console_log "Open dev menu command received but no implementation found. Override with setOpenDevMenuImplementation() for custom behavior.")))
    (fun error => console_warn "Error executing open dev menu command:" error).

Definition executeTakeScreenshot_default : Impl :=
  try_catch
    (unless_returned
       (probe (fun r =>
          let* nm := get_NativeModules r in
          use_await "RNScreenshot.takeScreenshot"
            (member (RNScreenshot nm) sc_takeScreenshot)))
    (console_log "Take screenshot command received but no implementation found. Override with setTakeScreenshotImplementation() for custom behavior."))
    (fun error => console_warn "Error executing take screenshot command:" error).

Definition executeShakeDevice_default : Impl :=
  try_catch
    (unless_returned
       (probe (fun r =>
          let* ds := get_DevSettings r in
          (* if (DevSettings && DevSettings.reload) { if (DevSettings.show) ... } *)
          match member ds ds_reload with
          | Some _ => use_sync "DevSettings.show" None (member ds ds_show)
          | None => ret false
          end))
    (unless_returned
       (probe (fun r =>
          let* nm := get_NativeModules r in
          use_sync "DevMenu.show" None (member (DevMenu nm) dm_show)))
    (console_log "Shake device command received but no implementation found. Override with setShakeDeviceImplementation() for custom behavior.")))
    (fun error => console_warn "Error executing shake device command:" error).

(** The nine module-level [export let] slots of executeExpoCommand.ts. *)
Record Impls := {
  executeReload : Impl;
  executeToggleInspector : Impl;
  executeTogglePerformanceMonitor : Impl;
  executeToggleElementInspector : Impl;
  executeClearCache : Impl;
  executeToggleRemoteDebugging : Impl;
  executeOpenDevMenu : Impl;
  executeTakeScreenshot : Impl;
  executeShakeDevice : Impl;
}.

(** The slots as the module initialises them. *)
Definition default_impls : Impls := {|
  executeReload := executeReload_default;
  executeToggleInspector := executeToggleInspector_default;
  executeTogglePerformanceMonitor := executeTogglePerformanceMonitor_default;
  executeToggleElementInspector := executeToggleElementInspector_default;
  executeClearCache := executeClearCache_default;
  executeToggleRemoteDebugging := executeToggleRemoteDebugging_default;
  executeOpenDevMenu := executeOpenDevMenu_default;
  executeTakeScreenshot := executeTakeScreenshot_default;
  executeShakeDevice := executeShakeDevice_default;
|}.

(** The argument of [setExpoCommandImplementations]: every key optional.
    [None] is a key the [if (implementations.k)] tests find falsy: a key that
    is absent or holds [undefined]. *)
Record PartialImpls := {
  reload : option Impl;
  toggleInspector : option Impl;
  togglePerformanceMonitor : option Impl;
  toggleElementInspector : option Impl;
  clearCache : option Impl;
  toggleRemoteDebugging : option Impl;
  openDevMenu : option Impl;
  takeScreenshot : option Impl;
  shakeDevice : option Impl;
}.

(** Assignments to the slots. *)
Definition set_executeReload (f : Impl) (i : Impls) : Impls := {|
  executeReload := f;
  executeToggleInspector := executeToggleInspector i;
  executeTogglePerformanceMonitor := executeTogglePerformanceMonitor i;
  executeToggleElementInspector := executeToggleElementInspector i;
  executeClearCache := executeClearCache i;
  executeToggleRemoteDebugging := executeToggleRemoteDebugging i;
  executeOpenDevMenu := executeOpenDevMenu i;
  executeTakeScreenshot := executeTakeScreenshot i;
  executeShakeDevice := executeShakeDevice i;
|}.

Definition set_executeToggleInspector (f : Impl) (i : Impls) : Impls := {|
  executeReload := executeReload i;
  executeToggleInspector := f;
  executeTogglePerformanceMonitor := executeTogglePerformanceMonitor i;
  executeToggleElementInspector := executeToggleElementInspector i;
  executeClearCache := executeClearCache i;
  executeToggleRemoteDebugging := executeToggleRemoteDebugging i;
  executeOpenDevMenu := executeOpenDevMenu i;
  executeTakeScreenshot := executeTakeScreenshot i;
  executeShakeDevice := executeShakeDevice i;
|}.

Definition set_executeTogglePerformanceMonitor (f : Impl) (i : Impls) : Impls := {|
  executeReload := executeReload i;
  executeToggleInspector := executeToggleInspector i;
  executeTogglePerformanceMonitor := f;
  executeToggleElementInspector := executeToggleElementInspector i;
  executeClearCache := executeClearCache i;
  executeToggleRemoteDebugging := executeToggleRemoteDebugging i;
  executeOpenDevMenu := executeOpenDevMenu i;
  executeTakeScreenshot := executeTakeScreenshot i;
  executeShakeDevice := executeShakeDevice i;
|}.

Definition set_executeToggleElementInspector (f : Impl) (i : Impls) : Impls := {|
  executeReload := executeReload i;
  executeToggleInspector := executeToggleInspector i;
  executeTogglePerformanceMonitor := executeTogglePerformanceMonitor i;
  executeToggleElementInspector := f;
  executeClearCache := executeClearCache i;
  executeToggleRemoteDebugging := executeToggleRemoteDebugging i;
  executeOpenDevMenu := executeOpenDevMenu i;
  executeTakeScreenshot := executeTakeScreenshot i;
  executeShakeDevice := executeShakeDevice i;
|}.

Definition set_executeClearCache (f : Impl) (i : Impls) : Impls := {|
  executeReload := executeReload i;
  executeToggleInspector := executeToggleInspector i;
  executeTogglePerformanceMonitor := executeTogglePerformanceMonitor i;
  executeToggleElementInspector := executeToggleElementInspector i;
  executeClearCache := f;
  executeToggleRemoteDebugging := executeToggleRemoteDebugging i;
  executeOpenDevMenu := executeOpenDevMenu i;
  executeTakeScreenshot := executeTakeScreenshot i;
  executeShakeDevice := executeShakeDevice i;
|}.

Definition set_executeToggleRemoteDebugging (f : Impl) (i : Impls) : Impls := {|
  executeReload := executeReload i;
  executeToggleInspector := executeToggleInspector i;
  executeTogglePerformanceMonitor := executeTogglePerformanceMonitor i;
  executeToggleElementInspector := executeToggleElementInspector i;
  executeClearCache := executeClearCache i;
  executeToggleRemoteDebugging := f;
  executeOpenDevMenu := executeOpenDevMenu i;
  executeTakeScreenshot := executeTakeScreenshot i;
  executeShakeDevice := executeShakeDevice i;
|}.

Definition set_executeOpenDevMenu (f : Impl) (i : Impls) : Impls := {|
  executeReload := executeReload i;
  executeToggleInspector := executeToggleInspector i;
  executeTogglePerformanceMonitor := executeTogglePerformanceMonitor i;
  executeToggleElementInspector := executeToggleElementInspector i;
  executeClearCache := executeClearCache i;
  executeToggleRemoteDebugging := executeToggleRemoteDebugging i;
  executeOpenDevMenu := f;
  executeTakeScreenshot := executeTakeScreenshot i;
  executeShakeDevice := executeShakeDevice i;
|}.

Definition set_executeTakeScreenshot (f : Impl) (i : Impls) : Impls := {|
  executeReload := executeReload i;
  executeToggleInspector := executeToggleInspector i;
  executeTogglePerformanceMonitor := executeTogglePerformanceMonitor i;
  executeToggleElementInspector := executeToggleElementInspector i;
  executeClearCache := executeClearCache i;
  executeToggleRemoteDebugging := executeToggleRemoteDebugging i;
  executeOpenDevMenu := executeOpenDevMenu i;
  executeTakeScreenshot := f;
  executeShakeDevice := executeShakeDevice i;
|}.

Definition set_executeShakeDevice (f : Impl) (i : Impls) : Impls := {|
  executeReload := executeReload i;
  executeToggleInspector := executeToggleInspector i;
  executeTogglePerformanceMonitor := executeTogglePerformanceMonitor i;
  executeToggleElementInspector := executeToggleElementInspector i;
  executeClearCache := executeClearCache i;
  executeToggleRemoteDebugging := executeToggleRemoteDebugging i;
  executeOpenDevMenu := executeOpenDevMenu i;
  executeTakeScreenshot := executeTakeScreenshot i;
  executeShakeDevice := f;
|}.

(** ** Wire messages (types.ts, expoDevToolsTypes.ts)

    Values arrive from the socket untyped: command and action names are
    strings, as the handlers compare them. *)

Inductive ExpoCommandStatus := CmdPending | CmdSuccess | CmdError.

Record ExpoCommand := {
  cmd_id : string;
  cmd_type : string;
  cmd_status : ExpoCommandStatus;
  cmd_timestamp : nat;
  cmd_deviceId : string;
  cmd_result : option string;
  cmd_error : option string;
}.

Record ExpoCommandActionMessage := {
  eca_targetDeviceId : string;
  eca_command : string;
  eca_commandId : string;
}.

Record ExpoDevToolsRequestMessage := { edr_targetDeviceId : string }.

(** A query key; the keys modelled are those whose segments are strings. *)
Definition QueryKey : Type := list string.

Record QueryActionMessage := {
  qa_queryHash : string;
  qa_queryKey : QueryKey;
  qa_data : option string;
  qa_action : string;
  qa_targetDeviceId : string;
}.

Record OnlineManagerMessage := {
  om_action : string;
  om_targetDeviceId : string;
}.

Record AsyncStorageActionMessage := {
  asa_action : string;
  asa_targetDeviceId : string;
  asa_key : option string;
  asa_value : option string;
}.

Record AsyncStorageRequestMessage := { asr_targetDeviceId : string }.

Record NetworkMonitoringActionMessage := {
  nma_action : string;
  nma_targetDeviceId : string;
}.

Record NetworkRequestMessage := { nrm_targetDeviceId : string }.

(** ** The cache collaborator: a Query of @tanstack/query-core

    The library is not part of the repository; its objects are modelled with
    the fields and the reducer steps the handlers rely on. *)

Inductive QueryStatus := StatusPending | StatusSuccess | StatusError.
Inductive FetchStatus := Fetching | Paused | Idle.

(** A query function: the application's, or the promise of
    ACTION-TRIGGER-LOADING that never resolves. *)
Inductive QueryFn := UserFn (name : string) | NeverResolves.

Record QueryOptions := {
  queryFn : option QueryFn;
  gcTime : option Z;
  other_options : string;          (* the remaining options, as one value *)
}.

Record FetchMeta := {
  fetchMore : option string;
  __previousQueryOptions : option QueryOptions;
}.

Record QueryState := {
  st_data : option string;
  st_dataUpdatedAt : nat;
  st_error : option Thrown;
  st_status : QueryStatus;
  st_fetchStatus : FetchStatus;
  st_fetchMeta : option FetchMeta;
  st_isInvalidated : bool;
}.

Record Query := {
  queryHash : string;
  queryKey : QueryKey;
  state : QueryState;
  options : QueryOptions;
  initialState : QueryState;
  retryer : option QueryOptions;   (* the fetch in flight, with its options *)
  abandoned : list QueryOptions;   (* fetches still pending whose retryer was
                                      replaced: no cancel reaches them *)
  observers : nat;
}.

Record DehydratedQuery := {
  dq_queryHash : string;
  dq_queryKey : QueryKey;
  dq_state : QueryState;
  dq_observers : nat;
}.

Record DehydratedState := {
  dh_mutations : list nat;
  dh_queries : list DehydratedQuery;
}.

(** ** Outbound messages and the state of the device *)

Inductive Payload :=
| SyncMessage (st : DehydratedState) (isOnlineManagerOnline : bool)
              (persistentDeviceId : string)
| AsyncStorageSyncMessage (items : list (string * string)) (timestamp : nat)
                          (persistentDeviceId : string)
| AsyncStorageActionReceived (m : AsyncStorageActionMessage)
| RequestAsyncStorageReceived
| ExpoCommandResultMessage (command : ExpoCommand) (persistentDeviceId : string).

Record Emitted := { em_event : string; em_payload : Payload }.

Inductive LogLevel := LevelLog | LevelWarn | LevelError.

(** A call [log(message, enableLogs, level)]. *)
Record LogCall := {
  lc_message : string;
  lc_enabled : bool;
  lc_level : LogLevel;
}.

Record NetworkMonitoringOptions := {
  nm_fetch : bool;
  nm_xhr : bool;
  nm_websocket : bool;
}.

(** The props of the hook; [asyncStorage] tells whether a store was passed. *)
Record Props := {
  deviceName : string;
  deviceId : string;
  enableLogs : bool;
  asyncStorage : bool;
  networkMonitoring : option NetworkMonitoringOptions;
}.

Inductive InterceptorKind := KFetch | KXHR | KWebSocket.

Global Instance InterceptorKind_eq_dec : EqDecision InterceptorKind.
Proof. solve_decision. Defined.

(** The function an interceptor setup returns. *)
Record Disposer := { d_kind : InterceptorKind; d_id : nat }.

Global Instance Disposer_eq_dec : EqDecision Disposer.
Proof. solve_decision. Defined.

(** queryClient and onlineManager.  [online_listeners] stands for what a
    call of [setOnline] sets off in the library: given the flag of before,
    the flag asked for and the query cache, the states through which the
    listeners subscribed to onlineManager (a mounted QueryClient is one) take
    the cache, each of them notified to the subscribers of the cache.
    Whether the listeners are called at all when the flag does not change
    depends on the version of the library, and is part of this function. *)
Record Client := {
  queries : gmap string Query;
  mutations : list nat;
  online : bool;
  subscriber : option Props;      (* the listener of getQueryCache().subscribe *)
  unsubscribe_call : SyncCall;    (* what calling unsubscribe() does *)
  version : option string;        (* getDefaultOptions().queries.version *)
  online_listeners :
    bool -> bool -> gmap string Query -> list (gmap string Query);
}.

(** The socket of useMySocket. *)
Record Socket := {
  isConnected : bool;
  socket_present : bool;          (* socket !== null *)
  listeners : list string;        (* events with a handler installed *)
  off_call : string -> SyncCall;  (* what a subscription's off() does *)
  emitted : list Emitted;
}.

(** The three refs and the taps installed on the traffic. *)
Record Monitor := {
  removeFetchInterceptorRef : option Disposer;
  removeXHRInterceptorRef : option Disposer;
  removeWebSocketInterceptorRef : option Disposer;
  taps : list Disposer;
  next_tap : nat;
  dispose_call : InterceptorKind -> SyncCall;  (* what calling a disposer does *)
}.

(** The methods of the [asyncStorage] prop the hook calls. *)
Inductive StoreMethod := GetAllKeys | GetItem | SetItem | RemoveItem | Clear.

Global Instance StoreMethod_eq_dec : EqDecision StoreMethod.
Proof. solve_decision. Defined.

(** The key/value store behind the [asyncStorage] prop: its content, and
    what the promise of each method does. *)
Record Storage := {
  items : gmap string string;
  store_call : StoreMethod -> AsyncCall;
}.

Record World := {
  host : Host;
  impls : Impls;
  client : Client;
  socket : Socket;
  monitor : Monitor;
  storage : Storage;
  logs : list LogCall;
  now : nat;                      (* Date.now() *)
  prevConnectedRef : bool;
}.

Definition set_host (x : Host) (w : World) : World :=
  {| host := x; impls := impls w; client := client w; socket := socket w;
     monitor := monitor w; storage := storage w; logs := logs w; now := now w;
     prevConnectedRef := prevConnectedRef w |}.

Definition set_impls (x : Impls) (w : World) : World :=
  {| host := host w; impls := x; client := client w; socket := socket w;
     monitor := monitor w; storage := storage w; logs := logs w; now := now w;
     prevConnectedRef := prevConnectedRef w |}.

Definition set_client (x : Client) (w : World) : World :=
  {| host := host w; impls := impls w; client := x; socket := socket w;
     monitor := monitor w; storage := storage w; logs := logs w; now := now w;
     prevConnectedRef := prevConnectedRef w |}.

Definition set_socket (x : Socket) (w : World) : World :=
  {| host := host w; impls := impls w; client := client w; socket := x;
     monitor := monitor w; storage := storage w; logs := logs w; now := now w;
     prevConnectedRef := prevConnectedRef w |}.

Definition set_monitor (x : Monitor) (w : World) : World :=
  {| host := host w; impls := impls w; client := client w; socket := socket w;
     monitor := x; storage := storage w; logs := logs w; now := now w;
     prevConnectedRef := prevConnectedRef w |}.

Definition set_storage (x : Storage) (w : World) : World :=
  {| host := host w; impls := impls w; client := client w; socket := socket w;
     monitor := monitor w; storage := x; logs := logs w; now := now w;
     prevConnectedRef := prevConnectedRef w |}.

Definition set_logs (x : list LogCall) (w : World) : World :=
  {| host := host w; impls := impls w; client := client w; socket := socket w;
     monitor := monitor w; storage := storage w; logs := x; now := now w;
     prevConnectedRef := prevConnectedRef w |}.

Definition set_prevConnectedRef (x : bool) (w : World) : World :=
  {| host := host w; impls := impls w; client := client w; socket := socket w;
     monitor := monitor w; storage := storage w; logs := logs w; now := now w;
     prevConnectedRef := x |}.

Definition set_queries (x : gmap string Query) (c : Client) : Client :=
  {| queries := x; mutations := mutations c; online := online c;
     subscriber := subscriber c; unsubscribe_call := unsubscribe_call c;
     version := version c; online_listeners := online_listeners c |}.

Definition set_mutations (x : list nat) (c : Client) : Client :=
  {| queries := queries c; mutations := x; online := online c;
     subscriber := subscriber c; unsubscribe_call := unsubscribe_call c;
     version := version c; online_listeners := online_listeners c |}.

Definition set_online (x : bool) (c : Client) : Client :=
  {| queries := queries c; mutations := mutations c; online := x;
     subscriber := subscriber c; unsubscribe_call := unsubscribe_call c;
     version := version c; online_listeners := online_listeners c |}.

Definition set_subscriber (x : option Props) (c : Client) : Client :=
  {| queries := queries c; mutations := mutations c; online := online c;
     subscriber := x; unsubscribe_call := unsubscribe_call c;
     version := version c; online_listeners := online_listeners c |}.

Definition set_listeners (x : list string) (s : Socket) : Socket :=
  {| isConnected := isConnected s; socket_present := socket_present s;
     listeners := x; off_call := off_call s; emitted := emitted s |}.

Definition set_emitted (x : list Emitted) (s : Socket) : Socket :=
  {| isConnected := isConnected s; socket_present := socket_present s;
     listeners := listeners s; off_call := off_call s; emitted := x |}.

Definition get_ref (k : InterceptorKind) (m : Monitor) : option Disposer :=
  match k with
  | KFetch => removeFetchInterceptorRef m
  | KXHR => removeXHRInterceptorRef m
  | KWebSocket => removeWebSocketInterceptorRef m
  end.

Definition set_ref (k : InterceptorKind) (x : option Disposer) (m : Monitor)
  : Monitor :=
  {| removeFetchInterceptorRef :=
       match k with KFetch => x | _ => removeFetchInterceptorRef m end;
     removeXHRInterceptorRef :=
       match k with KXHR => x | _ => removeXHRInterceptorRef m end;
     removeWebSocketInterceptorRef :=
       match k with KWebSocket => x | _ => removeWebSocketInterceptorRef m end;
     taps := taps m; next_tap := next_tap m; dispose_call := dispose_call m |}.

Definition set_taps (x : list Disposer) (n : nat) (m : Monitor) : Monitor :=
  {| removeFetchInterceptorRef := removeFetchInterceptorRef m;
     removeXHRInterceptorRef := removeXHRInterceptorRef m;
     removeWebSocketInterceptorRef := removeWebSocketInterceptorRef m;
     taps := x; next_tap := n; dispose_call := dispose_call m |}.

Definition set_items (x : gmap string string) (s : Storage) : Storage :=
  {| items := x; store_call := store_call s |}.

Definition resolves (c : AsyncCall) : bool :=
  match c with Resolves => true | _ => false end.

(** The first method of the store, in the order above, whose promise does
    not resolve; [None] for a store that answers every call. *)
Definition failure (s : Storage) : option StoreMethod :=
  List.find (fun m => negb (resolves (store_call s m)))
            [GetAllKeys; GetItem; SetItem; RemoveItem; Clear].

(** ** Logging and the channel *)

(** Modelled from the spec: utils/logger is not among the sources; a call is
    recorded with its arguments (the logging sink of the design notes). *)
Definition log (message : string) (enabled : bool) (level : LogLevel)
  : M World unit :=
  modify (fun w =>
    set_logs (logs w ++ [{| lc_message := message; lc_enabled := enabled;
                            lc_level := level |}]) w).

(** [socket.emit(event, payload)] *)
Definition emit (event : string) (payload : Payload) : M World unit :=
  modify (fun w =>
    set_socket
      (set_emitted (emitted (socket w) ++
                    [{| em_event := event; em_payload := payload |}])
                   (socket w)) w).

(** Run code of the host (an implementation) inside a handler. *)
Definition lift_host {A} (m : M Host A) : M World A :=
  fun w => let (r, h) := m (host w) in (r, set_host h w).

(** ** executeExpoCommand.ts *)

Definition with_status (c : ExpoCommand) (s : ExpoCommandStatus)
  (err : option string) : ExpoCommand :=
  {| cmd_id := cmd_id c; cmd_type := cmd_type c; cmd_status := s;
     cmd_timestamp := cmd_timestamp c; cmd_deviceId := cmd_deviceId c;
     cmd_result := cmd_result c;
     cmd_error := match err with Some e => Some e | None => cmd_error c end |}.

(** The [switch (command.type)]: the slot read when the command runs. *)
Definition resolve (i : Impls) (type : string) : option Impl :=
  if String.eqb type "reload" then Some (executeReload i)
  else if String.eqb type "toggle-inspector" then Some (executeToggleInspector i)
  else if String.eqb type "toggle-performance-monitor"
       then Some (executeTogglePerformanceMonitor i)
  else if String.eqb type "toggle-element-inspector"
       then Some (executeToggleElementInspector i)
  else if String.eqb type "clear-cache" then Some (executeClearCache i)
  else if String.eqb type "toggle-remote-debugging"
       then Some (executeToggleRemoteDebugging i)
  else if String.eqb type "open-dev-menu" then Some (executeOpenDevMenu i)
  else if String.eqb type "take-screenshot" then Some (executeTakeScreenshot i)
  else if String.eqb type "shake-device" then Some (executeShakeDevice i)
  else None.

Definition logPrefix_cmd : string := "[ExpoCommand]".

Definition executeExpoCommand (command : ExpoCommand) (deviceId : string)
  (enableLogs : bool) : M World unit :=
  log (logPrefix_cmd +:+ " Executing command: " +:+ cmd_type command)
      enableLogs LevelLog >>
  try_catch
    (let* w := get in
     match resolve (impls w) (cmd_type command) with
     | Some implementation => lift_host implementation   (* await executeX() *)
     | None =>
         throw (ErrorObj ("Unknown command type: " +:+ cmd_type command))
     end >>
     emit "expo-command-result"
       (ExpoCommandResultMessage (with_status command CmdSuccess None) deviceId) >>
     log (logPrefix_cmd +:+ " Command executed successfully: " +:+
          cmd_type command) enableLogs LevelLog)
    (fun error =>
       let* message := render error_text error in
       emit "expo-command-result"
         (ExpoCommandResultMessage
            (with_status command CmdError (Some message)) deviceId) >>
       log (logPrefix_cmd +:+ " Command execution failed: " +:+ cmd_type command)
           enableLogs LevelError >>
       let* shown := render template_text error in
       log (logPrefix_cmd +:+ " Error: " +:+ shown) enableLogs LevelError).

(** An assignment to a module-level slot. *)
Definition assign (set : Impl -> Impls -> Impls) (implementation : Impl)
  : M World unit :=
  modify (fun w => set_impls (set implementation (impls w)) w).

Definition setReloadImplementation := assign set_executeReload.
Definition setToggleInspectorImplementation := assign set_executeToggleInspector.
Definition setTogglePerformanceMonitorImplementation :=
  assign set_executeTogglePerformanceMonitor.
Definition setToggleElementInspectorImplementation :=
  assign set_executeToggleElementInspector.
Definition setClearCacheImplementation := assign set_executeClearCache.
Definition setToggleRemoteDebuggingImplementation :=
  assign set_executeToggleRemoteDebugging.
Definition setOpenDevMenuImplementation := assign set_executeOpenDevMenu.
Definition setTakeScreenshotImplementation := assign set_executeTakeScreenshot.
Definition setShakeDeviceImplementation := assign set_executeShakeDevice.

(** [if (implementations.k) { slot = implementations.k; }] *)
Definition assign_if (supplied : option Impl) (set : Impl -> Impls -> Impls)
  : M World unit :=
  match supplied with
  | Some f => assign set f
  | None => ret tt
  end.

Definition setExpoCommandImplementations (implementations : PartialImpls)
  : M World unit :=
  assign_if (reload implementations) set_executeReload >>
  assign_if (toggleInspector implementations) set_executeToggleInspector >>
  assign_if (togglePerformanceMonitor implementations)
            set_executeTogglePerformanceMonitor >>
  assign_if (toggleElementInspector implementations)
            set_executeToggleElementInspector >>
  assign_if (clearCache implementations) set_executeClearCache >>
  assign_if (toggleRemoteDebugging implementations)
            set_executeToggleRemoteDebugging >>
  assign_if (openDevMenu implementations) set_executeOpenDevMenu >>
  assign_if (takeScreenshot implementations) set_executeTakeScreenshot >>
  assign_if (shakeDevice implementations) set_executeShakeDevice.

(** ** useSyncQueriesExternal.ts: targeting *)

Definition shouldProcessMessage (targetDeviceId currentDeviceId : string) : bool :=
  String.eqb targetDeviceId currentDeviceId || String.eqb targetDeviceId "All".

(** [!deviceId] for a string. *)
Definition blank (s : string) : bool := String.eqb s "".

Definition logPrefix (p : Props) : string := "[" +:+ deviceName p +:+ "]".

(** ** The cache collaborator: operations *)

Definition with_state (s : QueryState) (q : Query) : Query :=
  {| queryHash := queryHash q; queryKey := queryKey q; state := s;
     options := options q; initialState := initialState q;
     retryer := retryer q; abandoned := abandoned q;
     observers := observers q |}.

(** A new retryer is created for the fetch; one that was still pending is
    replaced without being cancelled. *)
Definition with_fetch (o : QueryOptions) (s : QueryState) (q : Query) : Query :=
  {| queryHash := queryHash q; queryKey := queryKey q; state := s;
     options := o; initialState := initialState q;
     retryer := Some o;
     abandoned := abandoned q ++ match retryer q with
                                 | Some pending => [pending]
                                 | None => []
                                 end;
     observers := observers q |}.

Definition without_retryer (q : Query) : Query :=
  {| queryHash := queryHash q; queryKey := queryKey q; state := state q;
     options := options q; initialState := initialState q;
     retryer := None; abandoned := abandoned q; observers := observers q |}.

(** The fetches of a query whose promise is pending. *)
Definition in_flight (q : Query) : list QueryOptions :=
  abandoned q ++ match retryer q with Some o => [o] | None => [] end.

(** [x !== undefined] for an optional value. *)
Definition has {A} (o : option A) : bool :=
  match o with Some _ => true | None => false end.

Definition is_idle (f : FetchStatus) : bool :=
  match f with Idle => true | _ => false end.

(** The reducer of a query on action [fetch]. *)
Definition fetch_state (isOnline : bool) (s : QueryState) : QueryState :=
  {| st_data := st_data s;
     st_dataUpdatedAt := st_dataUpdatedAt s;
     st_error := match st_data s with None => None | Some _ => st_error s end;
     st_status :=
       match st_data s with None => StatusPending | Some _ => st_status s end;
     st_fetchStatus := if isOnline then Fetching else Paused;
     st_fetchMeta := None;
     st_isInvalidated := st_isInvalidated s |}.

(** [query.fetch(options, { cancelRefetch })].  A fetch already in flight is
    joined, unless it is to be cancelled; otherwise the options are installed
    and a fetch is started.  The boolean tells whether the cache was
    notified. *)
Definition Query_fetch (isOnline cancelRefetch : bool)
  (opts : option QueryOptions) (q : Query) : Query * bool :=
  if negb (is_idle (st_fetchStatus (state q)))
     && negb (has (st_data (state q)) && cancelRefetch)
     && has (retryer q)
  then (q, false)
  else
    let o := default (options q) opts in
    (* this.cancel({ silent: true }) on the cancelRefetch path *)
    let q0 := if negb (is_idle (st_fetchStatus (state q)))
                 && has (st_data (state q)) && cancelRefetch
              then without_retryer q else q in
    (with_fetch o (fetch_state isOnline (state q)) q0, true).

(** [query.cancel({ silent: true })]: the fetch in flight is dropped and no
    error is dispatched. *)
Definition Query_cancel_silent (q : Query) : Query * bool :=
  (without_retryer q, false).

(** [query.setState(partial)]: the reducer merges the partial state. *)
Definition Query_setState (merge : QueryState -> QueryState) (q : Query)
  : Query * bool :=
  (with_state (merge (state q)) q, true).

(** [query.reset()] *)
Definition Query_reset (q : Query) : Query * bool :=
  (with_state (initialState q) (without_retryer q), true).

(** [query.invalidate()] *)
Definition Query_invalidate (q : Query) : Query * bool :=
  if st_isInvalidated (state q) then (q, false)
  else
    (with_state
       {| st_data := st_data (state q);
          st_dataUpdatedAt := st_dataUpdatedAt (state q);
          st_error := st_error (state q);
          st_status := st_status (state q);
          st_fetchStatus := st_fetchStatus (state q);
          st_fetchMeta := st_fetchMeta (state q);
          st_isInvalidated := true |} q, true).

(** [query.setData(data, { updatedAt, manual: true })] *)
Definition Query_setData (data : string) (updatedAt : nat) (q : Query)
  : Query * bool :=
  (with_state
     {| st_data := Some data;
        st_dataUpdatedAt := updatedAt;
        st_error := None;
        st_status := StatusSuccess;
        st_fetchStatus := st_fetchStatus (state q);
        st_fetchMeta := st_fetchMeta (state q);
        st_isInvalidated := false |} q, true).

(** Modelled from the spec: hydration.ts is not among the sources; the
    Serializer produces the snapshot of the live cache, one record per
    query. *)
Definition Dehydrate (c : Client) : DehydratedState :=
  {| dh_mutations := mutations c;
     dh_queries :=
       (fun kq : string * Query =>
          {| dq_queryHash := queryHash kq.2; dq_queryKey := queryKey kq.2;
             dq_state := state kq.2; dq_observers := observers kq.2 |})
       <$> map_to_list (queries c) |}.

(** The listener given to [queryClient.getQueryCache().subscribe]. *)
Definition cache_listener (p : Props) : M World unit :=
  if blank (deviceId p)
  then log (logPrefix p +:+ " No persistent device ID found") (enableLogs p)
           LevelWarn
  else
    let* w := get in
    emit "query-sync"
      (SyncMessage (Dehydrate (client w)) (online (client w)) (deviceId p)).

(** A notification of the query cache reaches its listener at once. *)
Definition notify : M World unit :=
  let* w := get in
  match subscriber (client w) with
  | Some p => cache_listener p
  | None => ret tt
  end.

Fixpoint for_each {A} (l : list A) (f : A -> M World unit) : M World unit :=
  match l with
  | [] => ret tt
  | x :: l' => f x >> for_each l' f
  end.

(** A method call on the query object with this hash. *)
Definition on_query (hash : string) (method : Client -> Query -> Query * bool)
  : M World unit :=
  let* w := get in
  match queries (client w) !! hash with
  | None => ret tt
  | Some q =>
      let (q', notified) := method (client w) q in
      modify (fun w =>
        set_client (set_queries (<[hash := q']> (queries (client w))) (client w)) w) >>
      when notified notify
  end.

(** [queryCache.remove(query)] *)
Definition cache_remove (hash : string) : M World unit :=
  modify (fun w =>
    set_client (set_queries (delete hash (queries (client w))) (client w)) w) >>
  notify.

(** [partialMatchKey(query.queryKey, filters.queryKey)] on keys that are
    arrays of strings. *)
Fixpoint partialMatchKey (a b : QueryKey) : bool :=
  match b, a with
  | [], _ => true
  | y :: b', x :: a' => String.eqb x y && partialMatchKey a' b'
  | _ :: _, [] => false
  end.

(** [queryCache.findAll(filters)] with a Query object passed as the filters:
    only its [queryKey] is a filter. *)
Definition findAll (filters : Query) (c : Client) : list Query :=
  filter (fun q => Is_true (partialMatchKey (queryKey q) (queryKey filters)))
         ((map_to_list (queries c)).*2).

(** [queryClient.refetchQueries({ type: 'active', ...filters })] *)
Definition refetchQueries_active (filters : Query) : M World unit :=
  let* w := get in
  for_each (filter (fun q => 0 < observers q) (findAll filters (client w)))
    (fun q =>
       on_query (queryHash q)
         (fun c => Query_fetch (online c) true None)).

Definition resetQueries (filters : Query) : M World unit :=
  let* w := get in
  for_each (findAll filters (client w))
    (fun q => on_query (queryHash q) (fun _ => Query_reset)) >>
  refetchQueries_active filters.

Definition removeQueries (filters : Query) : M World unit :=
  let* w := get in
  for_each (findAll filters (client w)) (fun q => cache_remove (queryHash q)).

Definition invalidateQueries (filters : Query) : M World unit :=
  let* w := get in
  for_each (findAll filters (client w))
    (fun q => on_query (queryHash q) (fun _ => Query_invalidate)) >>
  refetchQueries_active filters.

Definition quote : string := String (Ascii.ascii_of_nat 34) EmptyString.

Definition hex_digit (n : nat) : string :=
  String (Ascii.ascii_of_nat (if Nat.ltb n 10 then 48 + n else 87 + n))
         EmptyString.

(** One character inside a JSON string, as [JSON.stringify] writes it: the
    quote and the backslash are escaped, the control characters are written
    as their short escape or as [\u00xx]; every other byte of the UTF-8 text
    is kept. *)
Definition json_char (a : Ascii.ascii) : string :=
  let n := Ascii.nat_of_ascii a in
  let backslash := String (Ascii.ascii_of_nat 92) EmptyString in
  if Nat.eqb n 34 then backslash +:+ quote
  else if Nat.eqb n 92 then backslash +:+ backslash
  else if Nat.eqb n 8 then backslash +:+ "b"
  else if Nat.eqb n 9 then backslash +:+ "t"
  else if Nat.eqb n 10 then backslash +:+ "n"
  else if Nat.eqb n 12 then backslash +:+ "f"
  else if Nat.eqb n 13 then backslash +:+ "r"
  else if Nat.ltb n 32
       then backslash +:+ "u00" +:+ hex_digit (n / 16) +:+ hex_digit (n mod 16)
  else String a EmptyString.

Fixpoint json_chars (s : string) : string :=
  match s with
  | String a s' => json_char a +:+ json_chars s'
  | EmptyString => EmptyString
  end.

(** [JSON.stringify(s)] for a string. *)
Definition json_string (s : string) : string := quote +:+ json_chars s +:+ quote.

(** [hashKey(queryKey)]: the JSON text of the key, for a key whose segments
    are strings. *)
Definition hashKey (k : QueryKey) : string :=
  "[" +:+ String.concat "," (json_string <$> k) +:+ "]".

Definition fresh_state : QueryState :=
  {| st_data := None; st_dataUpdatedAt := 0; st_error := None;
     st_status := StatusPending; st_fetchStatus := Idle;
     st_fetchMeta := None; st_isInvalidated := false |}.

(** [queryClient.setQueryData(queryKey, data, { updatedAt })]: nothing for
    [undefined] data; else the query of that key is built if need be and its
    data set. *)
Definition setQueryData (key : QueryKey) (data : option string)
  (updatedAt : nat) : M World unit :=
  match data with
  | None => ret tt
  | Some d =>
      let* w := get in
      match queries (client w) !! hashKey key with
      | Some _ => ret tt
      | None =>
          modify (fun w =>
            set_client
              (set_queries
                 (<[hashKey key :=
                      {| queryHash := hashKey key; queryKey := key;
                         state := fresh_state;
                         options := {| queryFn := None; gcTime := None;
                                       other_options := "" |};
                         initialState := fresh_state; retryer := None;
                         abandoned := []; observers := 0 |}]>
                    (queries (client w)))
                 (client w)) w) >>
          notify
      end >>
      on_query (hashKey key) (fun _ => Query_setData d updatedAt)
  end.

(** [queryCache.clear()] and [mutationCache.clear()] *)
Definition queryCache_clear : M World unit :=
  let* w := get in
  for_each ((map_to_list (queries (client w))).*1) cache_remove.

Definition mutationCache_clear : M World unit :=
  modify (fun w => set_client (set_mutations [] (client w)) w).

(** [onlineManager.setOnline(flag)]: the flag is set, and the listeners of
    onlineManager do what they do on that call. *)
Definition setOnline (flag : bool) : M World unit :=
  let* w := get in
  modify (fun w => set_client (set_online flag (client w)) w) >>
  for_each (online_listeners (client w) (online (client w)) flag
                             (queries (client w)))
    (fun cache =>
       modify (fun w => set_client (set_queries cache (client w)) w) >>
       notify).

(** ** The socket handlers of the effect *)

(** [{ ...activeQuery.state.fetchMeta, __previousQueryOptions }] *)
Definition stash (m : option FetchMeta) (previous : QueryOptions) : FetchMeta :=
  {| fetchMore := m ≫= fetchMore; __previousQueryOptions := Some previous |}.

(** [{ ...__previousQueryOptions, queryFn: () => new Promise(() => {}), gcTime: -1 }] *)
Definition forced_options (previous : QueryOptions) : QueryOptions :=
  {| queryFn := Some NeverResolves; gcTime := Some (-1)%Z;
     other_options := other_options previous |}.

(** socket.on("request-initial-state", ...) *)
Definition initialStateHandler (p : Props) : M World unit :=
  if blank (deviceId p)
  then log (logPrefix p +:+ " No persistent device ID found") (enableLogs p)
           LevelWarn
  else
    log (logPrefix p +:+ " Dashboard is requesting initial state")
        (enableLogs p) LevelLog >>
    let* w := get in
    let dehydratedState := Dehydrate (client w) in
    emit "query-sync"
      (SyncMessage dehydratedState (online (client w)) (deviceId p)) >>
    log ("[" +:+ deviceName p +:+ "] Sent initial state to dashboard (" +:+
         pretty (length (dh_queries dehydratedState)) +:+ " queries)")
        (enableLogs p) LevelLog.

(** socket.on("online-manager", ...) *)
Definition onlineManagerHandler (p : Props) (message : OnlineManagerMessage)
  : M World unit :=
  let action := om_action message in
  let targetDeviceId := om_targetDeviceId message in
  if blank (deviceId p)
  then log (logPrefix p +:+ " No persistent device ID found") (enableLogs p)
           LevelWarn
  else if negb (shouldProcessMessage targetDeviceId (deviceId p))
  then ret tt
  else
    log ("[" +:+ deviceName p +:+ "] Received online-manager action: " +:+ action)
        (enableLogs p) LevelLog >>
    if String.eqb action "ACTION-ONLINE-MANAGER-ONLINE" then
      log (logPrefix p +:+ " Set online state: ONLINE") (enableLogs p) LevelLog >>
      setOnline true
    else if String.eqb action "ACTION-ONLINE-MANAGER-OFFLINE" then
      log (logPrefix p +:+ " Set online state: OFFLINE") (enableLogs p) LevelLog >>
      setOnline false
    else ret tt.

(** The [switch (action)] of the query-action handler, entered with the
    query found for the hash. *)
Definition queryActionSwitch (p : Props) (message : QueryActionMessage)
  (activeQuery : Query) : M World unit :=
  let queryHash := qa_queryHash message in
  let action := qa_action message in
  if String.eqb action "ACTION-DATA-UPDATE" then
    log (logPrefix p +:+ " Updating data for query:") (enableLogs p) LevelLog >>
    let* w := get in
    setQueryData (qa_queryKey message) (qa_data message) (now w)
  else if String.eqb action "ACTION-TRIGGER-ERROR" then
    log (logPrefix p +:+ " Triggering error state for query:") (enableLogs p)
        LevelLog >>
    let error := ErrorObj "Unknown error from devtools" in
    let __previousQueryOptions := options activeQuery in
    on_query queryHash (fun _ q =>
      Query_setState (fun s =>
        {| st_data := st_data s;
           st_dataUpdatedAt := st_dataUpdatedAt s;
           st_error := Some error;
           st_status := StatusError;
           st_fetchStatus := st_fetchStatus s;
           st_fetchMeta :=
             Some (stash (st_fetchMeta (state q)) __previousQueryOptions);
           st_isInvalidated := st_isInvalidated s |}) q)
  else if String.eqb action "ACTION-RESTORE-ERROR" then
    log (logPrefix p +:+ " Restoring from error state for query:")
        (enableLogs p) LevelLog >>
    resetQueries activeQuery
  else if String.eqb action "ACTION-TRIGGER-LOADING" then
    log (logPrefix p +:+ " Triggering loading state for query:") (enableLogs p)
        LevelLog >>
    let __previousQueryOptions := options activeQuery in
    (* Trigger a fetch in order to trigger suspense as well. *)
    on_query queryHash (fun c =>
      Query_fetch (online c) false
        (Some (forced_options __previousQueryOptions))) >>
    on_query queryHash (fun _ q =>
      Query_setState (fun s =>
        {| st_data := None;
           st_dataUpdatedAt := st_dataUpdatedAt s;
           st_error := st_error s;
           st_status := StatusPending;
           st_fetchStatus := st_fetchStatus s;
           st_fetchMeta :=
             Some (stash (st_fetchMeta (state q)) __previousQueryOptions);
           st_isInvalidated := st_isInvalidated s |}) q)
  else if String.eqb action "ACTION-RESTORE-LOADING" then
    log (logPrefix p +:+ " Restoring from loading state for query:")
        (enableLogs p) LevelLog >>
    let previousState := state activeQuery in
    let previousOptions := st_fetchMeta (state activeQuery) ≫= __previousQueryOptions in
    on_query queryHash (fun _ => Query_cancel_silent) >>
    on_query queryHash
      (fun _ => Query_setState (fun _ =>
        {| st_data := st_data previousState;
           st_dataUpdatedAt := st_dataUpdatedAt previousState;
           st_error := st_error previousState;
           st_status := st_status previousState;
           st_fetchStatus := Idle;
           st_fetchMeta := None;
           st_isInvalidated := st_isInvalidated previousState |})) >>
    match previousOptions with
    | Some o =>
        on_query queryHash (fun c =>
          Query_fetch (online c) false (Some o))
    | None => ret tt
    end
  else if String.eqb action "ACTION-RESET" then
    log (logPrefix p +:+ " Resetting query:") (enableLogs p) LevelLog >>
    resetQueries activeQuery
  else if String.eqb action "ACTION-REMOVE" then
    log (logPrefix p +:+ " Removing query:") (enableLogs p) LevelLog >>
    removeQueries activeQuery
  else if String.eqb action "ACTION-REFETCH" then
    log (logPrefix p +:+ " Refetching query:") (enableLogs p) LevelLog >>
    (* the handler of promise.catch runs after the fetch has failed, outside
       this handler *)
    on_query queryHash (fun c => Query_fetch (online c) false None)
  else if String.eqb action "ACTION-INVALIDATE" then
    log (logPrefix p +:+ " Invalidating query:") (enableLogs p) LevelLog >>
    invalidateQueries activeQuery
  else if String.eqb action "ACTION-ONLINE-MANAGER-ONLINE" then
    log (logPrefix p +:+ " Setting online state: ONLINE") (enableLogs p)
        LevelLog >>
    setOnline true
  else if String.eqb action "ACTION-ONLINE-MANAGER-OFFLINE" then
    log (logPrefix p +:+ " Setting online state: OFFLINE") (enableLogs p)
        LevelLog >>
    setOnline false
  else ret tt.

(** socket.on("query-action", ...) *)
Definition queryActionHandler (p : Props) (message : QueryActionMessage)
  : M World unit :=
  let queryHash := qa_queryHash message in
  let action := qa_action message in
  let targetDeviceId := qa_targetDeviceId message in
  if blank (deviceId p)
  then log ("[" +:+ deviceName p +:+ "] No persistent device ID found")
           (enableLogs p) LevelWarn
  else if negb (shouldProcessMessage targetDeviceId (deviceId p))
  then ret tt
  else
    log (logPrefix p +:+ " Received query action: " +:+ action +:+
         " for query " +:+ queryHash) (enableLogs p) LevelLog >>
    (* If action is clear cache do the action here before moving on *)
    if String.eqb action "ACTION-CLEAR-MUTATION-CACHE" then
      mutationCache_clear >>
      log (logPrefix p +:+ " Cleared mutation cache") (enableLogs p) LevelLog
    else if String.eqb action "ACTION-CLEAR-QUERY-CACHE" then
      queryCache_clear >>
      log (logPrefix p +:+ " Cleared query cache") (enableLogs p) LevelLog
    else
      let* w := get in
      match queries (client w) !! queryHash with
      | None =>
          log (logPrefix p +:+ " Query with hash " +:+ queryHash +:+ " not found")
              (enableLogs p) LevelWarn
      | Some activeQuery => queryActionSwitch p message activeQuery
      end.

(** *** AsyncStorage *)

(** [await asyncStorage.method(...)]: the value read when the promise
    resolves, the rejection thrown, or the handler suspended. *)
Definition storage_call {A} (method : StoreMethod) (read : Storage -> A)
  : M World A :=
  let* w := get in
  match store_call (storage w) method with
  | Resolves => ret (read (storage w))
  | Rejects e => throw e
  | NeverSettles => stuck
  end.

Definition storage_getAllKeys : M World (list string) :=
  storage_call GetAllKeys (fun s => (map_to_list (items s)).*1).

Definition storage_getItem (key : string) : M World (option string) :=
  storage_call GetItem (fun s => items s !! key).

(** A method that writes: [setItem], [removeItem], [clear]. *)
Definition storage_update (method : StoreMethod)
  (f : gmap string string -> gmap string string) : M World unit :=
  storage_call method (fun _ => tt) >>
  modify (fun w => set_storage (set_items (f (items (storage w))) (storage w)) w).

Fixpoint collect_items (keys : list string)
  : M World (list (string * string)) :=
  match keys with
  | [] => ret []
  | key :: keys' =>
      let* value := storage_getItem key in
      let* rest := collect_items keys' in
      (* items.push({ key, value: value || '' }) *)
      ret ((key, default "" value) :: rest)
  end.

Definition sendAsyncStorageState (p : Props) : M World unit :=
  let* w := get in
  if negb (asyncStorage p) || negb (socket_present (socket w))
     || blank (deviceId p)
  then ret tt
  else
    try_catch
      (let* keys := storage_getAllKeys in
       let* items := collect_items keys in
       let* w := get in
       emit "async-storage-sync"
         (AsyncStorageSyncMessage items (now w) (deviceId p)) >>
       log (logPrefix p +:+ " Sent AsyncStorage state to dashboard (" +:+
            pretty (length items) +:+ " items)") (enableLogs p) LevelLog)
      (fun error =>
         let* shown := render template_text error in
         log (logPrefix p +:+ " Error sending AsyncStorage state: " +:+ shown)
             (enableLogs p) LevelError).

(** [if (key)] for an optional string. *)
Definition truthy (o : option string) : option string :=
  match o with
  | Some s => if blank s then None else Some s
  | None => None
  end.

(** socket.on("async-storage-action", ...) *)
Definition asyncStorageActionHandler (p : Props)
  (message : AsyncStorageActionMessage) : M World unit :=
  let action := asa_action message in
  let targetDeviceId := asa_targetDeviceId message in
  let key := asa_key message in
  let value := asa_value message in
  if blank (deviceId p)
  then log (logPrefix p +:+ " No persistent device ID found") (enableLogs p)
           LevelWarn
  else if negb (shouldProcessMessage targetDeviceId (deviceId p))
  then ret tt
  else
    log (logPrefix p +:+ " Received AsyncStorage action: " +:+ action +:+
         match truthy key with Some k => " for key " +:+ k | None => "" end)
        (enableLogs p) LevelLog >>
    if asyncStorage p then
      try_catch
        (if String.eqb action "GET_ALL_KEYS" then sendAsyncStorageState p
         else if String.eqb action "GET_ITEM" then
           match truthy key with
           | Some k =>
               let* value := storage_getItem k in
               log (logPrefix p +:+ " Got AsyncStorage item: " +:+ k +:+ " = " +:+
                    default "null" value) (enableLogs p) LevelLog >>
               sendAsyncStorageState p
           | None => ret tt
           end
         else if String.eqb action "SET_ITEM" then
           match truthy key, value with
           | Some k, Some v =>
               storage_update SetItem (insert k v) >>
               log (logPrefix p +:+ " Set AsyncStorage item: " +:+ k +:+ " = " +:+ v)
                   (enableLogs p) LevelLog >>
               sendAsyncStorageState p
           | _, _ => ret tt
           end
         else if String.eqb action "REMOVE_ITEM" then
           match truthy key with
           | Some k =>
               storage_update RemoveItem (delete k) >>
               log (logPrefix p +:+ " Removed AsyncStorage item: " +:+ k)
                   (enableLogs p) LevelLog >>
               sendAsyncStorageState p
           | None => ret tt
           end
         else if String.eqb action "CLEAR_ALL" then
           storage_update Clear (fun _ => ∅) >>
           log (logPrefix p +:+ " Cleared all AsyncStorage items") (enableLogs p)
               LevelLog >>
           sendAsyncStorageState p
         else ret tt)
        (fun error =>
           let* shown := render template_text error in
           log (logPrefix p +:+ " Error handling AsyncStorage action: " +:+
                shown) (enableLogs p) LevelError)
    else
      emit "async-storage-action-received" (AsyncStorageActionReceived message) >>
      log (logPrefix p +:+
           " Emitted async-storage-action-received event for app to handle")
          (enableLogs p) LevelLog.

(** socket.on("request-async-storage", ...) *)
Definition asyncStorageRequestHandler (p : Props)
  (message : AsyncStorageRequestMessage) : M World unit :=
  let targetDeviceId := asr_targetDeviceId message in
  if blank (deviceId p)
  then log (logPrefix p +:+ " No persistent device ID found") (enableLogs p)
           LevelWarn
  else if negb (shouldProcessMessage targetDeviceId (deviceId p))
  then ret tt
  else
    log (logPrefix p +:+ " Dashboard is requesting AsyncStorage state")
        (enableLogs p) LevelLog >>
    if asyncStorage p then sendAsyncStorageState p
    else
      emit "request-async-storage-received" RequestAsyncStorageReceived >>
      log (logPrefix p +:+
           " Emitted request-async-storage-received event for app to handle")
          (enableLogs p) LevelLog.

(** *** Network monitoring *)

(** Modelled from the spec: sendNetworkRequest.ts is not among the sources;
    [install(kind) -> disposer]: a setup puts one tap of its kind on the
    traffic and returns the function that removes it. *)
Definition setupInterceptor (k : InterceptorKind) : M World Disposer :=
  let* w := get in
  let d := {| d_kind := k; d_id := next_tap (monitor w) |} in
  modify (fun w =>
    set_monitor
      (set_taps (taps (monitor w) ++ [d]) (S (next_tap (monitor w))) (monitor w))
      w) >>
  ret d.

Definition setupFetchInterceptor := setupInterceptor KFetch.
Definition setupXHRInterceptor := setupInterceptor KXHR.
Definition setupWebSocketInterceptor := setupInterceptor KWebSocket.

(** Calling a disposer: it removes its tap, unless the call throws. *)
Definition dispose (d : Disposer) : M World unit :=
  let* w := get in
  match dispose_call (monitor w) (d_kind d) with
  | Throws e => throw e
  | Returns =>
      modify (fun w =>
        set_monitor
          (set_taps (filter (fun t => t ≠ d) (taps (monitor w)))
                    (next_tap (monitor w)) (monitor w)) w)
  end.

Definition write_ref (k : InterceptorKind) (x : option Disposer) : M World unit :=
  modify (fun w => set_monitor (set_ref k x (monitor w)) w).

(** [if (!ref.current) { ref.current = setup(socket, deviceId, enableLogs); }] *)
Definition install_if_absent (k : InterceptorKind) : M World unit :=
  let* w := get in
  match get_ref k (monitor w) with
  | Some _ => ret tt
  | None =>
      let* d := setupInterceptor k in
      write_ref k (Some d)
  end.

(** [if (ref.current) { ref.current(); ref.current = null; }] *)
Definition remove_if_present (k : InterceptorKind) : M World unit :=
  let* w := get in
  match get_ref k (monitor w) with
  | Some d => dispose d >> write_ref k None
  | None => ret tt
  end.

(** socket.on("network-monitoring-action", ...) *)
Definition networkMonitoringHandler (p : Props)
  (message : NetworkMonitoringActionMessage) : M World unit :=
  let action := nma_action message in
  let targetDeviceId := nma_targetDeviceId message in
  if blank (deviceId p)
  then log (logPrefix p +:+ " No persistent device ID found") (enableLogs p)
           LevelWarn
  else if negb (shouldProcessMessage targetDeviceId (deviceId p))
  then ret tt
  else
    log (logPrefix p +:+ " Received network-monitoring action: " +:+ action)
        (enableLogs p) LevelLog >>
    if String.eqb action "ACTION-ENABLE-NETWORK-MONITORING" then
      log (logPrefix p +:+ " Enabling network monitoring") (enableLogs p)
          LevelLog >>
      install_if_absent KFetch >>
      install_if_absent KXHR >>
      install_if_absent KWebSocket
    else if String.eqb action "ACTION-DISABLE-NETWORK-MONITORING" then
      log (logPrefix p +:+ " Disabling network monitoring") (enableLogs p)
          LevelLog >>
      remove_if_present KFetch >>
      remove_if_present KXHR >>
      remove_if_present KWebSocket
    else ret tt.

(** socket.on("request-network-monitoring", ...) *)
Definition networkRequestHandler (p : Props) (message : NetworkRequestMessage)
  : M World unit :=
  let targetDeviceId := nrm_targetDeviceId message in
  if blank (deviceId p)
  then log (logPrefix p +:+ " No persistent device ID found") (enableLogs p)
           LevelWarn
  else if negb (shouldProcessMessage targetDeviceId (deviceId p))
  then ret tt
  else
    log (logPrefix p +:+ " Dashboard is requesting network monitoring state")
        (enableLogs p) LevelLog.

(** *** Expo commands *)

(** socket.on("expo-command-action", ...) *)
Definition expoCommandActionHandler (p : Props)
  (message : ExpoCommandActionMessage) : M World unit :=
  let command := eca_command message in
  let targetDeviceId := eca_targetDeviceId message in
  let commandId := eca_commandId message in
  if blank (deviceId p)
  then log (logPrefix p +:+ " No persistent device ID found") (enableLogs p)
           LevelWarn
  else if negb (shouldProcessMessage targetDeviceId (deviceId p))
  then ret tt
  else
    log (logPrefix p +:+ " Received Expo command action: " +:+ command +:+
         " (ID: " +:+ commandId +:+ ")") (enableLogs p) LevelLog >>
    let* w := get in
    let expoCommand :=
      {| cmd_id := commandId; cmd_type := command; cmd_status := CmdPending;
         cmd_timestamp := now w; cmd_deviceId := targetDeviceId;
         cmd_result := None; cmd_error := None |} in
    executeExpoCommand expoCommand (deviceId p) (enableLogs p).

(** socket.on("request-expo-devtools-status", ...) *)
Definition expoDevToolsRequestHandler (p : Props)
  (message : ExpoDevToolsRequestMessage) : M World unit :=
  let targetDeviceId := edr_targetDeviceId message in
  if blank (deviceId p)
  then log (logPrefix p +:+ " No persistent device ID found") (enableLogs p)
           LevelWarn
  else if negb (shouldProcessMessage targetDeviceId (deviceId p))
  then ret tt
  else
    log (logPrefix p +:+ " Dashboard is requesting Expo DevTools status")
        (enableLogs p) LevelLog >>
    let* w := get in
    emit "expo-command-result"
      (ExpoCommandResultMessage
         {| cmd_id := "status-check"; cmd_type := "reload";
            cmd_status := CmdSuccess; cmd_timestamp := now w;
            cmd_deviceId := targetDeviceId;
            cmd_result := Some "{ expoDevToolsAvailable: true }";
            cmd_error := None |} (deviceId p)).

(** ** The effect of the hook and its cleanup *)

Definition set_connection (connected present : bool) (s : Socket) : Socket :=
  {| isConnected := connected; socket_present := present;
     listeners := listeners s; off_call := off_call s; emitted := emitted s |}.

(** [socket.on(event, handler)] of socket.io-client (the [Socket] that
    executeExpoCommand.ts imports): the handler is added and the socket itself
    is returned. *)
Definition socket_on (event : string) : M World unit :=
  modify (fun w =>
    set_socket (set_listeners (listeners (socket w) ++ [event]) (socket w)) w).

(** [subscription.off()] on what [socket.on(event, ...)] returned: the
    subscription is the socket, and [off] called without arguments removes
    every handler of every event, unless the call throws. *)
Definition subscription_off (event : string) : M World unit :=
  let* w := get in
  match off_call (socket w) event with
  | Throws e => throw e
  | Returns =>
      modify (fun w => set_socket (set_listeners [] (socket w)) w)
  end.

(** [queryClient.getQueryCache().subscribe(listener)] and the function it
    returns. *)
Definition cache_subscribe (p : Props) : M World unit :=
  modify (fun w => set_client (set_subscriber (Some p) (client w)) w).

Definition unsubscribe : M World unit :=
  let* w := get in
  match unsubscribe_call (client w) with
  | Throws e => throw e
  | Returns => modify (fun w => set_client (set_subscriber None (client w)) w)
  end.

(** The function returned by the effect. *)
Definition cleanup (p : Props) : M World unit :=
  log (logPrefix p +:+ " Cleaning up event listeners") (enableLogs p) LevelLog >>
  subscription_off "query-action" >>
  subscription_off "request-initial-state" >>
  subscription_off "online-manager" >>
  subscription_off "async-storage-action" >>
  subscription_off "request-async-storage" >>
  subscription_off "network-monitoring-action" >>
  subscription_off "request-network-monitoring" >>
  subscription_off "expo-command-action" >>
  subscription_off "request-expo-devtools-status" >>
  (* Clean up network interceptors *)
  remove_if_present KFetch >>
  remove_if_present KXHR >>
  remove_if_present KWebSocket >>
  unsubscribe.

(** [checkVersion(queryClient)] *)
Definition checkVersion : M World unit :=
  let* w := get in
  match version (client w) with
  | Some v =>
      if negb (blank v) && negb (String.prefix "4" v)
         && negb (String.prefix "5" v)
      then log "This version of React Query has not been tested with the dev tools plugin. Some features might not work as expected."
               true LevelWarn
      else ret tt
  | None => ret tt
  end.

(** The body of [useEffect].  It answers whether a cleanup function was
    returned. *)
Definition effect (p : Props) : M World bool :=
  checkVersion >>
  let* w := get in
  (* Only log connection state changes to reduce noise *)
  when (negb (Bool.eqb (prevConnectedRef w) (isConnected (socket w))))
    ((if negb (isConnected (socket w))
      then log (logPrefix p +:+ " Not connected to external dashboard")
               (enableLogs p) LevelLog
      else log (deviceName p +:+ " Connected to external dashboard")
               (enableLogs p) LevelLog) >>
     modify (set_prevConnectedRef (isConnected (socket w)))) >>
  let* w := get in
  (* Don't proceed with setting up event handlers if not connected *)
  if negb (isConnected (socket w)) || negb (socket_present (socket w))
  then ret false
  else
    socket_on "request-initial-state" >>
    socket_on "online-manager" >>
    socket_on "query-action" >>
    cache_subscribe p >>
    socket_on "async-storage-action" >>
    socket_on "request-async-storage" >>
    match networkMonitoring p with
    | Some nm =>
        when (nm_fetch nm)
          (log (logPrefix p +:+ " Setting up fetch interceptor") (enableLogs p)
               LevelLog >>
           let* d := setupFetchInterceptor in
           write_ref KFetch (Some d)) >>
        when (nm_xhr nm)
          (log (logPrefix p +:+ " Setting up XHR interceptor") (enableLogs p)
               LevelLog >>
           let* d := setupXHRInterceptor in
           write_ref KXHR (Some d)) >>
        when (nm_websocket nm)
          (log (logPrefix p +:+ " Setting up WebSocket interceptor")
               (enableLogs p) LevelLog >>
           let* d := setupWebSocketInterceptor in
           write_ref KWebSocket (Some d))
    | None => ret tt
    end >>
    socket_on "network-monitoring-action" >>
    socket_on "request-network-monitoring" >>
    socket_on "expo-command-action" >>
    socket_on "request-expo-devtools-status" >>
    ret true.

(** [String.prototype.trim].  A string holds the UTF-8 bytes of the
    JavaScript text; what is stripped is the WhiteSpace and LineTerminator of
    ECMAScript: U+0009 to U+000D, U+0020, U+00A0, U+1680, U+2000 to U+200A,
    U+2028, U+2029, U+202F, U+205F, U+3000 and U+FEFF. *)
Definition is_space (a : Ascii.ascii) : bool :=
  let n := Ascii.nat_of_ascii a in
  (Nat.leb 9 n && Nat.leb n 13) || Nat.eqb n 32.

(** U+00A0 is the two bytes C2 A0. *)
Definition is_space2 (a b : Ascii.ascii) : bool :=
  Nat.eqb (Ascii.nat_of_ascii a) 194 && Nat.eqb (Ascii.nat_of_ascii b) 160.

(** The white space of three bytes: E1 9A 80; E2 80 80 to E2 80 8A, E2 80 A8,
    E2 80 A9, E2 80 AF; E2 81 9F; E3 80 80; EF BB BF. *)
Definition is_space3 (a b c : Ascii.ascii) : bool :=
  let x := Ascii.nat_of_ascii a in
  let y := Ascii.nat_of_ascii b in
  let z := Ascii.nat_of_ascii c in
  (Nat.eqb x 225 && Nat.eqb y 154 && Nat.eqb z 128)
  || (Nat.eqb x 226 && Nat.eqb y 128
      && ((Nat.leb 128 z && Nat.leb z 138) || Nat.eqb z 168 || Nat.eqb z 169
          || Nat.eqb z 175))
  || (Nat.eqb x 226 && Nat.eqb y 129 && Nat.eqb z 159)
  || (Nat.eqb x 227 && Nat.eqb y 128 && Nat.eqb z 128)
  || (Nat.eqb x 239 && Nat.eqb y 187 && Nat.eqb z 191).

(** The white space at the start of a string is dropped; with [backwards]
    the string is read from its end, each character with its bytes in the
    reverse order. *)
Fixpoint trim_start (backwards : bool) (s : string) : string :=
  match s with
  | String a s1 =>
      if is_space a then trim_start backwards s1
      else
        match s1 with
        | String b s2 =>
            if (if backwards then is_space2 b a else is_space2 a b)
            then trim_start backwards s2
            else
              match s2 with
              | String c s3 =>
                  if (if backwards then is_space3 c b a else is_space3 a b c)
                  then trim_start backwards s3
                  else s
              | EmptyString => s
              end
        | EmptyString => s
        end
  | EmptyString => EmptyString
  end.

Definition trim (s : string) : string :=
  String.rev (trim_start true (String.rev (trim_start false s))).

(** What the hook returns. *)
Record HookResult := {
  hr_connect : M World unit;
  hr_disconnect : M World unit;
  hr_isConnected : bool;
  hr_socket : bool;                    (* false for null *)
  hr_users : option (list string);
}.

(** Modelled from the spec: useMySocket.ts is not among the sources; it owns
    the transport, and its [connect] and [disconnect] open and close it. *)
Definition useMySocket_connect : M World unit :=
  modify (fun w => set_socket (set_connection true true (socket w)) w).

Definition useMySocket_disconnect : M World unit :=
  modify (fun w =>
    set_socket (set_connection false (socket_present (socket w)) (socket w)) w).

(** One render of the hook followed by its effect. *)
Definition useSyncQueriesExternal (p : Props) : M World HookResult :=
  if blank (trim (deviceId p))
  then throw (ErrorObj ("[" +:+ deviceName p +:+
         "] deviceId is required and must not be empty. This ID must persist across app restarts, especially if you have multiple devices of the same type. If you only have one iOS and one Android device, you can use 'ios' and 'android'."))
  else
    let* w := get in
    effect p >>
    ret {| hr_connect := useMySocket_connect;
           hr_disconnect := useMySocket_disconnect;
           hr_isConnected := isConnected (socket w);
           hr_socket := socket_present (socket w);
           hr_users := None |}.

(** ** index.ts: the exports, chosen by [process.env.NODE_ENV] *)

Record Exports := {
  exp_useSyncQueriesExternal : Props -> M World HookResult;
  exp_setExpoCommandImplementations : PartialImpls -> M World unit;
}.

Definition index_exports (NODE_ENV : option string) : Exports :=
  if negb (bool_decide (NODE_ENV = Some "production")) then
    {| exp_useSyncQueriesExternal := useSyncQueriesExternal;
       exp_setExpoCommandImplementations := setExpoCommandImplementations |}
  else
    (* In production, this becomes a no-op function *)
    {| exp_useSyncQueriesExternal := fun _ =>
         ret {| hr_connect := ret tt;
                hr_disconnect := ret tt;
                hr_isConnected := false;
                hr_socket := false;
                hr_users := Some [] |};
       exp_setExpoCommandImplementations := fun _ => ret tt |}.

(** ** Inbound messages *)

Inductive Inbound :=
| RequestInitialState
| OnlineManager (m : OnlineManagerMessage)
| QueryAction (m : QueryActionMessage)
| AsyncStorageAction (m : AsyncStorageActionMessage)
| RequestAsyncStorage (m : AsyncStorageRequestMessage)
| NetworkMonitoringAction (m : NetworkMonitoringActionMessage)
| RequestNetworkMonitoring (m : NetworkRequestMessage)
| ExpoCommandAction (m : ExpoCommandActionMessage)
| RequestExpoDevToolsStatus (m : ExpoDevToolsRequestMessage).

Definition event_of (i : Inbound) : string :=
  match i with
  | RequestInitialState => "request-initial-state"
  | OnlineManager _ => "online-manager"
  | QueryAction _ => "query-action"
  | AsyncStorageAction _ => "async-storage-action"
  | RequestAsyncStorage _ => "request-async-storage"
  | NetworkMonitoringAction _ => "network-monitoring-action"
  | RequestNetworkMonitoring _ => "request-network-monitoring"
  | ExpoCommandAction _ => "expo-command-action"
  | RequestExpoDevToolsStatus _ => "request-expo-devtools-status"
  end.

(** The [targetDeviceId] of a message, for those that carry one. *)
Definition target_of (i : Inbound) : option string :=
  match i with
  | RequestInitialState => None
  | OnlineManager m => Some (om_targetDeviceId m)
  | QueryAction m => Some (qa_targetDeviceId m)
  | AsyncStorageAction m => Some (asa_targetDeviceId m)
  | RequestAsyncStorage m => Some (asr_targetDeviceId m)
  | NetworkMonitoringAction m => Some (nma_targetDeviceId m)
  | RequestNetworkMonitoring m => Some (nrm_targetDeviceId m)
  | ExpoCommandAction m => Some (eca_targetDeviceId m)
  | RequestExpoDevToolsStatus m => Some (edr_targetDeviceId m)
  end.

(** The handler the effect installs for each event. *)
Definition handler (p : Props) (i : Inbound) : M World unit :=
  match i with
  | RequestInitialState => initialStateHandler p
  | OnlineManager m => onlineManagerHandler p m
  | QueryAction m => queryActionHandler p m
  | AsyncStorageAction m => asyncStorageActionHandler p m
  | RequestAsyncStorage m => asyncStorageRequestHandler p m
  | NetworkMonitoringAction m => networkMonitoringHandler p m
  | RequestNetworkMonitoring m => networkRequestHandler p m
  | ExpoCommandAction m => expoCommandActionHandler p m
  | RequestExpoDevToolsStatus m => expoDevToolsRequestHandler p m
  end.

(** The socket hands a message to the handler of its event, if one is
    installed. *)
Definition deliver (p : Props) (i : Inbound) : M World unit :=
  let* w := get in
  if bool_decide (event_of i ∈ listeners (socket w))
  then handler p i
  else ret tt.

(** ** Sample data *)

Definition no_runtime : Host := {| global := None; trace := [] |}.

Definition sample_client : Client :=
  {| queries := ∅; mutations := []; online := true; subscriber := None;
     unsubscribe_call := Returns; version := Some "5.59.0";
     online_listeners := fun _ _ _ => [] |}.

Definition sample_socket : Socket :=
  {| isConnected := true; socket_present := true; listeners := [];
     off_call := fun _ => Returns; emitted := [] |}.

Definition sample_monitor : Monitor :=
  {| removeFetchInterceptorRef := None; removeXHRInterceptorRef := None;
     removeWebSocketInterceptorRef := None; taps := []; next_tap := 0;
     dispose_call := fun _ => Returns |}.

Definition sample_world : World :=
  {| host := no_runtime; impls := default_impls; client := sample_client;
     socket := sample_socket; monitor := sample_monitor;
     storage := {| items := ∅; store_call := fun _ => Resolves |}; logs := [];
     now := 1000;
     prevConnectedRef := false |}.

Definition sample_props : Props :=
  {| deviceName := "Pixel"; deviceId := "dev-A"; enableLogs := false;
     asyncStorage := false; networkMonitoring := None |}.

Definition sample_command (type : string) : ExpoCommand :=
  {| cmd_id := "c-1"; cmd_type := type; cmd_status := CmdPending;
     cmd_timestamp := 1000; cmd_deviceId := "dev-A"; cmd_result := None;
     cmd_error := None |}.

(** ** Readings of the registry used in the statements *)

(** The key of [setExpoCommandImplementations] that belongs to a command
    type. *)
Definition key_of (p : PartialImpls) (type : string) : option Impl :=
  if String.eqb type "reload" then reload p
  else if String.eqb type "toggle-inspector" then toggleInspector p
  else if String.eqb type "toggle-performance-monitor"
       then togglePerformanceMonitor p
  else if String.eqb type "toggle-element-inspector"
       then toggleElementInspector p
  else if String.eqb type "clear-cache" then clearCache p
  else if String.eqb type "toggle-remote-debugging" then toggleRemoteDebugging p
  else if String.eqb type "open-dev-menu" then openDevMenu p
  else if String.eqb type "take-screenshot" then takeScreenshot p
  else if String.eqb type "shake-device" then shakeDevice p
  else None.

(** What the [switch] of [executeExpoCommand] runs: the resolved
    implementation, or the [throw] of the default case. *)
Definition invoke (i : Impls) (type : string) : Impl :=
  match resolve i type with
  | Some implementation => implementation
  | None => throw (ErrorObj ("Unknown command type: " +:+ type))
  end.

(** The message [executeExpoCommand] sends for an outcome that settled: none
    for a thrown value that [String] cannot convert. *)
Definition result_message (command : ExpoCommand) (deviceId : string)
  (r : Res unit) : option Emitted :=
  match r with
  | Done _ =>
      Some {| em_event := "expo-command-result";
              em_payload := ExpoCommandResultMessage
                {| cmd_id := cmd_id command; cmd_type := cmd_type command;
                   cmd_status := CmdSuccess;
                   cmd_timestamp := cmd_timestamp command;
                   cmd_deviceId := cmd_deviceId command;
                   cmd_result := cmd_result command;
                   cmd_error := cmd_error command |} deviceId |}
  | Raised e =>
      match error_text e with
      | Some message =>
          Some {| em_event := "expo-command-result";
                  em_payload := ExpoCommandResultMessage
                    {| cmd_id := cmd_id command; cmd_type := cmd_type command;
                       cmd_status := CmdError;
                       cmd_timestamp := cmd_timestamp command;
                       cmd_deviceId := cmd_deviceId command;
                       cmd_result := cmd_result command;
                       cmd_error := Some message |} deviceId |}
      | None => None
      end
  | Stuck => None
  end.

(** Whether the [catch] of [executeExpoCommand] gets through its last log:
    the caught value can be written in a template literal. *)
Definition logged (r : Res unit) : bool :=
  match r with
  | Raised e => has (template_text e)
  | _ => true
  end.

(** [if (supplied) { slot = supplied; }] as a function of the slots. *)
Definition assign_opt (supplied : option Impl) (set : Impl -> Impls -> Impls)
  (i : Impls) : Impls :=
  match supplied with
  | Some f => set f i
  | None => i
  end.





(** ** The nine command types and their fallback chains *)

(** [ExpoCommandType] of expoDevToolsTypes.ts. *)
Inductive ExpoCommandType :=
| Reload
| ToggleInspector
| TogglePerformanceMonitor
| ToggleElementInspector
| ClearCache
| ToggleRemoteDebugging
| OpenDevMenu
| TakeScreenshot
| ShakeDevice.

Definition type_name (c : ExpoCommandType) : string :=
  match c with
  | Reload => "reload"
  | ToggleInspector => "toggle-inspector"
  | TogglePerformanceMonitor => "toggle-performance-monitor"
  | ToggleElementInspector => "toggle-element-inspector"
  | ClearCache => "clear-cache"
  | ToggleRemoteDebugging => "toggle-remote-debugging"
  | OpenDevMenu => "open-dev-menu"
  | TakeScreenshot => "take-screenshot"
  | ShakeDevice => "shake-device"
  end.

Definition default_of (c : ExpoCommandType) : Impl :=
  match c with
  | Reload => executeReload_default
  | ToggleInspector => executeToggleInspector_default
  | TogglePerformanceMonitor => executeTogglePerformanceMonitor_default
  | ToggleElementInspector => executeToggleElementInspector_default
  | ClearCache => executeClearCache_default
  | ToggleRemoteDebugging => executeToggleRemoteDebugging_default
  | OpenDevMenu => executeOpenDevMenu_default
  | TakeScreenshot => executeTakeScreenshot_default
  | ShakeDevice => executeShakeDevice_default
  end.

(** The exported setter of the slot of a command type, and its name. *)
Definition setter_of (c : ExpoCommandType) : Impl -> M World unit :=
  match c with
  | Reload => setReloadImplementation
  | ToggleInspector => setToggleInspectorImplementation
  | TogglePerformanceMonitor => setTogglePerformanceMonitorImplementation
  | ToggleElementInspector => setToggleElementInspectorImplementation
  | ClearCache => setClearCacheImplementation
  | ToggleRemoteDebugging => setToggleRemoteDebuggingImplementation
  | OpenDevMenu => setOpenDevMenuImplementation
  | TakeScreenshot => setTakeScreenshotImplementation
  | ShakeDevice => setShakeDeviceImplementation
  end.

Definition setter_name (c : ExpoCommandType) : string :=
  match c with
  | Reload => "setReloadImplementation"
  | ToggleInspector => "setToggleInspectorImplementation"
  | TogglePerformanceMonitor => "setTogglePerformanceMonitorImplementation"
  | ToggleElementInspector => "setToggleElementInspectorImplementation"
  | ClearCache => "setClearCacheImplementation"
  | ToggleRemoteDebugging => "setToggleRemoteDebuggingImplementation"
  | OpenDevMenu => "setOpenDevMenuImplementation"
  | TakeScreenshot => "setTakeScreenshotImplementation"
  | ShakeDevice => "setShakeDeviceImplementation"
  end.

Definition command_title (c : ExpoCommandType) : string :=
  match c with
  | Reload => "Reload"
  | ToggleInspector => "Toggle inspector"
  | TogglePerformanceMonitor => "Toggle performance monitor"
  | ToggleElementInspector => "Toggle element inspector"
  | ClearCache => "Clear cache"
  | ToggleRemoteDebugging => "Toggle remote debugging"
  | OpenDevMenu => "Open dev menu"
  | TakeScreenshot => "Take screenshot"
  | ShakeDevice => "Shake device"
  end.

(** The text of the notice of a default implementation, split around the
    name of the setter. *)
Definition notice (c : ExpoCommandType) : string :=
  command_title c +:+
  " command received but no implementation found. Override with " +:+
  setter_name c +:+ "() for custom behavior.".

(** The objects a chain reaches through [global.require], when the runtime
    has them. *)
Definition react_native (h : Host) : option ReactNativeT :=
  match global_require h with
  | Some r =>
      match req_react_native r with
      | RequireReturns (Some rn) => Some rn
      | _ => None
      end
  | None => None
  end.

Definition DevSettings_of (h : Host) : option DevSettingsT :=
  member (react_native h) DevSettings.

Definition NativeModules_of (h : Host) : option NativeModulesT :=
  member (react_native h) NativeModules.

Definition DevMenu_of (h : Host) : option DevMenuT :=
  member (NativeModules_of h) DevMenu.

Definition AsyncStorage_of (h : Host) : option AsyncStorageT :=
  match global_require h with
  | Some r =>
      match req_async_storage r with
      | RequireReturns (Some m) => as_default m
      | _ => None
      end
  | None => None
  end.

(** Some native API of the fallback chain of the command is present in the
    runtime. *)
Definition chain_available (c : ExpoCommandType) (h : Host) : bool :=
  match c with
  | Reload =>
      has (global_expo expo_reload h)
      || has (member (DevSettings_of h) ds_reload)
      || has (member (DevMenu_of h) dm_reload)
  | ToggleInspector | ToggleElementInspector =>
      has (member (DevSettings_of h) ds_toggleElementInspector)
      || has (member (DevMenu_of h) dm_toggleElementInspector)
  | TogglePerformanceMonitor =>
      has (member (DevSettings_of h) ds_togglePerformanceMonitor)
      || has (member (DevMenu_of h) dm_togglePerformanceMonitor)
  | ClearCache =>
      has (member (AsyncStorage_of h) as_clear)
      || has (member (member (NativeModules_of h) ImageLoader) il_clearCache)
  | ToggleRemoteDebugging =>
      has (member (DevSettings_of h) ds_setIsDebuggingRemotely)
      || has (member (DevMenu_of h) dm_toggleRemoteDebugging)
  | OpenDevMenu =>
      has (global_expo expo_openDevMenu h)
      || has (member (DevMenu_of h) dm_show)
  | TakeScreenshot =>
      has (member (member (NativeModules_of h) RNScreenshot) sc_takeScreenshot)
  | ShakeDevice =>
      has (member (DevSettings_of h) ds_show)
      || has (member (DevMenu_of h) dm_show)
  end.


(** A runtime with [global.require] and the react-native module, but none
    of the developer APIs. *)
Definition bare_runtime : Host :=
  {| global :=
       Some {| g_expo := None;
               g_require :=
                 Some {| req_react_native :=
                           RequireReturns
                             (Some {| DevSettings :=
                                        Some {| ds_reload := None;
                                                ds_toggleElementInspector := None;
                                                ds_togglePerformanceMonitor := None;
                                                ds_setIsDebuggingRemotely := None;
                                                ds_show := None |};
                                      NativeModules :=
                                        Some {| DevMenu := None;
                                                ImageLoader := None;
                                                RNScreenshot := None |} |});
                         req_async_storage :=
                           RequireThrows (ErrorObj "Cannot find module") |};
               g_devtools_hook := false |};
     trace := [] |}.


(** A cache holding one query with data, observed by the hook. *)
Definition user_options : QueryOptions :=
  {| queryFn := Some (UserFn "fetchTodos"); gcTime := Some 300000%Z;
     other_options := "staleTime: 0" |}.

Definition loaded_state : QueryState :=
  {| st_data := Some "[1,2,3]"; st_dataUpdatedAt := 900; st_error := None;
     st_status := StatusSuccess; st_fetchStatus := Idle; st_fetchMeta := None;
     st_isInvalidated := false |}.

Definition sample_query : Query :=
  {| queryHash := "h1"; queryKey := ["todos"]; state := loaded_state;
     options := user_options; initialState := fresh_state; retryer := None;
     abandoned := []; observers := 1 |}.

Definition cached_world : World :=
  set_client
    {| queries := {["h1" := sample_query]}; mutations := [7]; online := true;
       subscriber := Some sample_props; unsubscribe_call := Returns;
       version := Some "5.59.0"; online_listeners := fun _ _ _ => [] |}
    sample_world.

Definition query_action (action target : string) : QueryActionMessage :=
  {| qa_queryHash := "h1"; qa_queryKey := ["todos"]; qa_data := None;
     qa_action := action; qa_targetDeviceId := target |}.


Definition enable_monitoring (target : string) : NetworkMonitoringActionMessage :=
  {| nma_action := "ACTION-ENABLE-NETWORK-MONITORING";
     nma_targetDeviceId := target |}.

Definition disable_monitoring (target : string) : NetworkMonitoringActionMessage :=
  {| nma_action := "ACTION-DISABLE-NETWORK-MONITORING";
     nma_targetDeviceId := target |}.

(** What [install_if_absent] leaves of the refs and the taps. *)
Definition installed (k : InterceptorKind) (m : Monitor) : Monitor :=
  match get_ref k m with
  | Some _ => m
  | None =>
      let d := {| d_kind := k; d_id := next_tap m |} in
      set_ref k (Some d) (set_taps (taps m ++ [d]) (S (next_tap m)) m)
  end.

(** What [remove_if_present] leaves of the refs and the taps when the
    disposer returns. *)
Definition removed (k : InterceptorKind) (m : Monitor) : Monitor :=
  match get_ref k m with
  | Some d =>
      set_ref k None (set_taps (filter (fun t => t ≠ d) (taps m)) (next_tap m) m)
  | None => m
  end.

(** The number of taps of a kind on the traffic. *)
Definition count_kind (k : InterceptorKind) (l : list Disposer) : nat :=
  length (filter (fun d => d_kind d = k) l).


Definition clear_message (action queryHash target : string) : QueryActionMessage :=
  {| qa_queryHash := queryHash; qa_queryKey := []; qa_data := None;
     qa_action := action; qa_targetDeviceId := target |}.

(** What a handler does to queryClient, whatever else it does. *)
Definition acts (m : M World unit) (F : Client -> Client) : Prop :=
  ∀ w, (m w).1 = Done tt ∧ client (m w).2 = F (client w).

(** ** The steps of the cleanup, in the order of the source *)

Inductive Step :=
| Off (event : string)
| Remove (k : InterceptorKind)
| Unsubscribe.

Definition step_action (s : Step) : M World unit :=
  match s with
  | Off event => subscription_off event
  | Remove k => remove_if_present k
  | Unsubscribe => unsubscribe
  end.

Fixpoint run_steps (l : list Step) : M World unit :=
  match l with
  | [] => ret tt
  | s :: l' =>
      match l' with
      | [] => step_action s
      | _ :: _ => step_action s >> run_steps l'
      end
  end.

Definition teardown_events : list string :=
  [ "query-action"; "request-initial-state"; "online-manager";
    "async-storage-action"; "request-async-storage";
    "network-monitoring-action"; "request-network-monitoring";
    "expo-command-action"; "request-expo-devtools-status" ].

Definition teardown : list Step :=
  (Off <$> teardown_events)
  ++ [ Remove KFetch; Remove KXHR; Remove KWebSocket; Unsubscribe ].

(** A device whose fetch disposer throws, after the effect has installed the
    handlers and the fetch and XHR interceptors. *)
Definition monitoring_props : Props :=
  {| deviceName := "Pixel"; deviceId := "dev-A"; enableLogs := false;
     asyncStorage := false;
     networkMonitoring :=
       Some {| nm_fetch := true; nm_xhr := true; nm_websocket := false |} |}.

Definition faulty_fetch_disposer (k : InterceptorKind) : SyncCall :=
  match k with
  | KFetch => Throws (ErrorObj "fetch was replaced")
  | _ => Returns
  end.

Definition faulty_world : World :=
  (effect monitoring_props
     (set_monitor
        {| removeFetchInterceptorRef := None; removeXHRInterceptorRef := None;
           removeWebSocketInterceptorRef := None; taps := []; next_tap := 0;
           dispose_call := faulty_fetch_disposer |}
        sample_world)).2.

Definition installed_world : World := (effect monitoring_props sample_world).2.


(** ** Forced loading: readings used in the statements *)

Definition loading_message (action queryHash target : string) (key : QueryKey)
  : QueryActionMessage :=
  {| qa_queryHash := queryHash; qa_queryKey := key; qa_data := None;
     qa_action := action; qa_targetDeviceId := target |}.

(** What [on_query] does to queryClient. *)
Definition on_query_client (hash : string)
  (method : Client -> Query -> Query * bool) (c : Client) : Client :=
  match queries c !! hash with
  | Some q => set_queries (<[hash := (method c q).1]> (queries c)) c
  | None => c
  end.

(** A query whose fetch has been issued again with its own options: pending,
    without data.  That fetch is the one in flight; a fetch that was pending
    on an idle query was replaced on the way and stays pending. *)
Definition refetching (isOnline : bool) (q : Query) : Query :=
  {| queryHash := queryHash q; queryKey := queryKey q;
     state :=
       {| st_data := None;
          st_dataUpdatedAt := st_dataUpdatedAt (state q);
          st_error := None;
          st_status := StatusPending;
          st_fetchStatus := if isOnline then Fetching else Paused;
          st_fetchMeta := None;
          st_isInvalidated := st_isInvalidated (state q) |};
     options := options q; initialState := initialState q;
     retryer := Some (options q);
     abandoned := abandoned q
                  ++ (if is_idle (st_fetchStatus (state q))
                      then match retryer q with Some o => [o] | None => [] end
                      else []);
     observers := observers q |}.

(** A query whose fetch was cancelled and whose state was kept. *)
Definition settled (q : Query) : Query :=
  {| queryHash := queryHash q; queryKey := queryKey q;
     state :=
       {| st_data := st_data (state q);
          st_dataUpdatedAt := st_dataUpdatedAt (state q);
          st_error := st_error (state q);
          st_status := st_status (state q);
          st_fetchStatus := Idle;
          st_fetchMeta := None;
          st_isInvalidated := st_isInvalidated (state q) |};
     options := options q; initialState := initialState q;
     retryer := None; abandoned := abandoned q; observers := observers q |}.

(** The query left by ACTION-TRIGGER-LOADING. *)
Definition forced_loading (isOnline : bool) (q : Query) : Query :=
  let q1 := (Query_fetch isOnline false (Some (forced_options (options q))) q).1 in
  {| queryHash := queryHash q1; queryKey := queryKey q1;
     state :=
       {| st_data := None;
          st_dataUpdatedAt := st_dataUpdatedAt (state q1);
          st_error := st_error (state q1);
          st_status := StatusPending;
          st_fetchStatus := st_fetchStatus (state q1);
          st_fetchMeta := Some (stash (st_fetchMeta (state q1)) (options q));
          st_isInvalidated := st_isInvalidated (state q1) |};
     options := options q1; initialState := initialState q1;
     retryer := retryer q1; abandoned := abandoned q1;
     observers := observers q1 |}.


(** Runtimes with some developer APIs. *)
Definition runtime_with (ds : DevSettingsT) (dm : option DevMenuT)
  (storage_clear : option AsyncCall) : Host :=
  {| global :=
       Some {| g_expo := None;
               g_require :=
                 Some {| req_react_native :=
                           RequireReturns
                             (Some {| DevSettings := Some ds;
                                      NativeModules :=
                                        Some {| DevMenu := dm;
                                                ImageLoader := None;
                                                RNScreenshot := None |} |});
                         req_async_storage :=
                           RequireReturns
                             (Some {| as_default :=
                                        Some {| as_clear := storage_clear |} |}) |};
               g_devtools_hook := true |};
     trace := [] |}.

Definition dev_settings (reload show : option SyncCall) : DevSettingsT :=
  {| ds_reload := reload; ds_toggleElementInspector := None;
     ds_togglePerformanceMonitor := None;
     ds_setIsDebuggingRemotely := Some Returns; ds_show := show |}.

Definition dev_menu (reload : option SyncCall) : DevMenuT :=
  {| dm_reload := reload; dm_toggleElementInspector := None;
     dm_togglePerformanceMonitor := None; dm_toggleRemoteDebugging := None;
     dm_show := Some Returns |}.


(** ** Readings of the fallback chains *)

(** The events of a synchronous call. *)
Definition sync_events (api : string) (f : option SyncCall) : list HostEvent :=
  match f with
  | Some _ => [NativeCall api None]
  | None => []
  end.

(** What the default [reload] adds to the trace, from the three APIs of its
    chain. *)
Definition reload_events (h : Host) : list HostEvent :=
  match global_expo expo_reload h with
  | Some Returns => [NativeCall "global.__expo.reload" None]
  | Some (Throws e) =>
      [NativeCall "global.__expo.reload" None;
       ConsoleWarn "Error executing reload command:" e]
  | None =>
      match member (DevSettings_of h) ds_reload with
      | Some Returns => [NativeCall "DevSettings.reload" None]
      | tried =>
          sync_events "DevSettings.reload" tried
          ++ match member (DevMenu_of h) dm_reload with
             | Some Returns => [NativeCall "DevMenu.reload" None]
             | Some (Throws _) =>
                 [NativeCall "DevMenu.reload" None; ConsoleLog (notice Reload)]
             | None => [ConsoleLog (notice Reload)]
             end
      end
  end.

(** The outcome and the events of one awaited step of [clear-cache],
    followed by [rest] when the step is absent or rejects. *)
Definition awaited_step (api done : string) (f : option AsyncCall)
  (rest : Res unit * list HostEvent) : Res unit * list HostEvent :=
  match f with
  | Some Resolves => (Done tt, [NativeCall api None; ConsoleLog done])
  | Some NeverSettles => (Stuck, [NativeCall api None])
  | Some (Rejects _) => (rest.1, NativeCall api None :: rest.2)
  | None => rest
  end.

Definition clear_cache_result (h : Host) : Res unit * list HostEvent :=
  awaited_step "AsyncStorage.clear" "AsyncStorage cache cleared"
    (member (AsyncStorage_of h) as_clear)
    (awaited_step "ImageLoader.clearCache" "Image cache cleared"
       (member (member (NativeModules_of h) ImageLoader) il_clearCache)
       (Done tt, [ConsoleLog (notice ClearCache)])).

(** The calls into the native runtime among the events. *)
Definition is_native (ev : HostEvent) : bool :=
  match ev with NativeCall _ _ => true | _ => false end.

Definition native_calls (l : list HostEvent) : list HostEvent :=
  List.filter is_native l.

(** The defaults that await a native promise. *)
Definition awaits (c : ExpoCommandType) : bool :=
  match c with
  | ClearCache | TakeScreenshot => true
  | _ => false
  end.


(** ** Readings of the registry: objects passed to the setter *)

Definition no_implementations : PartialImpls :=
  {| reload := None; toggleInspector := None; togglePerformanceMonitor := None;
     toggleElementInspector := None; clearCache := None;
     toggleRemoteDebugging := None; openDevMenu := None; takeScreenshot := None;
     shakeDevice := None |}.

(** The object with the key of one command type only. *)
Definition only (c : ExpoCommandType) (f : Impl) : PartialImpls :=
  {| reload := match c with Reload => Some f | _ => None end;
     toggleInspector := match c with ToggleInspector => Some f | _ => None end;
     togglePerformanceMonitor :=
       match c with TogglePerformanceMonitor => Some f | _ => None end;
     toggleElementInspector :=
       match c with ToggleElementInspector => Some f | _ => None end;
     clearCache := match c with ClearCache => Some f | _ => None end;
     toggleRemoteDebugging :=
       match c with ToggleRemoteDebugging => Some f | _ => None end;
     openDevMenu := match c with OpenDevMenu => Some f | _ => None end;
     takeScreenshot := match c with TakeScreenshot => Some f | _ => None end;
     shakeDevice := match c with ShakeDevice => Some f | _ => None end |}.

(** Key by key, the function of the second object where it holds one, else
    what the first object holds. *)
Definition later_wins (o1 o2 : option Impl) : option Impl :=
  match o2 with
  | Some f => Some f
  | None => o1
  end.

(** The two objects combined with [later_wins].  This is the JavaScript
    [{ ...first, ...second }] when no key of [second] holds [undefined]; the
    spread would copy such a key over the function of [first]. *)
Definition combined (first second : PartialImpls) : PartialImpls :=
  {| reload := later_wins (reload first) (reload second);
     toggleInspector :=
       later_wins (toggleInspector first) (toggleInspector second);
     togglePerformanceMonitor :=
       later_wins (togglePerformanceMonitor first)
                  (togglePerformanceMonitor second);
     toggleElementInspector :=
       later_wins (toggleElementInspector first) (toggleElementInspector second);
     clearCache := later_wins (clearCache first) (clearCache second);
     toggleRemoteDebugging :=
       later_wins (toggleRemoteDebugging first) (toggleRemoteDebugging second);
     openDevMenu := later_wins (openDevMenu first) (openDevMenu second);
     takeScreenshot := later_wins (takeScreenshot first) (takeScreenshot second);
     shakeDevice := later_wins (shakeDevice first) (shakeDevice second) |}.


(** ** Readings of the handlers used in the further properties *)


Definition online_action (flag : bool) : string :=
  if flag then "ACTION-ONLINE-MANAGER-ONLINE" else "ACTION-ONLINE-MANAGER-OFFLINE".

(** The actions the query-action handler has a case for. *)
Definition handled_actions : list string :=
  [ "ACTION-CLEAR-MUTATION-CACHE"; "ACTION-CLEAR-QUERY-CACHE";
    "ACTION-DATA-UPDATE"; "ACTION-TRIGGER-ERROR"; "ACTION-RESTORE-ERROR";
    "ACTION-TRIGGER-LOADING"; "ACTION-RESTORE-LOADING"; "ACTION-RESET";
    "ACTION-REMOVE"; "ACTION-REFETCH"; "ACTION-INVALIDATE";
    "ACTION-ONLINE-MANAGER-ONLINE"; "ACTION-ONLINE-MANAGER-OFFLINE" ].

(** The query left by ACTION-TRIGGER-ERROR. *)
Definition forced_error (q : Query) : Query :=
  {| queryHash := queryHash q; queryKey := queryKey q;
     state :=
       {| st_data := st_data (state q);
          st_dataUpdatedAt := st_dataUpdatedAt (state q);
          st_error := Some (ErrorObj "Unknown error from devtools");
          st_status := StatusError;
          st_fetchStatus := st_fetchStatus (state q);
          st_fetchMeta := Some (stash (st_fetchMeta (state q)) (options q));
          st_isInvalidated := st_isInvalidated (state q) |};
     options := options q; initialState := initialState q;
     retryer := retryer q; abandoned := abandoned q;
     observers := observers q |}.


(** What [refetchQueries] and [resetQueries] do to queryClient. *)
Definition refetch_client (filters : Query) (c : Client) : Client :=
  foldl (fun c x =>
           on_query_client (queryHash x)
             (fun c => Query_fetch (online c) true None) c)
        c (filter (fun q => 0 < observers q) (findAll filters c)).

Definition reset_client (filters : Query) (c : Client) : Client :=
  refetch_client filters
    (foldl (fun c x => on_query_client (queryHash x) (fun _ => Query_reset) c)
           c (findAll filters c)).


(** A query whose data was set by hand at a given time. *)
Definition updated (data : string) (at_time : nat) (q : Query) : Query :=
  {| queryHash := queryHash q; queryKey := queryKey q;
     state :=
       {| st_data := Some data;
          st_dataUpdatedAt := at_time;
          st_error := None;
          st_status := StatusSuccess;
          st_fetchStatus := st_fetchStatus (state q);
          st_fetchMeta := st_fetchMeta (state q);
          st_isInvalidated := false |};
     options := options q; initialState := initialState q;
     retryer := retryer q; abandoned := abandoned q;
     observers := observers q |}.

(** The query [setQueryData] builds for a key the cache does not hold. *)
Definition built_query (key : QueryKey) : Query :=
  {| queryHash := hashKey key; queryKey := key; state := fresh_state;
     options := {| queryFn := None; gcTime := None; other_options := "" |};
     initialState := fresh_state; retryer := None; abandoned := [];
     observers := 0 |}.

(** What [setQueryData] does to queryClient. *)
Definition setQueryData_client (key : QueryKey) (data : option string)
  (updatedAt : nat) (c : Client) : Client :=
  match data with
  | None => c
  | Some d =>
      on_query_client (hashKey key) (fun _ => Query_setData d updatedAt)
        match queries c !! hashKey key with
        | Some _ => c
        | None => set_queries (<[hashKey key := built_query key]> (queries c)) c
        end
  end.


(** ** Reading the statements about the store *)

(** The message that carries the whole content of the store of a world. *)
Definition snapshot (p : Props) (w : World) : Emitted :=
  {| em_event := "async-storage-sync";
     em_payload :=
       AsyncStorageSyncMessage (map_to_list (items (storage w))) (now w)
                               (deviceId p) |}.

(** A world whose store holds the given content. *)
Definition with_items (content : gmap string string) (w : World) : World :=
  set_storage (set_items content (storage w)) w.

(** An action message for the store. *)
Definition storage_action (action : string) (key value : option string)
  (target : string) : AsyncStorageActionMessage :=
  {| asa_action := action; asa_targetDeviceId := target;
     asa_key := key; asa_value := value |}.

(** Props with a store passed. *)
Definition storage_props : Props :=
  {| deviceName := deviceName sample_props; deviceId := deviceId sample_props;
     enableLogs := enableLogs sample_props; asyncStorage := true;
     networkMonitoring := networkMonitoring sample_props |}.

(** A world whose store rejects every call. *)
Definition broken_store (e : Thrown) (w : World) : World :=
  set_storage {| items := items (storage w);
                 store_call := fun _ => Rejects e |} w.


(** What reading the whole store does: [getAllKeys], then [getItem] when
    there is a key to read. *)
Definition read_outcome (s : Storage) : AsyncCall :=
  match store_call s GetAllKeys with
  | Resolves =>
      match (map_to_list (items s)).*1 with
      | [] => Resolves
      | _ :: _ => store_call s GetItem
      end
  | other => other
  end.

(** The outcome of [try { await call } catch (error) { log(`... ${error}`) }]:
    a rejection is logged, unless the value rejected with cannot be written in
    the template literal. *)
Definition caught (c : AsyncCall) : Res unit :=
  match c with
  | Resolves => Done tt
  | Rejects e =>
      if has (template_text e) then Done tt else Raised (conversion_error e)
  | NeverSettles => Stuck
  end.

(** Whether [sendAsyncStorageState] gets past its first test. *)
Definition reports (p : Props) (w : World) : bool :=
  asyncStorage p && socket_present (socket w) && negb (blank (deviceId p)).

(** Whether [sendAsyncStorageState] gets as far as sending. *)
Definition sends (p : Props) (w : World) : bool :=
  reports p w && resolves (read_outcome (storage w)).

(** A store whose every call settles, with a value that can be written in a
    template literal when it rejects. *)
Definition printable_store (s : Storage) : Prop :=
  ∀ m, match store_call s m with
       | Resolves => True
       | Rejects e => is_Some (template_text e)
       | NeverSettles => False
       end.

(** An outcome of a handler that the store explains: a return, a suspension
    on a call that never settles, or the TypeError of writing a value the
    store rejected with. *)
Definition explained (s : Storage) (r : Res unit) : Prop :=
  match r with
  | Done _ => True
  | Stuck => ∃ m, store_call s m = NeverSettles
  | Raised e =>
      ∃ m e0, store_call s m = Rejects e0 ∧ template_text e0 = None
              ∧ e = conversion_error e0
  end.


(** An outcome inside the [try] of the store handler that the store
    explains: a return, a suspension on a call that never settles, a value a
    call rejected with, or the TypeError of writing such a value. *)
Definition from_store (s : Storage) (r : Res unit) : Prop :=
  match r with
  | Done _ => True
  | Stuck => ∃ m, store_call s m = NeverSettles
  | Raised e =>
      (∃ m, store_call s m = Rejects e)
      ∨ (∃ m e0, store_call s m = Rejects e0 ∧ template_text e0 = None
                 ∧ e = conversion_error e0)
  end.

(** ** Reading the statements about the effect *)

(** The events the effect registers a handler for, in the order of the
    source. *)
Definition setup_events : list string :=
  [ "request-initial-state"; "online-manager"; "query-action";
    "async-storage-action"; "request-async-storage";
    "network-monitoring-action"; "request-network-monitoring";
    "expo-command-action"; "request-expo-devtools-status" ].

(** What [ref.current = setup(...)] leaves of the refs and the taps: the
    effect does not look at the ref before it writes it. *)
Definition forced (k : InterceptorKind) (m : Monitor) : Monitor :=
  let d := {| d_kind := k; d_id := next_tap m |} in
  set_ref k (Some d) (set_taps (taps m ++ [d]) (S (next_tap m)) m).

(** The monitor after the "Network Monitoring" block of the effect. *)
Definition configured (nm : option NetworkMonitoringOptions) (m : Monitor)
  : Monitor :=
  match nm with
  | None => m
  | Some o =>
      (if nm_websocket o then forced KWebSocket else id)
        ((if nm_xhr o then forced KXHR else id)
           ((if nm_fetch o then forced KFetch else id) m))
  end.

(** Every tap on the traffic was numbered before [next_tap]: what the setups
    keep true. *)
Definition well_numbered (m : Monitor) : Prop :=
  ∀ t, t ∈ taps m → d_id t < next_tap m.

(** The versions of React Query for which [checkVersion] stays silent. *)
Definition tested_version (c : Client) : bool :=
  match version c with
  | Some v => blank v || String.prefix "4" v || String.prefix "5" v
  | None => true
  end.

(** The world of a hook whose socket is not connected. *)
Definition offline_world : World :=
  set_socket (set_connection false true sample_socket) sample_world.


(** ** Reading the statements about the online flag *)

(** What the cache listener of a client sends on one notification. *)
Definition sync_of (c : Client) : list Emitted :=
  match subscriber c with
  | Some p =>
      if blank (deviceId p) then []
      else [{| em_event := "query-sync";
               em_payload :=
                 SyncMessage (Dehydrate c) (online c) (deviceId p) |}]
  | None => []
  end.

(** queryClient after the listeners of onlineManager took the cache through
    the given states, and what the cache listener sent meanwhile. *)
Fixpoint listened (caches : list (gmap string Query)) (c : Client)
  : Client * list Emitted :=
  match caches with
  | [] => (c, [])
  | cache :: rest =>
      let c' := set_queries cache c in
      ((listened rest c').1, sync_of c' ++ (listened rest c').2)
  end.

(** What [onlineManager.setOnline(flag)] does to queryClient, and what is
    sent meanwhile. *)
Definition setOnline_effect (flag : bool) (c : Client) : Client * list Emitted :=
  listened (online_listeners c (online c) flag (queries c)) (set_online flag c).


(** U+00A0 NO-BREAK SPACE, in UTF-8. *)
Definition no_break_space : string :=
  String (Ascii.ascii_of_nat 194) (String (Ascii.ascii_of_nat 160) EmptyString).


(** * Properties *)

(** ** Targeting *)

Lemma shouldProcessMessage_decide t c :
  shouldProcessMessage t c = bool_decide (t = c ∨ t = "All").
Proof.
  unfold shouldProcessMessage.
  destruct (String.eqb_spec t c) as [->|Hne].
  - symmetry. apply bool_decide_eq_true. by left.
  - destruct (String.eqb_spec t "All") as [->|Hall]; simpl.
    + symmetry. apply bool_decide_eq_true. by right.
    + symmetry. apply bool_decide_eq_false. intros [?|?]; contradiction.
Qed.

Lemma shouldProcessMessage_true t c :
  shouldProcessMessage t c = true ↔ t = c ∨ t = "All".
Proof. rewrite shouldProcessMessage_decide. apply bool_decide_eq_true. Qed.

Lemma shouldProcessMessage_other t c :
  t ≠ c → t ≠ "All" → shouldProcessMessage t c = false.
Proof.
  intros H1 H2. rewrite shouldProcessMessage_decide.
  apply bool_decide_eq_false. intros [?|?]; contradiction.
Qed.

(** C4: [shouldProcessMessage] answers true exactly when the target is the
    current device or the broadcast name "All", and false for any other
    target. *)
Theorem shouldProcessMessage_spec (targetDeviceId currentDeviceId : string) :
  (shouldProcessMessage targetDeviceId currentDeviceId = true
   ↔ targetDeviceId = currentDeviceId ∨ targetDeviceId = "All")
  ∧ (shouldProcessMessage targetDeviceId currentDeviceId = false
     ↔ targetDeviceId ≠ currentDeviceId ∧ targetDeviceId ≠ "All").
Proof.
  split; [apply shouldProcessMessage_true|].
  rewrite shouldProcessMessage_decide, bool_decide_eq_false.
  split; [|intros [? ?] [?|?]; contradiction].
  intros Hno. split; intros ?; apply Hno; [by left|by right].
Qed.

Lemma shouldProcessMessage_spec_witness :
  shouldProcessMessage "dev-A" "dev-A" = true
  ∧ shouldProcessMessage "All" "dev-A" = true
  ∧ shouldProcessMessage "dev-B" "dev-A" = false.
Proof.
  split; [|split].
  - apply (proj1 (shouldProcessMessage_spec "dev-A" "dev-A")). by left.
  - apply (proj1 (shouldProcessMessage_spec "All" "dev-A")). by right.
  - apply (proj2 (shouldProcessMessage_spec "dev-B" "dev-A")).
    split; discriminate.
Defined.

(** ** The command registry *)

Lemma set_impls_same w : set_impls (impls w) w = w.
Proof. by destruct w. Qed.

Lemma impls_set_impls i w : impls (set_impls i w) = i.
Proof. done. Qed.

Lemma set_impls_twice i j w : set_impls i (set_impls j w) = set_impls i w.
Proof. done. Qed.

Lemma assign_if_run o set (w : World) :
  assign_if o set w = (Done tt, set_impls (assign_opt o set (impls w)) w).
Proof. destruct o; simpl; [done|]. by rewrite set_impls_same. Qed.

Lemma assign_opt_all p i :
  assign_opt (shakeDevice p) set_executeShakeDevice
    (assign_opt (takeScreenshot p) set_executeTakeScreenshot
    (assign_opt (openDevMenu p) set_executeOpenDevMenu
    (assign_opt (toggleRemoteDebugging p) set_executeToggleRemoteDebugging
    (assign_opt (clearCache p) set_executeClearCache
    (assign_opt (toggleElementInspector p) set_executeToggleElementInspector
    (assign_opt (togglePerformanceMonitor p) set_executeTogglePerformanceMonitor
    (assign_opt (toggleInspector p) set_executeToggleInspector
    (assign_opt (reload p) set_executeReload i))))))))
  = {| executeReload := default (executeReload i) (reload p);
       executeToggleInspector :=
         default (executeToggleInspector i) (toggleInspector p);
       executeTogglePerformanceMonitor :=
         default (executeTogglePerformanceMonitor i) (togglePerformanceMonitor p);
       executeToggleElementInspector :=
         default (executeToggleElementInspector i) (toggleElementInspector p);
       executeClearCache := default (executeClearCache i) (clearCache p);
       executeToggleRemoteDebugging :=
         default (executeToggleRemoteDebugging i) (toggleRemoteDebugging p);
       executeOpenDevMenu := default (executeOpenDevMenu i) (openDevMenu p);
       executeTakeScreenshot :=
         default (executeTakeScreenshot i) (takeScreenshot p);
       executeShakeDevice := default (executeShakeDevice i) (shakeDevice p) |}.
Proof.
  destruct i, p as [o1 o2 o3 o4 o5 o6 o7 o8 o9]. cbn -[assign_opt].
  destruct o1; cbn; destruct o2; cbn; destruct o3; cbn; destruct o4; cbn;
    destruct o5; cbn; destruct o6; cbn; destruct o7; cbn; destruct o8; cbn;
    destruct o9; reflexivity.
Qed.

Lemma setExpoCommandImplementations_run p w :
  setExpoCommandImplementations p w
  = (Done tt,
     set_impls
       {| executeReload := default (executeReload (impls w)) (reload p);
          executeToggleInspector :=
            default (executeToggleInspector (impls w)) (toggleInspector p);
          executeTogglePerformanceMonitor :=
            default (executeTogglePerformanceMonitor (impls w))
                    (togglePerformanceMonitor p);
          executeToggleElementInspector :=
            default (executeToggleElementInspector (impls w))
                    (toggleElementInspector p);
          executeClearCache := default (executeClearCache (impls w)) (clearCache p);
          executeToggleRemoteDebugging :=
            default (executeToggleRemoteDebugging (impls w))
                    (toggleRemoteDebugging p);
          executeOpenDevMenu :=
            default (executeOpenDevMenu (impls w)) (openDevMenu p);
          executeTakeScreenshot :=
            default (executeTakeScreenshot (impls w)) (takeScreenshot p);
          executeShakeDevice :=
            default (executeShakeDevice (impls w)) (shakeDevice p) |} w).
Proof.
  unfold setExpoCommandImplementations, bind.
  repeat (rewrite assign_if_run; cbv beta iota;
          rewrite ?impls_set_impls, ?set_impls_twice).
  by rewrite assign_opt_all.
Qed.

Lemma resolve_after_set p w type :
  resolve (impls (setExpoCommandImplementations p w).2) type
  = match key_of p type with
    | Some f => Some f
    | None => resolve (impls w) type
    end.
Proof.
  rewrite setExpoCommandImplementations_run. cbn [fst snd].
  unfold resolve, key_of.
  repeat (destruct (String.eqb type _);
          [match goal with |- context [default _ ?o] => by destruct o end|]).
  done.
Qed.

(** C6: after [setExpoCommandImplementations], the implementation dispatched
    for a command type is the supplied function when the key of that type is
    supplied, and the previous one (default or earlier override) when it is
    absent; nothing else of the device changes. *)
Theorem setExpoCommandImplementations_per_entry (p : PartialImpls) (w : World)
  (type : string) :
  let w' := (setExpoCommandImplementations p w).2 in
  (setExpoCommandImplementations p w).1 = Done tt
  ∧ resolve (impls w') type
    = match key_of p type with
      | Some f => Some f
      | None => resolve (impls w) type
      end
  ∧ set_impls (impls w) w' = w.
Proof.
  cbv zeta. split; [by rewrite setExpoCommandImplementations_run|].
  split; [apply resolve_after_set|].
  rewrite setExpoCommandImplementations_run. by destruct w.
Qed.

(** Overriding [reload] alone: reload runs the override, every other type
    is dispatched as before. *)
Lemma override_reload_only f w type :
  let w' := (setExpoCommandImplementations
               {| reload := Some f; toggleInspector := None;
                  togglePerformanceMonitor := None;
                  toggleElementInspector := None; clearCache := None;
                  toggleRemoteDebugging := None; openDevMenu := None;
                  takeScreenshot := None; shakeDevice := None |} w).2 in
  resolve (impls w') "reload" = Some f
  ∧ (type ≠ "reload" → resolve (impls w') type = resolve (impls w) type).
Proof.
  intros w'. subst w'. split.
  - by rewrite resolve_after_set.
  - intros Hne. rewrite resolve_after_set.
    unfold key_of. destruct (String.eqb_spec type "reload"); [done|].
    simpl. by repeat destruct (String.eqb type _).
Qed.

(** ** Command execution *)

Lemma executeExpoCommand_settled command deviceId enableLogs w m :
  result_message command deviceId
    (invoke (impls w) (cmd_type command) (host w)).1 = Some m →
  logged (invoke (impls w) (cmd_type command) (host w)).1 = true →
  (executeExpoCommand command deviceId enableLogs w).1 = Done tt
  ∧ emitted (socket (executeExpoCommand command deviceId enableLogs w).2)
    = emitted (socket w) ++ [m].
Proof.
  unfold executeExpoCommand, invoke, bind, try_catch, log, emit, modify, get,
    lift_host, throw, render, ret.
  cbv beta iota. cbn [impls set_logs].
  destruct (resolve (impls w) (cmd_type command)) as [f|].
  - cbn [host set_logs]. destruct (f (host w)) as [[[]|e|] h]; cbn;
      try (intros Hm; inversion Hm; subst; done).
    destruct e; cbn; intros Hm Hl; inversion Hm; subst; done.
  - cbn. intros Hm; inversion Hm; subst; done.
Qed.






(** ** Default implementations *)

Ltac split_host h :=
  destruct h as [[[[ex|] [[rn st]|] hook]|] tr].

Ltac case_scrutinee :=
  match goal with
  | |- context [match ?x with _ => _ end] =>
      lazymatch x with
      | context [match _ with _ => _ end] => fail
      | _ => destruct x eqn:?
      end
  end.

Ltac run_chain :=
  cbv [default_of executeReload_default executeToggleInspector_default
       executeTogglePerformanceMonitor_default
       executeToggleElementInspector_default executeClearCache_default
       executeToggleRemoteDebugging_default executeOpenDevMenu_default
       executeTakeScreenshot_default executeShakeDevice_default
       chain_available has member DevSettings_of NativeModules_of DevMenu_of
       AsyncStorage_of react_native global_expo global_require
       unless_returned probe use_sync use_await call_sync call_await
       get_DevSettings get_NativeModules get_AsyncStorage require_react_native
       console_log console_warn emit_host try_catch bind ret get modify throw
       stuck global trace g_expo g_require req_react_native req_async_storage
       orb notice];
  repeat (first [ case_scrutinee
                | progress cbn [global trace g_expo g_require
                    req_react_native req_async_storage orb] ]);
  first [ intros H; discriminate H | intros _; reflexivity
        | intros _; exfalso; congruence ].

Lemma default_without_native_api c h :
  chain_available c h = false →
  default_of c h
  = (Done tt, {| global := global h; trace := trace h ++ [ConsoleLog (notice c)] |}).
Proof.
  destruct c; split_host h; run_chain.
Qed.

Lemma executeExpoCommand_host command deviceId enableLogs w :
  host (executeExpoCommand command deviceId enableLogs w).2
  = (invoke (impls w) (cmd_type command) (host w)).2.
Proof.
  unfold executeExpoCommand, invoke, bind, try_catch, log, emit, modify, get,
    lift_host, throw, render, ret.
  cbv beta iota. cbn [impls set_logs].
  destruct (resolve (impls w) (cmd_type command)) as [f|].
  - cbn [host set_logs]. destruct (f (host w)) as [[[]|e|] h]; cbn;
      first [done | destruct e; cbn; done].
  - cbn. done.
Qed.

Lemma executeExpoCommand_unknown_type command deviceId enableLogs w :
  resolve (impls w) (cmd_type command) = None →
  (executeExpoCommand command deviceId enableLogs w).1 = Done tt
  ∧ emitted (socket (executeExpoCommand command deviceId enableLogs w).2)
    = emitted (socket w)
      ++ [{| em_event := "expo-command-result";
             em_payload := ExpoCommandResultMessage
               {| cmd_id := cmd_id command; cmd_type := cmd_type command;
                  cmd_status := CmdError;
                  cmd_timestamp := cmd_timestamp command;
                  cmd_deviceId := cmd_deviceId command;
                  cmd_result := cmd_result command;
                  cmd_error :=
                    Some ("Unknown command type: " +:+ cmd_type command) |}
               deviceId |}].
Proof.
  intros Hnone. apply executeExpoCommand_settled;
    unfold invoke; by rewrite Hnone.
Qed.

Lemma setter_of_sets c f w :
  resolve (impls (setter_of c f w).2) (type_name c) = Some f.
Proof. by destruct c. Qed.

(** C8: when no native API of its fallback chain is present in the runtime,
    a default implementation writes one informational notice, which names
    the setter of its slot, and returns normally; executing the command with
    that default then sends a result with status success. *)
Theorem default_noop_is_success (c : ExpoCommandType) (command : ExpoCommand)
  (deviceId : string) (enableLogs : bool) (w : World) :
  chain_available c (host w) = false →
  cmd_type command = type_name c →
  resolve (impls w) (type_name c) = Some (default_of c) →
  let run := executeExpoCommand command deviceId enableLogs w in
  default_of c (host w)
  = (Done tt, {| global := global (host w);
                 trace := trace (host w) ++ [ConsoleLog (notice c)] |})
  ∧ notice c = command_title c +:+
      " command received but no implementation found. Override with " +:+
      setter_name c +:+ "() for custom behavior."
  ∧ (∀ f w0, resolve (impls (setter_of c f w0).2) (type_name c) = Some f)
  ∧ run.1 = Done tt
  ∧ trace (host run.2) = trace (host w) ++ [ConsoleLog (notice c)]
  ∧ emitted (socket run.2)
    = emitted (socket w)
      ++ [{| em_event := "expo-command-result";
             em_payload := ExpoCommandResultMessage
               {| cmd_id := cmd_id command; cmd_type := cmd_type command;
                  cmd_status := CmdSuccess;
                  cmd_timestamp := cmd_timestamp command;
                  cmd_deviceId := cmd_deviceId command;
                  cmd_result := cmd_result command;
                  cmd_error := cmd_error command |} deviceId |}].
Proof.
  intros Hnone Htype Hdefault run.
  pose proof (default_without_native_api c (host w) Hnone) as Hrun.
  assert (invoke (impls w) (cmd_type command) (host w)
          = (Done tt, {| global := global (host w);
                         trace := trace (host w) ++ [ConsoleLog (notice c)] |}))
    as Hinv.
  { unfold invoke. by rewrite Htype, Hdefault. }
  split; [done|]. split; [done|]. split; [apply setter_of_sets|].
  subst run.
  destruct (executeExpoCommand_settled command deviceId enableLogs w
              {| em_event := "expo-command-result";
                 em_payload := ExpoCommandResultMessage
                   {| cmd_id := cmd_id command; cmd_type := cmd_type command;
                      cmd_status := CmdSuccess;
                      cmd_timestamp := cmd_timestamp command;
                      cmd_deviceId := cmd_deviceId command;
                      cmd_result := cmd_result command;
                      cmd_error := cmd_error command |} deviceId |})
    as [Hr He].
  { by rewrite Hinv. }
  { by rewrite Hinv. }
  split; [done|]. split; [|done].
  by rewrite executeExpoCommand_host, Hinv.
Qed.

Lemma default_noop_is_success_witness :
  let w := set_host bare_runtime sample_world in
  let run := executeExpoCommand (sample_command "reload") "dev-A" false w in
  executeReload_default bare_runtime
  = (Done tt, {| global := global bare_runtime;
                 trace := [ConsoleLog (notice Reload)] |})
  ∧ run.1 = Done tt
  ∧ trace (host run.2) = [ConsoleLog (notice Reload)]
  ∧ emitted (socket run.2)
    = [{| em_event := "expo-command-result";
          em_payload := ExpoCommandResultMessage
            {| cmd_id := "c-1"; cmd_type := "reload"; cmd_status := CmdSuccess;
               cmd_timestamp := 1000; cmd_deviceId := "dev-A";
               cmd_result := None; cmd_error := None |} "dev-A" |}].
Proof.
  intros w run.
  destruct (default_noop_is_success Reload (sample_command "reload") "dev-A"
              false (set_host bare_runtime sample_world))
    as (H1 & _ & _ & H2 & H3 & H4); [reflexivity..|].
  repeat split; assumption.
Defined.

(** ** Dropping messages addressed to another device *)

Lemma set_logs_same w : set_logs (logs w) w = w.
Proof. by destruct w. Qed.

Lemma set_logs_twice l l' w : set_logs l (set_logs l' w) = set_logs l w.
Proof. done. Qed.

Lemma blank_true s : blank s = true ↔ s = "".
Proof. unfold blank. apply String.eqb_eq. Qed.

(** The common entry of the targeted handlers. *)
Lemma guard_drops (p : Props) (t : string) (body : M World unit) (w : World)
  (warning : string) :
  t ≠ deviceId p → t ≠ "All" →
  let run :=
    (if blank (deviceId p)
     then log warning (enableLogs p) LevelWarn
     else if negb (shouldProcessMessage t (deviceId p)) then ret tt
     else body) w in
  run.1 = Done tt
  ∧ set_logs (logs w) run.2 = w
  ∧ (deviceId p ≠ "" → run = (Done tt, w)).
Proof.
  intros H1 H2. cbv zeta.
  rewrite (shouldProcessMessage_other _ _ H1 H2).
  destruct (blank (deviceId p)) eqn:Hb; cbn.
  - split; [done|]. split; [by destruct w|].
    intros Hne. by apply blank_true in Hb.
  - split; [done|]. split; [by destruct w|done].
Qed.

Lemma handler_drops (p : Props) (i : Inbound) (t : string) (w : World) :
  target_of i = Some t → t ≠ deviceId p → t ≠ "All" →
  (handler p i w).1 = Done tt
  ∧ set_logs (logs w) (handler p i w).2 = w
  ∧ (deviceId p ≠ "" → handler p i w = (Done tt, w)).
Proof.
  intros Ht H1 H2.
  destruct i as [|m|m|m|m|m|m|m|m]; cbn in Ht; try discriminate;
    injection Ht as <-; cbn [handler];
    eapply guard_drops; eassumption.
Qed.

(** C3: a message whose [targetDeviceId] is neither the id of this device
    nor "All" is dropped by the handler of its event (online-manager,
    query-action, both async-storage events, both network-monitoring events,
    both expo events) before anything is done: the handler returns, and the
    cache, the store, the interceptors, the registry, the runtime and the
    messages sent are what they were (the whole device is, log included, for
    a device with an id). *)
Theorem untargeted_message_dropped (p : Props) (i : Inbound) (t : string)
  (w : World) :
  target_of i = Some t → t ≠ deviceId p → t ≠ "All" →
  let run := handler p i w in
  run.1 = Done tt
  ∧ set_logs (logs w) run.2 = w
  ∧ (deviceId p ≠ "" → run = (Done tt, w))
  ∧ queries (client run.2) = queries (client w)
  ∧ emitted (socket run.2) = emitted (socket w).
Proof.
  intros Ht H1 H2 run.
  destruct (handler_drops p i t w Ht H1 H2) as (Hr & Hw & Hid).
  split; [done|]. split; [done|]. split; [done|].
  pose proof (f_equal client Hw) as Hc. pose proof (f_equal socket Hw) as Hs.
  cbn in Hc, Hs. fold run in Hc, Hs. by rewrite Hc, Hs.
Qed.

Lemma untargeted_message_dropped_witness :
  let run := handler sample_props (QueryAction (query_action "ACTION-REMOVE" "dev-B"))
               cached_world in
  run.1 = Done tt
  ∧ set_logs (logs cached_world) run.2 = cached_world
  ∧ (deviceId sample_props ≠ "" → run = (Done tt, cached_world))
  ∧ queries (client run.2) = queries (client cached_world)
  ∧ emitted (socket run.2) = emitted (socket cached_world).
Proof.
  apply (untargeted_message_dropped sample_props
           (QueryAction (query_action "ACTION-REMOVE" "dev-B")) "dev-B"
           cached_world).
  - reflexivity.
  - discriminate.
  - discriminate.
Defined.

(** The runtime is not entered either: no command is invoked. *)
Lemma untargeted_message_frame p i t w :
  target_of i = Some t → t ≠ deviceId p → t ≠ "All" →
  trace (host (handler p i w).2) = trace (host w)
  ∧ monitor (handler p i w).2 = monitor w
  ∧ storage (handler p i w).2 = storage w.
Proof.
  intros Ht H1 H2.
  destruct (handler_drops p i t w Ht H1 H2) as (_ & Hw & _).
  pose proof (f_equal host Hw) as Hh. pose proof (f_equal monitor Hw) as Hm.
  pose proof (f_equal storage Hw) as Hst. cbn in Hh, Hm, Hst.
  by rewrite Hh, Hm, Hst.
Qed.

(** The same holds for a message handed over by the socket. *)
Lemma untargeted_delivery_dropped p i t w :
  target_of i = Some t → t ≠ deviceId p → t ≠ "All" →
  (deliver p i w).1 = Done tt ∧ set_logs (logs w) (deliver p i w).2 = w.
Proof.
  intros Ht H1 H2. unfold deliver, bind, get. cbv beta iota.
  destruct (bool_decide _); [|split; [done|apply set_logs_same]].
  destruct (handler_drops p i t w Ht H1 H2) as (Hr & Hw & _). done.
Qed.

(** The same message addressed to this device is acted on: the query is
    removed and the change is sent to the dashboard. *)
Example targeted_remove_is_applied :
  let run := handler sample_props (QueryAction (query_action "ACTION-REMOVE" "dev-A"))
               cached_world in
  queries (client run.2) = ∅
  ∧ emitted (socket run.2)
    = [{| em_event := "query-sync";
          em_payload := SyncMessage {| dh_mutations := [7]; dh_queries := [] |}
                          true "dev-A" |}].
Proof. vm_compute. done. Qed.

(** ** Network monitoring *)

Lemma count_kind_app k l1 l2 :
  count_kind k (l1 ++ l2) = count_kind k l1 + count_kind k l2.
Proof. unfold count_kind. by rewrite filter_app, length_app. Qed.

Lemma remove_if_present_absent k w :
  get_ref k (monitor w) = None → remove_if_present k w = (Done tt, w).
Proof.
  intros H. unfold remove_if_present, bind, get. cbv beta iota. by rewrite H.
Qed.

Lemma log_bind {A} msg en lvl (k : M World A) w :
  bind (log msg en lvl) (fun _ => k) w
  = k (set_logs (logs w ++ [{| lc_message := msg; lc_enabled := en;
                               lc_level := lvl |}]) w).
Proof. done. Qed.

Lemma install_if_absent_run k w :
  install_if_absent k w = (Done tt, set_monitor (installed k (monitor w)) w).
Proof.
  unfold install_if_absent, installed, bind, get. cbv beta iota.
  destruct (get_ref k (monitor w)); [by destruct w|done].
Qed.

Lemma enable_run p t w :
  blank (deviceId p) = false →
  shouldProcessMessage t (deviceId p) = true →
  (networkMonitoringHandler p (enable_monitoring t) w).1 = Done tt
  ∧ monitor (networkMonitoringHandler p (enable_monitoring t) w).2
    = installed KWebSocket (installed KXHR (installed KFetch (monitor w))).
Proof.
  intros Hid Htarget. unfold networkMonitoringHandler.
  cbn [nma_action nma_targetDeviceId enable_monitoring].
  rewrite Hid, Htarget.
  change (String.eqb "ACTION-ENABLE-NETWORK-MONITORING"
            "ACTION-ENABLE-NETWORK-MONITORING") with true.
  cbn [negb]. cbv beta iota. rewrite !log_bind. unfold bind.
  repeat (rewrite install_if_absent_run; cbv beta iota).
  done.
Qed.

Lemma installed_twice m :
  let e := fun m => installed KWebSocket (installed KXHR (installed KFetch m)) in
  e (e m) = e m
  ∧ (∀ k, is_Some (get_ref k (e m)))
  ∧ (∀ k, count_kind k (taps (e m))
          = count_kind k (taps m)
            + match get_ref k m with Some _ => 0 | None => 1 end).
Proof.
  destruct m as [rf rx rw tp nx dc]. cbv zeta.
  split; [by destruct rf, rx, rw|].
  split; [intros k; by destruct rf, rx, rw, k|].
  intros k. unfold count_kind.
  destruct rf, rx, rw; cbn; rewrite ?filter_app, ?length_app; destruct k;
    cbn; repeat case_decide; simplify_eq; cbn; lia.
Qed.

Lemma disable_nothing p t w :
  blank (deviceId p) = false →
  shouldProcessMessage t (deviceId p) = true →
  (∀ k, get_ref k (monitor w) = None) →
  (networkMonitoringHandler p (disable_monitoring t) w).1 = Done tt
  ∧ set_logs (logs w) (networkMonitoringHandler p (disable_monitoring t) w).2 = w.
Proof.
  intros Hid Htarget Hnone. unfold networkMonitoringHandler.
  cbn [nma_action nma_targetDeviceId disable_monitoring].
  rewrite Hid, Htarget.
  change (String.eqb "ACTION-DISABLE-NETWORK-MONITORING"
            "ACTION-ENABLE-NETWORK-MONITORING") with false.
  change (String.eqb "ACTION-DISABLE-NETWORK-MONITORING"
            "ACTION-DISABLE-NETWORK-MONITORING") with true.
  cbn [negb]. cbv beta iota. rewrite !log_bind. unfold bind.
  repeat (rewrite remove_if_present_absent by apply Hnone; cbv beta iota).
  split; [done|]. by destruct w.
Qed.

(** C5: for a message that passes the targeting check, enabling network
    monitoring a second time installs nothing (refs, taps and counter are
    those left by the first), after which every kind has a tracked disposer;
    over both, each kind gains one tap if it had no tracked disposer and none
    otherwise, so exactly one per kind from a state without interceptors.
    Disabling a kind without a tracked disposer does nothing and does not
    throw. *)
Theorem network_monitoring_idempotent (p : Props) (t : string) (w : World) :
  blank (deviceId p) = false →
  shouldProcessMessage t (deviceId p) = true →
  let once := networkMonitoringHandler p (enable_monitoring t) w in
  let twice := networkMonitoringHandler p (enable_monitoring t) once.2 in
  let off := networkMonitoringHandler p (disable_monitoring t) w in
  once.1 = Done tt ∧ twice.1 = Done tt
  ∧ monitor twice.2 = monitor once.2
  ∧ (∀ k, is_Some (get_ref k (monitor twice.2)))
  ∧ (∀ k, count_kind k (taps (monitor twice.2))
          = count_kind k (taps (monitor w))
            + match get_ref k (monitor w) with Some _ => 0 | None => 1 end)
  ∧ (∀ k w0, get_ref k (monitor w0) = None →
             remove_if_present k w0 = (Done tt, w0))
  ∧ ((∀ k, get_ref k (monitor w) = None) →
     off.1 = Done tt ∧ set_logs (logs w) off.2 = w).
Proof.
  intros Hid Htarget once twice off.
  destruct (enable_run p t w Hid Htarget) as [Hr1 Hm1].
  destruct (enable_run p t once.2 Hid Htarget) as [Hr2 Hm2].
  destruct (installed_twice (monitor w)) as (Hsame & Hrefs & Hcount).
  fold once in Hr1, Hm1. fold twice in Hr2, Hm2.
  assert (monitor twice.2 = monitor once.2) as Heq.
  { rewrite Hm2, Hm1. exact Hsame. }
  split; [done|]. split; [done|]. split; [done|].
  split; [intros k; rewrite Heq, Hm1; apply Hrefs|].
  split; [intros k; rewrite Heq, Hm1; apply Hcount|].
  split; [intros k w0; apply remove_if_present_absent|].
  intros Hnone. by apply disable_nothing.
Qed.

Lemma network_monitoring_idempotent_witness :
  let once := networkMonitoringHandler sample_props (enable_monitoring "All")
                sample_world in
  let twice := networkMonitoringHandler sample_props (enable_monitoring "All")
                 once.2 in
  monitor twice.2 = monitor once.2
  ∧ (∀ k, count_kind k (taps (monitor twice.2)) = 1).
Proof.
  destruct (network_monitoring_idempotent sample_props "All" sample_world)
    as (_ & _ & Hsame & _ & Hcount & _); [reflexivity..|].
  split; [exact Hsame|].
  intros k. rewrite (Hcount k). by destruct k.
Defined.

(** What the two messages do once the check is passed. *)
Example enable_installs_three :
  let once := networkMonitoringHandler sample_props (enable_monitoring "dev-A")
                sample_world in
  taps (monitor once.2)
  = [ {| d_kind := KFetch; d_id := 0 |}; {| d_kind := KXHR; d_id := 1 |};
      {| d_kind := KWebSocket; d_id := 2 |} ]
  ∧ removeFetchInterceptorRef (monitor once.2)
    = Some {| d_kind := KFetch; d_id := 0 |}
  ∧ taps (monitor (networkMonitoringHandler sample_props
                     (disable_monitoring "dev-A") once.2).2) = [].
Proof. vm_compute. done. Qed.

(** ** Query actions: the two clears and the lookup *)


Lemma acts_ret : acts (ret tt) id.
Proof. done. Qed.

Lemma acts_log msg en lvl : acts (log msg en lvl) id.
Proof. done. Qed.

Lemma acts_emit ev pl : acts (emit ev pl) id.
Proof. done. Qed.

Lemma acts_bind m1 m2 F1 F2 :
  acts m1 F1 → acts m2 F2 → acts (m1 >> m2) (F2 ∘ F1).
Proof.
  intros H1 H2 w. unfold bind.
  destruct (H1 w) as [Hr Hc]. destruct (m1 w) as [[[]|e|] w1]; try done.
  cbn in Hc. destruct (H2 w1) as [Hr2 Hc2]. split; [done|].
  rewrite Hc2. cbn. by rewrite Hc.
Qed.

Lemma acts_ext m F G : acts m F → (∀ c, F c = G c) → acts m G.
Proof. intros H HFG w. destruct (H w) as [? ?]. split; [done|]. by rewrite <- HFG. Qed.

Lemma acts_notify : acts notify id.
Proof.
  intros w. unfold notify, bind, get. cbv beta iota.
  destruct (subscriber (client w)) as [p|]; [|done].
  unfold cache_listener. destruct (blank (deviceId p)); done.
Qed.








Example clear_query_cache_ignores_hash :
  let run := queryActionHandler sample_props
               (clear_message "ACTION-CLEAR-QUERY-CACHE" "h9" "dev-A")
               cached_world in
  queries (client run.2) = ∅ ∧ length (emitted (socket run.2)) = 1.
Proof. vm_compute. done. Qed.

(** ** Teardown *)

Lemma bind_ret_r {S} (m : M S unit) (s : S) : (m >> ret tt) s = m s.
Proof. unfold bind, ret. by destruct (m s) as [[[]|e|] s']. Qed.

Ltac simpl_world :=
  cbn [fst snd host impls client socket monitor storage logs now
       prevConnectedRef version set_prevConnectedRef set_host set_impls set_client set_socket set_monitor set_storage
       set_logs queries mutations online subscriber unsubscribe_call
       set_queries set_mutations set_online set_subscriber
       isConnected socket_present listeners off_call emitted
       set_listeners set_emitted set_connection
       removeFetchInterceptorRef removeXHRInterceptorRef
       removeWebSocketInterceptorRef taps next_tap dispose_call
       get_ref set_ref set_taps items store_call set_items].

Lemma bind_done {S A B} (m : M S A) (k : A -> M S B) s a s' :
  m s = (Done a, s') → bind m k s = k a s'.
Proof. intros H. unfold bind. by rewrite H. Qed.

Lemma run_steps_cons s l w :
  run_steps (s :: l) w = (step_action s >> run_steps l) w.
Proof. destruct l; [|done]. cbn [run_steps]. by rewrite bind_ret_r. Qed.

Lemma cleanup_is_teardown p :
  cleanup p
  = (log (logPrefix p +:+ " Cleaning up event listeners") (enableLogs p) LevelLog
     >> run_steps teardown).
Proof. reflexivity. Qed.

(** The first step that throws ends the run with its exception; the steps
    after it are not run. *)
Lemma run_steps_first_throw l1 s l2 w w1 e w2 :
  run_steps l1 w = (Done tt, w1) →
  step_action s w1 = (Raised e, w2) →
  run_steps (l1 ++ s :: l2) w = (Raised e, w2).
Proof.
  revert w. induction l1 as [|s1 l1 IH]; intros w Hdone Hthrow.
  - cbn in Hdone. injection Hdone as <-. cbn [app].
    rewrite run_steps_cons. unfold bind. by rewrite Hthrow.
  - cbn [app]. rewrite run_steps_cons in Hdone |- *. unfold bind in *.
    destruct (step_action s1 w) as [[[]|e1|] w'] eqn:Hs1; try discriminate.
    by apply IH.
Qed.

Lemma subscription_off_run e w :
  off_call (socket w) e = Returns →
  subscription_off e w
  = (Done tt, set_socket (set_listeners [] (socket w)) w).
Proof.
  intros H. unfold subscription_off, bind, get. cbv beta iota. by rewrite H.
Qed.

Lemma remove_if_present_run k w :
  (∀ k, dispose_call (monitor w) k = Returns) →
  remove_if_present k w = (Done tt, set_monitor (removed k (monitor w)) w).
Proof.
  intros H. unfold remove_if_present, removed, dispose, write_ref, bind, get,
    modify.
  cbv beta iota. destruct (get_ref k (monitor w)) as [d|]; [|by destruct w].
  cbv beta iota. by rewrite H.
Qed.

Lemma unsubscribe_run w :
  unsubscribe_call (client w) = Returns →
  unsubscribe w = (Done tt, set_client (set_subscriber None (client w)) w).
Proof. intros H. unfold unsubscribe, bind, get. cbv beta iota. by rewrite H. Qed.

Lemma dispose_call_removed k m : dispose_call (removed k m) = dispose_call m.
Proof. unfold removed. by destruct (get_ref k m). Qed.

Lemma cleanup_run p w :
  (∀ e, off_call (socket w) e = Returns) →
  (∀ k, dispose_call (monitor w) k = Returns) →
  unsubscribe_call (client w) = Returns →
  cleanup p w
  = (Done tt,
     set_client (set_subscriber None (client w))
       (set_monitor
          (removed KWebSocket (removed KXHR (removed KFetch (monitor w))))
          (set_socket
             (set_listeners [] (socket w))
             (set_logs
                (logs w ++
                 [{| lc_message := logPrefix p +:+ " Cleaning up event listeners";
                     lc_enabled := enableLogs p; lc_level := LevelLog |}])
                w)))).
Proof.
  intros Hoff Hdispose Hunsub.
  destruct w as [h i c [ic sp ls oc em] m st l n pc].
  cbn in Hoff, Hdispose, Hunsub.
  unfold cleanup. rewrite log_bind. simpl_world.
  repeat (erewrite bind_done by (apply subscription_off_run; apply Hoff);
          simpl_world).
  erewrite bind_done by (apply remove_if_present_run; apply Hdispose).
  simpl_world.
  erewrite bind_done
    by (apply remove_if_present_run; intros k; simpl_world;
        rewrite dispose_call_removed; apply Hdispose).
  simpl_world.
  erewrite bind_done
    by (apply remove_if_present_run; intros k; simpl_world;
        rewrite !dispose_call_removed; apply Hdispose).
  simpl_world.
  rewrite unsubscribe_run by apply Hunsub.
  reflexivity.
Qed.

Lemma removed_all m :
  let m' := removed KWebSocket (removed KXHR (removed KFetch m)) in
  (∀ k, get_ref k m' = None)
  ∧ (∀ k d, get_ref k m = Some d → d ∉ taps m').
Proof.
  destruct m as [rf rx rw tp nx dc]. cbv zeta. split.
  - intros k. by destruct rf, rx, rw, k.
  - intros k d Hd.
    destruct rf, rx, rw, k; cbn in Hd |- *; try discriminate;
      injection Hd as ->; rewrite ?list_elem_of_filter; tauto.
Qed.

(** C9 (amended): the cleanup calls [off] on the nine subscriptions, then the
    tracked disposers (fetch, XHR, WebSocket), then [unsubscribe], in that
    order.  When none of these calls throws, one pass leaves no handler of
    the nine events, no tracked disposer and none of their taps, and no cache
    listener.  A call that throws ends the cleanup: the exception leaves it
    and the steps after that call are not run. *)
Theorem cleanup_one_pass (p : Props) (w : World) :
  let started :=
    (log (logPrefix p +:+ " Cleaning up event listeners") (enableLogs p)
         LevelLog w).2 in
  ((∀ e, off_call (socket w) e = Returns) →
   (∀ k, dispose_call (monitor w) k = Returns) →
   unsubscribe_call (client w) = Returns →
   (cleanup p w).1 = Done tt
   ∧ (∀ e, e ∈ teardown_events → e ∉ listeners (socket (cleanup p w).2))
   ∧ (∀ k, get_ref k (monitor (cleanup p w).2) = None)
   ∧ (∀ k d, get_ref k (monitor w) = Some d →
             d ∉ taps (monitor (cleanup p w).2))
   ∧ subscriber (client (cleanup p w).2) = None)
  ∧ (∀ l1 s l2 w1 e w2,
       teardown = l1 ++ s :: l2 →
       run_steps l1 started = (Done tt, w1) →
       step_action s w1 = (Raised e, w2) →
       cleanup p w = (Raised e, w2)).
Proof.
  cbv zeta. split.
  - intros Hoff Hdispose Hunsub.
    rewrite (cleanup_run p w Hoff Hdispose Hunsub). cbn [fst snd].
    destruct (removed_all (monitor w)) as [Hrefs Htaps].
    split; [done|]. split; [|split; [exact Hrefs|split; [exact Htaps|done]]].
    intros e He. simpl_world. apply not_elem_of_nil.
  - intros l1 s l2 w1 e w2 Hsplit Hdone Hthrow.
    rewrite cleanup_is_teardown, log_bind, Hsplit.
    by apply run_steps_first_throw with (w1 := w1).
Qed.

Lemma cleanup_one_pass_witness :
  (cleanup monitoring_props installed_world).1 = Done tt
  ∧ listeners (socket (cleanup monitoring_props installed_world).2) = []
  ∧ taps (monitor (cleanup monitoring_props installed_world).2) = []
  ∧ (cleanup monitoring_props faulty_world).1
    = Raised (ErrorObj "fetch was replaced").
Proof.
  destruct (cleanup_one_pass monitoring_props installed_world) as [Hok _].
  destruct Hok as (Hr & _); [done..|].
  destruct (cleanup_one_pass monitoring_props faulty_world) as [_ Hthrow].
  split; [exact Hr|]. split; [by vm_compute|]. split; [by vm_compute|].
  erewrite (Hthrow
              [ Off "query-action"; Off "request-initial-state";
                Off "online-manager"; Off "async-storage-action";
                Off "request-async-storage"; Off "network-monitoring-action";
                Off "request-network-monitoring"; Off "expo-command-action";
                Off "request-expo-devtools-status" ]
              (Remove KFetch) [Remove KXHR; Remove KWebSocket; Unsubscribe]);
    [reflexivity|reflexivity|by vm_compute|by vm_compute].
Defined.

(** C9 as stated fails: when the fetch disposer throws, the cleanup ends
    there; the XHR disposer, which would have returned, is not called (its
    ref and its tap stay) and the cache listener stays subscribed. *)
Lemma cleanup_stops_at_throwing_disposer :
  let run := cleanup monitoring_props faulty_world in
  removeXHRInterceptorRef (monitor faulty_world)
    = Some {| d_kind := KXHR; d_id := 1 |}
  ∧ dispose_call (monitor faulty_world) KXHR = Returns
  ∧ run.1 = Raised (ErrorObj "fetch was replaced")
  ∧ removeXHRInterceptorRef (monitor run.2) = Some {| d_kind := KXHR; d_id := 1 |}
  ∧ {| d_kind := KXHR; d_id := 1 |} ∈ taps (monitor run.2)
  ∧ subscriber (client run.2) = Some monitoring_props.
Proof.
  vm_compute. repeat split; try reflexivity.
  apply list_elem_of_further, list_elem_of_here.
Qed.

(** ** The production switch *)

(** C10: with [NODE_ENV] equal to "production", the exported hook does
    nothing and returns [isConnected: false] and a null socket (its
    [connect] and [disconnect] do nothing either), and the exported
    [setExpoCommandImplementations] overrides nothing: the device is left as
    it was, whatever the props and the implementations passed. *)
Theorem production_exports_do_nothing (p : Props) (implementations : PartialImpls)
  (w : World) :
  let exports := index_exports (Some "production") in
  (∃ r, exp_useSyncQueriesExternal exports p w = (Done r, w)
        ∧ hr_isConnected r = false
        ∧ hr_socket r = false
        ∧ (∀ w0, hr_connect r w0 = (Done tt, w0))
        ∧ (∀ w0, hr_disconnect r w0 = (Done tt, w0)))
  ∧ exp_setExpoCommandImplementations exports implementations w = (Done tt, w).
Proof.
  cbv zeta. split; [|reflexivity].
  eexists. split; [reflexivity|]. repeat split.
Qed.

(** Outside production the exports are the functions of the library. *)
Lemma development_exports (env : option string) :
  env ≠ Some "production" →
  exp_useSyncQueriesExternal (index_exports env) = useSyncQueriesExternal
  ∧ exp_setExpoCommandImplementations (index_exports env)
    = setExpoCommandImplementations.
Proof.
  intros Hne. unfold index_exports.
  by rewrite (bool_decide_eq_false_2 _ Hne).
Qed.

(** What production leaves out: on a connected device the hook of the
    library installs the nine handlers, the cache listener and the
    interceptors asked for, and refuses a blank device id. *)
Example development_hook_installs :
  let run := exp_useSyncQueriesExternal (index_exports (Some "development"))
               monitoring_props sample_world in
  listeners (socket run.2)
  = [ "request-initial-state"; "online-manager"; "query-action";
      "async-storage-action"; "request-async-storage";
      "network-monitoring-action"; "request-network-monitoring";
      "expo-command-action"; "request-expo-devtools-status" ]
  ∧ subscriber (client run.2) = Some monitoring_props
  ∧ taps (monitor run.2)
    = [ {| d_kind := KFetch; d_id := 0 |}; {| d_kind := KXHR; d_id := 1 |} ].
Proof. vm_compute. done. Qed.

Example development_hook_rejects_blank_id :
  ∃ e, (useSyncQueriesExternal
          {| deviceName := "Pixel"; deviceId := "  "; enableLogs := false;
             asyncStorage := false; networkMonitoring := None |}
          sample_world).1 = Raised e.
Proof. eexists. vm_compute. reflexivity. Qed.

(** ** Forced loading and its restoration *)

Lemma acts_on_query h method : acts (on_query h method) (on_query_client h method).
Proof.
  intros w. unfold on_query, on_query_client, bind, get. cbv beta iota.
  destruct (queries (client w) !! h) as [q|]; [|done].
  destruct (method (client w) q) as [q' notified]. cbn [fst].
  unfold modify. cbv beta iota. destruct notified; cbn [when]; [|done].
  match goal with |- context [notify ?w'] => destruct (acts_notify w') as [Hr Hc] end.
  split; [exact Hr|]. rewrite Hc. done.
Qed.

Lemma on_query_client_hit h method c q :
  queries c !! h = Some q →
  on_query_client h method c = set_queries (<[h := (method c q).1]> (queries c)) c.
Proof. intros H. unfold on_query_client. by rewrite H. Qed.

(** The handler after the targeting check, when the query is found. *)
Lemma queryActionHandler_found p m w q :
  blank (deviceId p) = false →
  shouldProcessMessage (qa_targetDeviceId m) (deviceId p) = true →
  String.eqb (qa_action m) "ACTION-CLEAR-MUTATION-CACHE" = false →
  String.eqb (qa_action m) "ACTION-CLEAR-QUERY-CACHE" = false →
  queries (client w) !! qa_queryHash m = Some q →
  queryActionHandler p m w
  = queryActionSwitch p m q
      (set_logs
         (logs w ++
          [{| lc_message := logPrefix p +:+ " Received query action: " +:+
                            qa_action m +:+ " for query " +:+ qa_queryHash m;
              lc_enabled := enableLogs p; lc_level := LevelLog |}]) w).
Proof.
  intros Hid Htarget H1 H2 Hq. unfold queryActionHandler.
  rewrite Hid, Htarget, H1, H2. cbn [negb]. cbv beta iota.
  rewrite log_bind. unfold bind, get. cbv beta iota. simpl_world.
  by rewrite Hq.
Qed.

Lemma trigger_loading_acts p m q :
  qa_action m = "ACTION-TRIGGER-LOADING" →
  acts (queryActionSwitch p m q)
       (fun c =>
          on_query_client (qa_queryHash m)
            (fun _ q1 =>
               Query_setState (fun s =>
                 {| st_data := None;
                    st_dataUpdatedAt := st_dataUpdatedAt s;
                    st_error := st_error s;
                    st_status := StatusPending;
                    st_fetchStatus := st_fetchStatus s;
                    st_fetchMeta :=
                      Some (stash (st_fetchMeta (state q1)) (options q));
                    st_isInvalidated := st_isInvalidated s |}) q1)
            (on_query_client (qa_queryHash m)
               (fun c => Query_fetch (online c) false
                           (Some (forced_options (options q)))) c)).
Proof.
  intros Ha. unfold queryActionSwitch. rewrite Ha.
  cbn [String.eqb Ascii.eqb Bool.eqb]. cbv beta iota zeta.
  eapply acts_ext.
  - eapply acts_bind; [apply acts_log|].
    eapply acts_bind; apply acts_on_query.
  - done.
Qed.

Lemma restore_loading_acts p m q :
  qa_action m = "ACTION-RESTORE-LOADING" →
  acts (queryActionSwitch p m q)
       (fun c =>
          let c2 :=
            on_query_client (qa_queryHash m)
              (fun _ => Query_setState (fun _ =>
                 {| st_data := st_data (state q);
                    st_dataUpdatedAt := st_dataUpdatedAt (state q);
                    st_error := st_error (state q);
                    st_status := st_status (state q);
                    st_fetchStatus := Idle;
                    st_fetchMeta := None;
                    st_isInvalidated := st_isInvalidated (state q) |}))
              (on_query_client (qa_queryHash m) (fun _ => Query_cancel_silent) c) in
          match st_fetchMeta (state q) ≫= __previousQueryOptions with
          | Some o =>
              on_query_client (qa_queryHash m)
                (fun c => Query_fetch (online c) false (Some o)) c2
          | None => c2
          end).
Proof.
  intros Ha. unfold queryActionSwitch. rewrite Ha.
  cbn [String.eqb Ascii.eqb Bool.eqb]. cbv beta iota zeta.
  destruct (st_fetchMeta (state q) ≫= __previousQueryOptions) as [o|].
  - eapply acts_ext.
    + eapply acts_bind; [apply acts_log|].
      eapply acts_bind; [apply acts_on_query|].
      eapply acts_bind; apply acts_on_query.
    + done.
  - eapply acts_ext.
    + eapply acts_bind; [apply acts_log|].
      eapply acts_bind; [apply acts_on_query|].
      eapply acts_bind; [apply acts_on_query|apply acts_ret].
    + done.
Qed.

Lemma trigger_loading_run p h t key w q :
  blank (deviceId p) = false →
  shouldProcessMessage t (deviceId p) = true →
  queries (client w) !! h = Some q →
  let run := queryActionHandler p
               (loading_message "ACTION-TRIGGER-LOADING" h t key) w in
  run.1 = Done tt
  ∧ client run.2
    = set_queries (<[h := forced_loading (online (client w)) q]> (queries (client w)))
                  (client w).
Proof.
  intros Hid Htarget Hq. cbv zeta.
  rewrite (queryActionHandler_found p
             (loading_message "ACTION-TRIGGER-LOADING" h t key) w q Hid Htarget
             eq_refl eq_refl Hq).
  match goal with |- context [queryActionSwitch p ?m q ?w'] =>
    destruct (trigger_loading_acts p m q eq_refl w') as [Hr Hc] end.
  split; [exact Hr|]. rewrite Hc. simpl_world. cbn [qa_queryHash loading_message].
  rewrite (on_query_client_hit h _ (client w) q Hq).
  erewrite on_query_client_hit by (simpl_world; apply lookup_insert_eq).
  simpl_world. rewrite insert_insert_eq. reflexivity.
Qed.

Lemma restore_loading_run p h t key w q :
  blank (deviceId p) = false →
  shouldProcessMessage t (deviceId p) = true →
  queries (client w) !! h = Some q →
  let run := queryActionHandler p
               (loading_message "ACTION-RESTORE-LOADING" h t key) w in
  run.1 = Done tt
  ∧ client run.2
    = set_queries
        (<[h := match st_fetchMeta (state q) ≫= __previousQueryOptions with
                | Some o =>
                    (Query_fetch (online (client w)) false (Some o) (settled q)).1
                | None => settled q
                end]> (queries (client w)))
        (client w).
Proof.
  intros Hid Htarget Hq. cbv zeta.
  rewrite (queryActionHandler_found p
             (loading_message "ACTION-RESTORE-LOADING" h t key) w q Hid Htarget
             eq_refl eq_refl Hq).
  match goal with |- context [queryActionSwitch p ?m q ?w'] =>
    destruct (restore_loading_acts p m q eq_refl w') as [Hr Hc] end.
  split; [exact Hr|]. rewrite Hc. simpl_world. cbn [qa_queryHash loading_message].
  cbv zeta.
  rewrite (on_query_client_hit h _ (client w) q Hq).
  erewrite (on_query_client_hit h) by (simpl_world; apply lookup_insert_eq).
  simpl_world. rewrite insert_insert_eq.
  destruct (st_fetchMeta (state q) ≫= __previousQueryOptions) as [o|].
  - erewrite (on_query_client_hit h) by (simpl_world; apply lookup_insert_eq).
    simpl_world. rewrite insert_insert_eq. reflexivity.
  - reflexivity.
Qed.

Lemma restore_after_forced_loading isOnline q :
  let q1 := forced_loading isOnline q in
  st_fetchMeta (state q1) ≫= __previousQueryOptions = Some (options q)
  ∧ (Query_fetch isOnline false (Some (options q)) (settled q1)).1
    = refetching isOnline q.
Proof.
  destruct q as [qh qk [d du e s f fm inv] o ini r ab ob].
  unfold forced_loading, Query_fetch. cbn.
  destruct d, f, r; cbn; split; try reflexivity;
    unfold refetching, with_fetch; cbn; rewrite ?app_nil_r; reflexivity.
Qed.

(** C2 (amended): for a query of the cache, ACTION-TRIGGER-LOADING followed
    by ACTION-RESTORE-LOADING (both passing the targeting check) cancels the
    fetch in flight, reinstates the options the query had before the trigger
    and issues a fetch with them, which is then the fetch in flight: of the
    fetches pending afterwards, each is that one or was pending before the
    trigger, so the never-resolving fetch of the trigger is not among them
    (unless the options were the forced ones already).  The status and data
    of before the trigger are not put back: the query is left pending,
    without data, its fetchMeta cleared, and every other query is untouched.
    When no stashed options exist at restore time, the handler cancels the
    fetch in flight, keeps the status and data held at that time, with
    fetchStatus idle and fetchMeta cleared, and issues no fetch. *)
Theorem loading_trigger_then_restore (p : Props) (h t : string) (key : QueryKey)
  (w : World) (q : Query) :
  blank (deviceId p) = false →
  shouldProcessMessage t (deviceId p) = true →
  queries (client w) !! h = Some q →
  let trigger := queryActionHandler p
                   (loading_message "ACTION-TRIGGER-LOADING" h t key) w in
  let restore := queryActionHandler p
                   (loading_message "ACTION-RESTORE-LOADING" h t key) trigger.2 in
  let alone := queryActionHandler p
                 (loading_message "ACTION-RESTORE-LOADING" h t key) w in
  trigger.1 = Done tt ∧ restore.1 = Done tt
  ∧ queries (client restore.2)
    = <[h := refetching (online (client w)) q]> (queries (client w))
  ∧ (in_flight q = [] →
     ∃ q1, queries (client trigger.2) !! h = Some q1
           ∧ in_flight q1 = [forced_options (options q)])
  ∧ (∀ q2, queries (client restore.2) !! h = Some q2 →
           retryer q2 = Some (options q)
           ∧ (∀ o, o ∈ in_flight q2 → o = options q ∨ o ∈ in_flight q)
           ∧ (in_flight q = [] → in_flight q2 = [options q]))
  ∧ (st_fetchMeta (state q) ≫= __previousQueryOptions = None →
     alone.1 = Done tt
     ∧ queries (client alone.2) = <[h := settled q]> (queries (client w))
     ∧ in_flight (settled q) = abandoned q).
Proof.
  intros Hid Htarget Hq trigger restore alone.
  destruct (trigger_loading_run p h t key w q Hid Htarget Hq) as [Hr1 Hc1].
  fold trigger in Hr1, Hc1.
  assert (queries (client trigger.2) !! h
          = Some (forced_loading (online (client w)) q)) as Hq1.
  { rewrite Hc1. simpl_world. apply lookup_insert_eq. }
  destruct (restore_loading_run p h t key trigger.2 _ Hid Htarget Hq1)
    as [Hr2 Hc2].
  fold restore in Hr2, Hc2.
  destruct (restore_after_forced_loading (online (client w)) q) as [Hstash Hre].
  assert (queries (client restore.2)
          = <[h := refetching (online (client w)) q]> (queries (client w)))
    as Hfinal.
  { rewrite Hc2, Hstash, Hc1. simpl_world. rewrite Hre.
    apply insert_insert_eq. }
  split; [done|]. split; [done|]. split; [exact Hfinal|]. split; [|split].
  - intros Hnone. eexists. split; [exact Hq1|].
    revert Hnone. clear.
    destruct q as [qh qk [d du e s f fm inv] o ini r ab ob].
    unfold in_flight, forced_loading, Query_fetch, with_fetch. cbn.
    destruct ab, r; try discriminate. intros _.
    destruct d, f; cbn; reflexivity.
  - intros q2 Hq2. rewrite Hfinal, lookup_insert_eq in Hq2.
    injection Hq2 as <-. split; [done|].
    unfold in_flight, refetching. cbn [abandoned retryer options].
    split.
    + intros o Ho. apply elem_of_app in Ho as [Ho|Ho];
        [apply elem_of_app in Ho as [Ho|Ho]|]; rewrite elem_of_app.
      * right. by left.
      * right. right. destruct (is_idle _); [done|by apply elem_of_nil in Ho].
      * left. by apply list_elem_of_singleton in Ho.
    + intros Hnone. apply app_eq_nil in Hnone as [-> Hr].
      destruct (retryer q); [discriminate|]. by destruct (is_idle _).
  - intros Hnone.
    destruct (restore_loading_run p h t key w q Hid Htarget Hq) as [Hr3 Hc3].
    fold alone in Hr3, Hc3. split; [done|].
    rewrite Hc3, Hnone. split; [done|].
    unfold in_flight, settled. cbn. apply app_nil_r.
Qed.

Lemma loading_trigger_then_restore_witness :
  let trigger := queryActionHandler sample_props
                   (loading_message "ACTION-TRIGGER-LOADING" "h1" "dev-A"
                      ["todos"]) cached_world in
  let restore := queryActionHandler sample_props
                   (loading_message "ACTION-RESTORE-LOADING" "h1" "dev-A"
                      ["todos"]) trigger.2 in
  queries (client restore.2) = {["h1" := refetching true sample_query]}.
Proof.
  destruct (loading_trigger_then_restore sample_props "h1" "dev-A" ["todos"]
              cached_world sample_query) as (_ & _ & H & _); [reflexivity..|].
  cbv zeta. rewrite H. by vm_compute.
Defined.

(** C2 as stated fails: a query that held data with status success is
    pending and without data after the trigger and the restore. *)
Lemma loading_restore_loses_data :
  let trigger := queryActionHandler sample_props
                   (loading_message "ACTION-TRIGGER-LOADING" "h1" "dev-A"
                      ["todos"]) cached_world in
  let restore := queryActionHandler sample_props
                   (loading_message "ACTION-RESTORE-LOADING" "h1" "dev-A"
                      ["todos"]) trigger.2 in
  (st_status <$> (state <$> queries (client cached_world) !! "h1")
   = Some StatusSuccess
   ∧ (state <$> queries (client cached_world) !! "h1") ≫= st_data
     = Some "[1,2,3]")
  ∧ (st_status <$> (state <$> queries (client restore.2) !! "h1")
     = Some StatusPending
     ∧ (state <$> queries (client restore.2) !! "h1") ≫= st_data = None).
Proof. vm_compute. done. Qed.

(** Between the two messages the query is held in the forced state: pending,
    without data, with the never-resolving fetch in flight and the previous
    options stashed. *)
Example forced_loading_state :
  let trigger := queryActionHandler sample_props
                   (loading_message "ACTION-TRIGGER-LOADING" "h1" "dev-A"
                      ["todos"]) cached_world in
  queries (client trigger.2) !! "h1"
  = Some {| queryHash := "h1"; queryKey := ["todos"];
            state :=
              {| st_data := None; st_dataUpdatedAt := 900; st_error := None;
                 st_status := StatusPending; st_fetchStatus := Fetching;
                 st_fetchMeta :=
                   Some {| fetchMore := None;
                           __previousQueryOptions := Some user_options |};
                 st_isInvalidated := false |};
            options := forced_options user_options;
            initialState := fresh_state;
            retryer := Some (forced_options user_options);
            abandoned := [];
            observers := 1 |}
  ∧ length (emitted (socket trigger.2)) = 2.
Proof. vm_compute. done. Qed.

(** A second trigger before the restore stashes the forced options: the
    restore then issues the never-resolving fetch again. *)
Example second_trigger_stashes_forced_options :
  let trigger := queryActionHandler sample_props
                   (loading_message "ACTION-TRIGGER-LOADING" "h1" "dev-A"
                      ["todos"]) in
  let restore := queryActionHandler sample_props
                   (loading_message "ACTION-RESTORE-LOADING" "h1" "dev-A"
                      ["todos"]) in
  retryer <$> queries (client (restore (trigger (trigger cached_world).2).2).2)
              !! "h1"
  = Some (Some (forced_options user_options)).
Proof. vm_compute. done. Qed.

(** ** The fallback chains on concrete runtimes *)

(** The first API found wins and the later steps are skipped. *)
Example reload_uses_DevSettings :
  executeReload_default
    (runtime_with (dev_settings (Some Returns) None)
                  (Some (dev_menu (Some Returns))) None)
  = (Done tt,
     {| global := global (runtime_with (dev_settings (Some Returns) None)
                            (Some (dev_menu (Some Returns))) None);
        trace := [NativeCall "DevSettings.reload" None] |}).
Proof. reflexivity. Qed.

(** An API that throws is passed over: the chain goes on to the next. *)
Example reload_falls_through_on_throw :
  trace (executeReload_default
           (runtime_with (dev_settings (Some (Throws (ErrorObj "no bridge"))) None)
                         (Some (dev_menu (Some Returns))) None)).2
  = [NativeCall "DevSettings.reload" None; NativeCall "DevMenu.reload" None].
Proof. reflexivity. Qed.

(** [shake-device] uses [DevSettings.show] only next to [DevSettings.reload]. *)
Example shake_needs_reload_for_show :
  trace (executeShakeDevice_default
           (runtime_with (dev_settings None (Some Returns))
                         (Some (dev_menu None)) None)).2
  = [NativeCall "DevMenu.show" None].
Proof. reflexivity. Qed.

Example remote_debugging_toggles_from_hook :
  trace (executeToggleRemoteDebugging_default
           (runtime_with (dev_settings None None) None None)).2
  = [NativeCall "DevSettings.setIsDebuggingRemotely" (Some false)].
Proof. reflexivity. Qed.

(** A default never reports a failure: an exception of the last API ends in
    the notice, and the command is answered with status success. *)
Example default_swallows_native_failure :
  let w := set_host (runtime_with (dev_settings (Some (Throws (ErrorObj "x"))) None)
                                  None None) sample_world in
  let run := executeExpoCommand (sample_command "reload") "dev-A" false w in
  trace (host run.2)
  = [NativeCall "DevSettings.reload" None; ConsoleLog (notice Reload)]
  ∧ (fun m => match em_payload m with
              | ExpoCommandResultMessage c _ => Some (cmd_status c)
              | _ => None
              end) <$> emitted (socket run.2)
    = [Some CmdSuccess].
Proof. vm_compute. done. Qed.

(** An awaited native call that never settles suspends the default, and the
    command with it. *)
Example clear_cache_pending :
  let w := set_host (runtime_with (dev_settings None None) None
                                  (Some NeverSettles)) sample_world in
  let run := executeExpoCommand (sample_command "clear-cache") "dev-A" false w in
  run.1 = Stuck ∧ emitted (socket run.2) = [].
Proof. vm_compute. done. Qed.

(** * Further properties of the code *)

(** ** The fallback chains *)

Ltac unfold_chain :=
  cbv [default_of executeReload_default executeToggleInspector_default
       executeTogglePerformanceMonitor_default
       executeToggleElementInspector_default executeClearCache_default
       executeToggleRemoteDebugging_default executeOpenDevMenu_default
       executeTakeScreenshot_default executeShakeDevice_default
       reload_events clear_cache_result awaited_step sync_events
       has member DevSettings_of NativeModules_of DevMenu_of
       AsyncStorage_of react_native global_expo global_require
       devtools_hook_defined
       unless_returned probe use_sync use_await call_sync call_await
       get_DevSettings get_NativeModules get_AsyncStorage require_react_native
       console_log console_warn emit_host try_catch bind ret get modify throw
       stuck global trace g_expo g_require req_react_native req_async_storage
       g_devtools_hook fst snd orb notice].

Ltac cases_chain :=
  repeat (first [ case_scrutinee
                | progress cbn [global trace g_expo g_require
                    req_react_native req_async_storage g_devtools_hook
                    fst snd orb app] ]).

Ltac close_chain :=
  first [ reflexivity | discriminate | exfalso; congruence
        | simplify_eq; first [reflexivity | by rewrite <- ?app_assoc] ].

Lemma guarded_never_throws (body : M Host unit) (text : string) (h : Host) e :
  (try_catch body (fun error => console_warn text error) h).1 ≠ Raised e.
Proof.
  unfold try_catch. destruct (body h) as [[[]|e'|] h']; cbn; discriminate.
Qed.

(** X1: a default implementation never throws, whatever the runtime holds and
    whatever its APIs do: its outcome is a return or, when an awaited native
    promise never settles, a suspension. *)
Theorem default_never_throws (c : ExpoCommandType) (h : Host) :
  (default_of c h).1 = Done tt ∨ (default_of c h).1 = Stuck.
Proof.
  assert (∀ e, (default_of c h).1 ≠ Raised e) as Hno.
  { intros e. destruct c; apply guarded_never_throws. }
  destruct (default_of c h).1 as [[]|e|]; [by left| |by right].
  by destruct (Hno e).
Qed.

Lemma sync_default_returns c h :
  awaits c = false → (default_of c h).1 = Done tt.
Proof.
  destruct c; try discriminate; intros _; split_host h; unfold_chain;
    cases_chain; close_chain.
Qed.

(** X2: the seven defaults that await nothing (all but clear-cache and
    take-screenshot) always return: with such a default in its slot, one
    invocation of [executeExpoCommand] for that type sends exactly one result
    and its status is success, whatever the runtime holds — an API that
    throws is never reported as an error. *)
Theorem sync_default_always_success (c : ExpoCommandType)
  (command : ExpoCommand) (deviceId : string) (enableLogs : bool) (w : World) :
  awaits c = false →
  cmd_type command = type_name c →
  resolve (impls w) (type_name c) = Some (default_of c) →
  let run := executeExpoCommand command deviceId enableLogs w in
  run.1 = Done tt
  ∧ emitted (socket run.2)
    = emitted (socket w)
      ++ [{| em_event := "expo-command-result";
             em_payload := ExpoCommandResultMessage
               {| cmd_id := cmd_id command; cmd_type := cmd_type command;
                  cmd_status := CmdSuccess;
                  cmd_timestamp := cmd_timestamp command;
                  cmd_deviceId := cmd_deviceId command;
                  cmd_result := cmd_result command;
                  cmd_error := cmd_error command |} deviceId |}].
Proof.
  intros Hsync Htype Hslot run. subst run.
  assert ((invoke (impls w) (cmd_type command) (host w)).1 = Done tt) as Hinv.
  { unfold invoke. rewrite Htype, Hslot. by apply sync_default_returns. }
  apply executeExpoCommand_settled; rewrite Hinv; reflexivity.
Qed.

Lemma sync_default_always_success_witness :
  let w := set_host (runtime_with (dev_settings (Some (Throws (ErrorObj "x"))) None)
                                  None None) sample_world in
  let run := executeExpoCommand (sample_command "reload") "dev-A" false w in
  run.1 = Done tt
  ∧ emitted (socket run.2)
    = [{| em_event := "expo-command-result";
          em_payload := ExpoCommandResultMessage
            {| cmd_id := "c-1"; cmd_type := "reload"; cmd_status := CmdSuccess;
               cmd_timestamp := 1000; cmd_deviceId := "dev-A";
               cmd_result := None; cmd_error := None |} "dev-A" |}].
Proof.
  apply (sync_default_always_success Reload (sample_command "reload") "dev-A"
           false
           (set_host (runtime_with (dev_settings (Some (Throws (ErrorObj "x"))) None)
                                   None None) sample_world));
    reflexivity.
Defined.

(** X3: the order of the default [reload]: [global.__expo.reload] when
    present is the only step (if it throws, a warning is written and nothing
    else is tried); else [DevSettings.reload], then [DevMenu.reload], where a
    step that throws is passed over; the notice is written when no step
    returned.  The call always returns and leaves [global] as it was. *)
Theorem reload_chain_order (h : Host) :
  executeReload_default h
  = (Done tt, {| global := global h; trace := trace h ++ reload_events h |}).
Proof.
  split_host h; unfold_chain; cases_chain; close_chain.
Qed.

(** X4: the default [clear-cache]: when [AsyncStorage.clear] resolves, it is
    the only call and the image cache is not cleared; when it is absent or
    rejects, [ImageLoader.clearCache] is tried; the notice is written when
    neither resolved; a promise that never settles suspends the call. *)
Theorem clear_cache_chain_order (h : Host) :
  executeClearCache_default h
  = ((clear_cache_result h).1,
     {| global := global h; trace := trace h ++ (clear_cache_result h).2 |}).
Proof.
  split_host h; unfold_chain; cases_chain; close_chain.
Qed.

Lemma native_calls_app l1 l2 :
  native_calls (l1 ++ l2) = native_calls l1 ++ native_calls l2.
Proof. apply List.filter_app. Qed.

(** X5: the defaults of [toggle-inspector] and [toggle-element-inspector]
    do the same thing to the runtime: the same outcome and the same native
    calls (both call [toggleElementInspector]); they differ in the text they
    write only. *)
Theorem toggle_inspector_is_element_inspector (h : Host) :
  (executeToggleInspector_default h).1 = (executeToggleElementInspector_default h).1
  ∧ native_calls (trace (executeToggleInspector_default h).2)
    = native_calls (trace (executeToggleElementInspector_default h).2)
  ∧ resolve default_impls "toggle-inspector"
    = Some executeToggleInspector_default
  ∧ resolve default_impls "toggle-element-inspector"
    = Some executeToggleElementInspector_default.
Proof.
  split; [|split; [|done]].
  - split_host h; unfold_chain; cases_chain; close_chain.
  - split_host h; unfold_chain; cases_chain;
      rewrite ?native_calls_app; close_chain.
Qed.

(** X6: the default [shake-device] calls [DevSettings.show] only when
    [DevSettings.reload] is present too: without [DevSettings.reload] it goes
    to [DevMenu.show], and writes the notice if that is absent or throws,
    even when [DevSettings.show] is there. *)
Theorem shake_device_without_reload (h : Host) :
  member (DevSettings_of h) ds_reload = None →
  executeShakeDevice_default h
  = (Done tt,
     {| global := global h;
        trace := trace h
                 ++ match member (DevMenu_of h) dm_show with
                    | Some Returns => [NativeCall "DevMenu.show" None]
                    | Some (Throws _) =>
                        [NativeCall "DevMenu.show" None;
                         ConsoleLog (notice ShakeDevice)]
                    | None => [ConsoleLog (notice ShakeDevice)]
                    end |}).
Proof.
  split_host h; unfold_chain; cases_chain;
    first [ intros H; discriminate H | intros _; close_chain ].
Qed.

Lemma shake_device_without_reload_witness :
  trace (executeShakeDevice_default
           (runtime_with (dev_settings None (Some Returns)) None None)).2
  = [ConsoleLog (notice ShakeDevice)].
Proof.
  rewrite (shake_device_without_reload
             (runtime_with (dev_settings None (Some Returns)) None None));
    reflexivity.
Defined.

(** ** The registry *)

(** X7: the command types [executeExpoCommand] knows are exactly the nine of
    [ExpoCommandType], compared as written: any other string, a different
    case included, gets the result "Unknown command type: ...". *)
Theorem known_types_are_the_nine (i : Impls) (type : string) :
  (is_Some (resolve i type) ↔ ∃ c, type = type_name c)
  ∧ (∀ command deviceId enableLogs w,
       (∀ c, cmd_type command ≠ type_name c) →
       emitted (socket (executeExpoCommand command deviceId enableLogs w).2)
       = emitted (socket w)
         ++ [{| em_event := "expo-command-result";
                em_payload := ExpoCommandResultMessage
                  {| cmd_id := cmd_id command; cmd_type := cmd_type command;
                     cmd_status := CmdError;
                     cmd_timestamp := cmd_timestamp command;
                     cmd_deviceId := cmd_deviceId command;
                     cmd_result := cmd_result command;
                     cmd_error :=
                       Some ("Unknown command type: " +:+ cmd_type command) |}
                  deviceId |}]).
Proof.
  assert (∀ i t, is_Some (resolve i t) ↔ ∃ c, t = type_name c) as Hknown.
  { clear. intros i t. split.
    - unfold resolve.
      repeat (match goal with
              | |- context [String.eqb t ?s] =>
                  destruct (String.eqb_spec t s) as [->|?]
              end;
              [intros _;
               first [by exists Reload | by exists ToggleInspector
                     | by exists TogglePerformanceMonitor
                     | by exists ToggleElementInspector | by exists ClearCache
                     | by exists ToggleRemoteDebugging | by exists OpenDevMenu
                     | by exists TakeScreenshot | by exists ShakeDevice]|]).
      intros [x Hx]. discriminate Hx.
    - intros [c ->]. by destruct c. }
  split; [apply Hknown|].
  intros command deviceId enableLogs w Hnot.
  apply executeExpoCommand_unknown_type.
  destruct (resolve (impls w) (cmd_type command)) eqn:Hr; [|done].
  destruct (proj1 (Hknown (impls w) (cmd_type command))) as [c Hc]; [by rewrite Hr|].
  by destruct (Hnot c).
Qed.

Lemma known_types_are_the_nine_witness :
  emitted (socket (executeExpoCommand (sample_command "Reload") "dev-A" false
                     sample_world).2)
  = [{| em_event := "expo-command-result";
        em_payload := ExpoCommandResultMessage
          {| cmd_id := "c-1"; cmd_type := "Reload"; cmd_status := CmdError;
             cmd_timestamp := 1000; cmd_deviceId := "dev-A";
             cmd_result := None;
             cmd_error := Some "Unknown command type: Reload" |} "dev-A" |}].
Proof.
  apply (proj2 (known_types_are_the_nine default_impls "Reload")
           (sample_command "Reload") "dev-A" false sample_world).
  intros c. by destruct c.
Defined.

Lemma assign_run set f (w : World) :
  assign set f w = (Done tt, set_impls (set f (impls w)) w).
Proof. done. Qed.

(** X8: each single setter ([setReloadImplementation], ...) does what
    [setExpoCommandImplementations] does with the key of its command alone:
    the device is left in the same state. *)
Theorem single_setter_is_one_key (c : ExpoCommandType) (f : Impl) (w : World) :
  setter_of c f w = setExpoCommandImplementations (only c f) w.
Proof.
  rewrite setExpoCommandImplementations_run.
  destruct c; cbn [setter_of]; unfold setReloadImplementation,
    setToggleInspectorImplementation, setTogglePerformanceMonitorImplementation,
    setToggleElementInspectorImplementation, setClearCacheImplementation,
    setToggleRemoteDebuggingImplementation, setOpenDevMenuImplementation,
    setTakeScreenshotImplementation, setShakeDeviceImplementation;
    rewrite assign_run; reflexivity.
Qed.

Lemma later_wins_default (x : Impl) o1 o2 :
  default (default x o1) o2 = default x (later_wins o1 o2).
Proof. by destruct o1, o2. Qed.

(** X9: calls of [setExpoCommandImplementations] compose key by key: two
    calls leave the device as one call does with the object that holds, for
    each key, the function of the second object where it holds one and else
    what the first object holds (a key of the second that is absent or holds
    [undefined] leaves the function of the first in place).  So an empty
    object changes nothing and repeating a call changes nothing more. *)
Theorem setExpoCommandImplementations_composes (p1 p2 : PartialImpls) (w : World) :
  setExpoCommandImplementations p2 (setExpoCommandImplementations p1 w).2
  = setExpoCommandImplementations (combined p1 p2) w
  ∧ setExpoCommandImplementations no_implementations w = (Done tt, w)
  ∧ setExpoCommandImplementations p1 (setExpoCommandImplementations p1 w).2
    = setExpoCommandImplementations p1 w.
Proof.
  assert (∀ p q, setExpoCommandImplementations q
                   (setExpoCommandImplementations p w).2
                 = setExpoCommandImplementations (combined p q) w) as Hcomp.
  { intros p q. rewrite !setExpoCommandImplementations_run.
    cbn [snd impls set_impls executeReload executeToggleInspector
         executeTogglePerformanceMonitor executeToggleElementInspector
         executeClearCache executeToggleRemoteDebugging executeOpenDevMenu
         executeTakeScreenshot executeShakeDevice].
    rewrite !later_wins_default. destruct w; reflexivity. }
  split; [apply Hcomp|]. split.
  - rewrite setExpoCommandImplementations_run. cbn [default no_implementations
      reload toggleInspector togglePerformanceMonitor toggleElementInspector
      clearCache toggleRemoteDebugging openDevMenu takeScreenshot shakeDevice].
    destruct w as [h [] c s m st l n pc]; reflexivity.
  - rewrite Hcomp. f_equal.
    destruct p1 as [[?|] [?|] [?|] [?|] [?|] [?|] [?|] [?|] [?|]]; reflexivity.
Qed.

(** ** Expo commands from the socket *)



(** ** Query actions *)

Lemma emits_nothing_log msg en lvl w :
  emitted (socket (log msg en lvl w).2) = emitted (socket w).
Proof. done. Qed.

Lemma queryActionHandler_missing p m w :
  blank (deviceId p) = false →
  shouldProcessMessage (qa_targetDeviceId m) (deviceId p) = true →
  String.eqb (qa_action m) "ACTION-CLEAR-MUTATION-CACHE" = false →
  String.eqb (qa_action m) "ACTION-CLEAR-QUERY-CACHE" = false →
  queries (client w) !! qa_queryHash m = None →
  client (queryActionHandler p m w).2 = client w
  ∧ emitted (socket (queryActionHandler p m w).2) = emitted (socket w).
Proof.
  intros Hid Htarget H1 H2 Hq. unfold queryActionHandler.
  rewrite Hid, Htarget, H1, H2. cbn [negb]. cbv beta iota.
  rewrite log_bind. unfold bind, get. cbv beta iota. simpl_world.
  by rewrite Hq.
Qed.

Lemma notify_run w :
  (notify w).1 = Done tt
  ∧ client (notify w).2 = client w
  ∧ emitted (socket (notify w).2) = emitted (socket w) ++ sync_of (client w).
Proof.
  unfold notify, sync_of, bind, get. cbv beta iota.
  destruct (subscriber (client w)) as [p|]; [|by rewrite app_nil_r].
  unfold cache_listener. destruct (blank (deviceId p)); [by rewrite app_nil_r|].
  done.
Qed.

Lemma listeners_run caches w :
  let run :=
    for_each caches
      (fun cache =>
         modify (fun w => set_client (set_queries cache (client w)) w) >>
         notify) w in
  run.1 = Done tt
  ∧ client run.2 = (listened caches (client w)).1
  ∧ emitted (socket run.2)
    = emitted (socket w) ++ (listened caches (client w)).2.
Proof.
  revert w. induction caches as [|cache rest IH]; intros w; cbv zeta.
  - cbn. by rewrite app_nil_r.
  - cbn [for_each listened fst snd].
    set (w1 := set_client (set_queries cache (client w)) w).
    destruct (notify_run w1) as (Hr & Hc & He).
    destruct (notify w1) as [[[]|e|] w2] eqn:Hn; try discriminate.
    cbn [fst snd] in Hc, He.
    assert ((modify (fun w => set_client (set_queries cache (client w)) w) >>
             notify) w = (Done tt, w2)) as Hstep by exact Hn.
    rewrite (bind_done _ _ w tt w2 Hstep).
    destruct (IH w2) as (Hr2 & Hc2 & He2).
    rewrite Hr2, Hc2, He2, Hc, He. subst w1. simpl_world.
    by rewrite <- app_assoc.
Qed.

Lemma setOnline_run flag w :
  (setOnline flag w).1 = Done tt
  ∧ client (setOnline flag w).2 = (setOnline_effect flag (client w)).1
  ∧ emitted (socket (setOnline flag w).2)
    = emitted (socket w) ++ (setOnline_effect flag (client w)).2.
Proof.
  remember (setOnline flag w) as r eqn:Hr.
  unfold setOnline in Hr. unfold bind at 1, get at 1 in Hr. cbv beta iota in Hr.
  unfold setOnline_effect.
  rewrite (bind_done _ _ _ tt (set_client (set_online flag (client w)) w))
    in Hr by done.
  subst r. apply listeners_run.
Qed.

Lemma online_switch p m q w :
  ∀ flag, qa_action m = online_action flag →
  (queryActionSwitch p m q w).1 = Done tt
  ∧ client (queryActionSwitch p m q w).2 = (setOnline_effect flag (client w)).1
  ∧ emitted (socket (queryActionSwitch p m q w).2)
    = emitted (socket w) ++ (setOnline_effect flag (client w)).2.
Proof.
  intros flag Ha. unfold queryActionSwitch. rewrite Ha.
  destruct flag; cbn [online_action String.eqb Ascii.eqb Bool.eqb];
    cbv beta iota zeta; rewrite log_bind;
    match goal with |- context [setOnline ?b ?w'] =>
      apply (setOnline_run b w') end.
Qed.

Lemma online_manager_run p flag t w :
  blank (deviceId p) = false →
  shouldProcessMessage t (deviceId p) = true →
  let run := onlineManagerHandler p
               {| om_action := online_action flag; om_targetDeviceId := t |} w in
  run.1 = Done tt
  ∧ client run.2 = (setOnline_effect flag (client w)).1
  ∧ emitted (socket run.2)
    = emitted (socket w) ++ (setOnline_effect flag (client w)).2.
Proof.
  intros Hid Htarget. cbv zeta. unfold onlineManagerHandler.
  cbn [om_action om_targetDeviceId]. rewrite Hid, Htarget.
  destruct flag; cbn [online_action String.eqb Ascii.eqb Bool.eqb negb];
    cbv beta iota zeta; rewrite !log_bind;
    match goal with |- context [setOnline ?b ?w'] =>
      apply (setOnline_run b w') end.
Qed.

Lemma setOnline_effect_flag flag c : online (setOnline_effect flag c).1 = flag.
Proof.
  unfold setOnline_effect.
  assert (∀ caches c', online (listened caches c').1 = online c') as H.
  { induction caches as [|cache rest IH]; intros c'; [done|].
    cbn [listened fst]. by rewrite IH. }
  by rewrite H.
Qed.

(** X11: the online flag has two entries.  An online-manager message calls
    [onlineManager.setOnline]; a query-action message with the same action
    makes the same call, but only when its [queryHash] is that of a cached
    query: then the two leave queryClient in the same state and send the same
    messages, and for an unknown hash nothing is set and nothing is sent.
    After the call the flag has the value asked for; when no listener of
    onlineManager touches the cache on that call, only the flag changes and
    nothing is sent. *)
Theorem online_flag_two_entries (p : Props) (flag : bool) (h t : string)
  (key : QueryKey) (w : World) :
  blank (deviceId p) = false →
  shouldProcessMessage t (deviceId p) = true →
  let by_manager :=
    onlineManagerHandler p
      {| om_action := online_action flag; om_targetDeviceId := t |} w in
  let by_query :=
    queryActionHandler p
      {| qa_queryHash := h; qa_queryKey := key; qa_data := None;
         qa_action := online_action flag; qa_targetDeviceId := t |} w in
  by_manager.1 = Done tt
  ∧ online (client by_manager.2) = flag
  ∧ (is_Some (queries (client w) !! h) →
     by_query.1 = Done tt
     ∧ client by_query.2 = client by_manager.2
     ∧ emitted (socket by_query.2) = emitted (socket by_manager.2))
  ∧ (queries (client w) !! h = None →
     client by_query.2 = client w
     ∧ emitted (socket by_query.2) = emitted (socket w))
  ∧ (online_listeners (client w) (online (client w)) flag (queries (client w))
     = [] →
     client by_manager.2 = set_online flag (client w)
     ∧ emitted (socket by_manager.2) = emitted (socket w)).
Proof.
  intros Hid Htarget. cbv zeta.
  assert (String.eqb (online_action flag) "ACTION-CLEAR-MUTATION-CACHE" = false
          ∧ String.eqb (online_action flag) "ACTION-CLEAR-QUERY-CACHE" = false)
    as [H1 H2] by (by destruct flag).
  destruct (online_manager_run p flag t w Hid Htarget) as (Hr & Hc & He).
  split; [exact Hr|]. rewrite Hc, He.
  split; [apply setOnline_effect_flag|].
  set (msg := {| qa_queryHash := h; qa_queryKey := key; qa_data := None;
                 qa_action := online_action flag; qa_targetDeviceId := t |}).
  split; [|split].
  - intros [q Hq].
    rewrite (queryActionHandler_found p msg w q Hid Htarget H1 H2 Hq).
    match goal with |- context [queryActionSwitch p ?m q ?w'] =>
      destruct (online_switch p m q w' flag eq_refl) as (Hr' & Hc' & He') end.
    by rewrite Hr', Hc', He'.
  - intros Hq.
    apply (queryActionHandler_missing p msg w Hid Htarget H1 H2 Hq).
  - intros Hnone. unfold setOnline_effect. rewrite Hnone.
    cbn [listened fst snd]. by rewrite app_nil_r.
Qed.

Lemma online_flag_two_entries_witness :
  online (client (onlineManagerHandler sample_props
                    {| om_action := online_action false;
                       om_targetDeviceId := "dev-A" |} cached_world).2) = false
  ∧ online (client (queryActionHandler sample_props
                      {| qa_queryHash := "h9"; qa_queryKey := [];
                         qa_data := None; qa_action := online_action false;
                         qa_targetDeviceId := "dev-A" |} cached_world).2) = true.
Proof.
  destruct (online_flag_two_entries sample_props false "h9" "dev-A" []
              cached_world) as (_ & H1 & _ & H2 & _); [reflexivity..|].
  cbv zeta in H1, H2. destruct (H2 eq_refl) as [H3 _].
  split; [exact H1|exact (f_equal online H3)].
Defined.

Lemma not_handled action s :
  action ∉ handled_actions → s ∈ handled_actions → String.eqb action s = false.
Proof.
  intros Hno Hs. apply String.eqb_neq. intros ->. contradiction.
Qed.

(** X12: a query-action message with an action the handler has no case for
    (the "success" of the type, or any other string) does nothing to a
    cached query: the handler logs the receipt and returns, with the device
    otherwise as it was. *)
Theorem unhandled_action_does_nothing (p : Props) (m : QueryActionMessage)
  (q : Query) (w : World) :
  blank (deviceId p) = false →
  shouldProcessMessage (qa_targetDeviceId m) (deviceId p) = true →
  qa_action m ∉ handled_actions →
  queries (client w) !! qa_queryHash m = Some q →
  queryActionHandler p m w
  = (Done tt,
     set_logs
       (logs w ++
        [{| lc_message := logPrefix p +:+ " Received query action: " +:+
                          qa_action m +:+ " for query " +:+ qa_queryHash m;
            lc_enabled := enableLogs p; lc_level := LevelLog |}]) w).
Proof.
  intros Hid Htarget Hno Hq.
  assert (∀ s, s ∈ handled_actions → String.eqb (qa_action m) s = false) as Hs.
  { intros s. by apply not_handled. }
  rewrite (queryActionHandler_found p m w q Hid Htarget); [| | |done].
  - unfold queryActionSwitch.
    rewrite !Hs by (unfold handled_actions; set_solver). reflexivity.
  - apply Hs. unfold handled_actions. set_solver.
  - apply Hs. unfold handled_actions. set_solver.
Qed.

Lemma unhandled_action_does_nothing_witness :
  client (queryActionHandler sample_props (query_action "success" "dev-A")
            cached_world).2 = client cached_world.
Proof.
  rewrite (unhandled_action_does_nothing sample_props
             (query_action "success" "dev-A") sample_query cached_world);
    [reflexivity|reflexivity|reflexivity| |reflexivity].
  unfold handled_actions. cbn. intros H.
  repeat (apply elem_of_cons in H as [H|H]; [discriminate H|]).
  by apply elem_of_nil in H.
Defined.

Lemma trigger_error_acts p m q :
  qa_action m = "ACTION-TRIGGER-ERROR" →
  acts (queryActionSwitch p m q)
       (on_query_client (qa_queryHash m)
          (fun _ q1 =>
             Query_setState (fun s =>
               {| st_data := st_data s;
                  st_dataUpdatedAt := st_dataUpdatedAt s;
                  st_error := Some (ErrorObj "Unknown error from devtools");
                  st_status := StatusError;
                  st_fetchStatus := st_fetchStatus s;
                  st_fetchMeta :=
                    Some (stash (st_fetchMeta (state q1)) (options q));
                  st_isInvalidated := st_isInvalidated s |}) q1)).
Proof.
  intros Ha. unfold queryActionSwitch. rewrite Ha.
  cbn [String.eqb Ascii.eqb Bool.eqb]. cbv beta iota zeta.
  eapply acts_ext.
  - eapply acts_bind; [apply acts_log|apply acts_on_query].
  - done.
Qed.

(** X13: ACTION-TRIGGER-ERROR on a cached query sets its status to error
    with the error "Unknown error from devtools" and stashes its options in
    fetchMeta; unlike the forced loading it keeps the data, starts no fetch
    and leaves the options and the fetch in flight as they were.  Every other
    query is untouched. *)
Theorem trigger_error_keeps_data (p : Props) (m : QueryActionMessage)
  (q : Query) (w : World) :
  blank (deviceId p) = false →
  shouldProcessMessage (qa_targetDeviceId m) (deviceId p) = true →
  qa_action m = "ACTION-TRIGGER-ERROR" →
  queries (client w) !! qa_queryHash m = Some q →
  let run := queryActionHandler p m w in
  run.1 = Done tt
  ∧ queries (client run.2)
    = <[qa_queryHash m := forced_error q]> (queries (client w)).
Proof.
  intros Hid Htarget Ha Hq. cbv zeta.
  rewrite (queryActionHandler_found p m w q Hid Htarget); [| | |done].
  - match goal with |- context [queryActionSwitch p m q ?w'] =>
      destruct (trigger_error_acts p m q Ha w') as [Hr Hc] end.
    split; [exact Hr|]. rewrite Hc. simpl_world.
    rewrite (on_query_client_hit _ _ (client w) q Hq). reflexivity.
  - by rewrite Ha.
  - by rewrite Ha.
Qed.

Lemma trigger_error_keeps_data_witness :
  st_data <$> (state <$> queries (client (queryActionHandler sample_props
                 (query_action "ACTION-TRIGGER-ERROR" "dev-A") cached_world).2)
               !! "h1")
  = Some (Some "[1,2,3]").
Proof.
  destruct (trigger_error_keeps_data sample_props
              (query_action "ACTION-TRIGGER-ERROR" "dev-A") sample_query
              cached_world) as [_ H]; [reflexivity..|].
  cbv zeta in H. rewrite H. reflexivity.
Defined.

Lemma acts_for_each {A} (l : list A) (f : A -> M World unit)
  (G : A -> Client -> Client) :
  (∀ x, acts (f x) (G x)) →
  acts (for_each l f) (fun c => foldl (fun c x => G x c) c l).
Proof.
  intros H. induction l as [|x l IH].
  - done.
  - cbn [for_each foldl]. eapply acts_ext.
    + apply (acts_bind _ _ _ _ (H x) IH).
    + done.
Qed.

Lemma acts_get (k : World -> M World unit) (F : Client -> Client -> Client) :
  (∀ w0, acts (k w0) (F (client w0))) →
  acts (bind get k) (fun c => F c c).
Proof. intros H w. unfold bind, get. cbv beta iota. apply H. Qed.

Lemma refetchQueries_acts filters :
  acts (refetchQueries_active filters) (refetch_client filters).
Proof.
  unfold refetchQueries_active, refetch_client.
  apply (acts_get
           (fun w => for_each (filter (fun q => 0 < observers q)
                                 (findAll filters (client w)))
                       (fun q => on_query (queryHash q)
                                   (fun c => Query_fetch (online c) true None)))
           (fun c0 c =>
              foldl (fun c x =>
                       on_query_client (queryHash x)
                         (fun c => Query_fetch (online c) true None) c)
                    c (filter (fun q => 0 < observers q) (findAll filters c0)))).
  intros w0. apply acts_for_each. intros x. apply acts_on_query.
Qed.

Lemma resetQueries_acts filters : acts (resetQueries filters) (reset_client filters).
Proof.
  unfold resetQueries, reset_client.
  apply (acts_get
           (fun w => for_each (findAll filters (client w))
                       (fun q => on_query (queryHash q) (fun _ => Query_reset))
                     >> refetchQueries_active filters)
           (fun c0 c =>
              refetch_client filters
                (foldl (fun c x =>
                          on_query_client (queryHash x) (fun _ => Query_reset) c)
                       c (findAll filters c0)))).
  intros w0. eapply acts_ext.
  - apply (acts_bind _ _
             (fun c => foldl (fun c x =>
                                on_query_client (queryHash x)
                                  (fun _ => Query_reset) c)
                             c (findAll filters (client w0)))
             (refetch_client filters)).
    + apply acts_for_each. intros x. apply acts_on_query.
    + apply refetchQueries_acts.
  - done.
Qed.

(** X14: ACTION-RESTORE-ERROR and ACTION-RESET are the same operation on the
    cache: both call [resetQueries] on the query found, so the two messages
    leave queryClient in the same state (the stashed options of the forced
    error are not read). *)
Theorem restore_error_is_reset (p : Props) (h t : string) (key : QueryKey)
  (data : option string) (q : Query) (w : World) :
  blank (deviceId p) = false →
  shouldProcessMessage t (deviceId p) = true →
  queries (client w) !! h = Some q →
  let message action :=
    {| qa_queryHash := h; qa_queryKey := key; qa_data := data;
       qa_action := action; qa_targetDeviceId := t |} in
  (queryActionHandler p (message "ACTION-RESTORE-ERROR") w).1 = Done tt
  ∧ (queryActionHandler p (message "ACTION-RESET") w).1 = Done tt
  ∧ client (queryActionHandler p (message "ACTION-RESTORE-ERROR") w).2
    = client (queryActionHandler p (message "ACTION-RESET") w).2.
Proof.
  intros Hid Htarget Hq message.
  pose proof (resetQueries_acts q) as HF. set (F := reset_client q) in *.
  assert (∀ action text,
            queryActionSwitch p (message action) q
            = (log text (enableLogs p) LevelLog >> resetQueries q) →
            ∀ w', (queryActionSwitch p (message action) q w').1 = Done tt
                  ∧ client (queryActionSwitch p (message action) q w').2
                    = F (client w')) as Hsw.
  { intros action text -> w'.
    destruct (acts_bind _ _ _ _ (acts_log text (enableLogs p) LevelLog) HF w')
      as [Hr Hc]. done. }
  rewrite (queryActionHandler_found p (message "ACTION-RESTORE-ERROR") w q
             Hid Htarget eq_refl eq_refl Hq).
  rewrite (queryActionHandler_found p (message "ACTION-RESET") w q
             Hid Htarget eq_refl eq_refl Hq).
  match goal with |- context [queryActionSwitch p (message "ACTION-RESTORE-ERROR") q ?w1] =>
    destruct (Hsw "ACTION-RESTORE-ERROR" _ eq_refl w1) as [Hr1 Hc1] end.
  match goal with |- context [queryActionSwitch p (message "ACTION-RESET") q ?w2] =>
    destruct (Hsw "ACTION-RESET" _ eq_refl w2) as [Hr2 Hc2] end.
  split; [exact Hr1|]. split; [exact Hr2|]. by rewrite Hc1, Hc2.
Qed.

Lemma restore_error_is_reset_witness :
  client (queryActionHandler sample_props
            (query_action "ACTION-RESTORE-ERROR" "dev-A") cached_world).2
  = client (queryActionHandler sample_props
              (query_action "ACTION-RESET" "dev-A") cached_world).2.
Proof.
  apply (restore_error_is_reset sample_props "h1" "dev-A" ["todos"] None
           sample_query cached_world); reflexivity.
Defined.

Lemma setQueryData_acts key data n :
  acts (setQueryData key data n) (setQueryData_client key data n).
Proof.
  unfold setQueryData, setQueryData_client. destruct data as [d|]; [|done].
  apply (acts_get
           (fun w =>
              match queries (client w) !! hashKey key with
              | Some _ => ret tt
              | None =>
                  modify (fun w =>
                    set_client
                      (set_queries
                         (<[hashKey key := built_query key]> (queries (client w)))
                         (client w)) w) >> notify
              end >> on_query (hashKey key) (fun _ => Query_setData d n))
           (fun c0 c =>
              on_query_client (hashKey key) (fun _ => Query_setData d n)
                match queries c0 !! hashKey key with
                | Some _ => c
                | None =>
                    set_queries (<[hashKey key := built_query key]> (queries c)) c
                end)).
  intros w0.
  apply (acts_bind _ _
           (fun c => match queries (client w0) !! hashKey key with
                     | Some _ => c
                     | None =>
                         set_queries
                           (<[hashKey key := built_query key]> (queries c)) c
                     end)
           (on_query_client (hashKey key) (fun _ => Query_setData d n)));
    [|apply acts_on_query].
  destruct (queries (client w0) !! hashKey key).
  - apply acts_ret.
  - apply (acts_bind _ _
             (fun c => set_queries
                         (<[hashKey key := built_query key]> (queries c)) c)
             id); [|apply acts_notify].
    intros w. split; reflexivity.
Qed.

(** X15: ACTION-DATA-UPDATE writes through [setQueryData] with the
    [queryKey] of the message, not with the query found for its [queryHash].
    Without a data payload nothing is written.  With one, when the key hashes
    to the hash of the message, that query gets the data with status success
    and the time of receipt as update time; when it hashes elsewhere, the
    query found for the hash is not touched and the data goes to the query of
    the key. *)
Theorem data_update_follows_the_key (p : Props) (m : QueryActionMessage)
  (q : Query) (w : World) :
  blank (deviceId p) = false →
  shouldProcessMessage (qa_targetDeviceId m) (deviceId p) = true →
  qa_action m = "ACTION-DATA-UPDATE" →
  queries (client w) !! qa_queryHash m = Some q →
  let run := queryActionHandler p m w in
  run.1 = Done tt
  ∧ (qa_data m = None → client run.2 = client w)
  ∧ (∀ d, qa_data m = Some d →
          hashKey (qa_queryKey m) = qa_queryHash m →
          queries (client run.2)
          = <[qa_queryHash m := updated d (now w) q]> (queries (client w)))
  ∧ (∀ d, qa_data m = Some d →
          hashKey (qa_queryKey m) ≠ qa_queryHash m →
          queries (client run.2) !! qa_queryHash m = Some q
          ∧ ∃ q', queries (client run.2) !! hashKey (qa_queryKey m) = Some q'
                  ∧ st_data (state q') = Some d).
Proof.
  intros Hid Htarget Ha Hq. cbv zeta.
  rewrite (queryActionHandler_found p m w q Hid Htarget); [| | |done];
    [|by rewrite Ha..].
  set (w' := set_logs _ w).
  assert ((queryActionSwitch p m q w').1 = Done tt
          ∧ client (queryActionSwitch p m q w').2
            = setQueryData_client (qa_queryKey m) (qa_data m) (now w) (client w))
    as [Hr Hc].
  { unfold queryActionSwitch. rewrite Ha.
    cbn [String.eqb Ascii.eqb Bool.eqb]. cbv beta iota zeta.
    rewrite log_bind. unfold bind at 1. unfold get at 1. cbv beta iota.
    exact (setQueryData_acts (qa_queryKey m) (qa_data m) (now w) _). }
  split; [exact Hr|]. rewrite Hc. unfold setQueryData_client.
  split; [by intros ->|]. split.
  - intros d -> Hk. rewrite Hk, Hq.
    rewrite (on_query_client_hit _ _ (client w) q Hq). reflexivity.
  - intros d -> Hk.
    destruct (queries (client w) !! hashKey (qa_queryKey m)) as [q0|] eqn:Hq0.
    + rewrite (on_query_client_hit _ _ (client w) q0 Hq0). simpl_world.
      rewrite lookup_insert_ne by done. split; [done|].
      eexists. split; [apply lookup_insert_eq|reflexivity].
    + erewrite on_query_client_hit by (simpl_world; apply lookup_insert_eq).
      simpl_world. rewrite insert_insert_eq.
      rewrite lookup_insert_ne by done. split; [done|].
      eexists. split; [apply lookup_insert_eq|reflexivity].
Qed.

Lemma data_update_follows_the_key_witness :
  queries (client (queryActionHandler sample_props
                     {| qa_queryHash := "h1"; qa_queryKey := ["users"];
                        qa_data := Some "[]"; qa_action := "ACTION-DATA-UPDATE";
                        qa_targetDeviceId := "dev-A" |} cached_world).2) !! "h1"
  = Some sample_query.
Proof.
  destruct (data_update_follows_the_key sample_props
              {| qa_queryHash := "h1"; qa_queryKey := ["users"];
                 qa_data := Some "[]"; qa_action := "ACTION-DATA-UPDATE";
                 qa_targetDeviceId := "dev-A" |} sample_query cached_world)
    as (_ & _ & _ & H); [reflexivity..|].
  destruct (H "[]" eq_refl) as [H1 _]; [by vm_compute|exact H1].
Defined.



(** ** The store handlers *)

Lemma bind_raised {S A B} (m : M S A) (k : A -> M S B) s e s' :
  m s = (Raised e, s') → bind m k s = (Raised e, s').
Proof. intros H. unfold bind. by rewrite H. Qed.

Lemma bind_stuck {S A B} (m : M S A) (k : A -> M S B) s s' :
  m s = (Stuck, s') → bind m k s = (Stuck, s').
Proof. intros H. unfold bind. by rewrite H. Qed.

Lemma try_catch_done {S A} (body : M S A) handler s a :
  (body s).1 = Done a → try_catch body handler s = body s.
Proof. unfold try_catch. by destruct (body s) as [[?|?|] ?]. Qed.

Lemma try_catch_raised {S A} (body : M S A) handler s e s' :
  body s = (Raised e, s') → try_catch body handler s = handler e s'.
Proof. unfold try_catch. by intros ->. Qed.

Lemma try_catch_stuck {S A} (body : M S A) handler s s' :
  body s = (Stuck, s') → try_catch body handler s = (Stuck, s').
Proof. unfold try_catch. by intros ->. Qed.

(** A store that answers every call. *)
Lemma failure_none s : failure s = None → ∀ m, store_call s m = Resolves.
Proof.
  intros H m. unfold failure in H.
  pose proof (List.find_none _ _ H m) as Hm.
  assert (In m [GetAllKeys; GetItem; SetItem; RemoveItem; Clear]) as Hin
    by (destruct m; cbn; tauto).
  specialize (Hm Hin). cbv beta in Hm.
  destruct (store_call s m); cbn in Hm; done.
Qed.

Lemma storage_call_ok {A} method (read : Storage -> A) w :
  store_call (storage w) method = Resolves →
  storage_call method read w = (Done (read (storage w)), w).
Proof. intros H. unfold storage_call, bind, get. cbv beta iota. by rewrite H. Qed.

Lemma storage_call_fails {A} method (read : Storage -> A) w e :
  store_call (storage w) method = Rejects e →
  storage_call method read w = (Raised e, w).
Proof. intros H. unfold storage_call, bind, get. cbv beta iota. by rewrite H. Qed.

Lemma storage_call_pending {A} method (read : Storage -> A) w :
  store_call (storage w) method = NeverSettles →
  storage_call method read w = (Stuck, w).
Proof. intros H. unfold storage_call, bind, get. cbv beta iota. by rewrite H. Qed.

Lemma storage_update_ok method f w :
  store_call (storage w) method = Resolves →
  storage_update method f w = (Done tt, with_items (f (items (storage w))) w).
Proof.
  intros H. unfold storage_update.
  erewrite bind_done by (by apply storage_call_ok). reflexivity.
Qed.

Lemma collect_items_ok keys w :
  store_call (storage w) GetItem = Resolves →
  collect_items keys w
  = (Done ((fun k => (k, default "" (items (storage w) !! k))) <$> keys), w).
Proof.
  intros H. induction keys as [|k keys IH]; [done|].
  cbn [collect_items]. unfold storage_getItem.
  erewrite bind_done by (by apply storage_call_ok).
  erewrite bind_done by exact IH. reflexivity.
Qed.

(** Reading every key of a map gives back its list of entries. *)
Lemma read_all_keys (m : gmap string string) :
  (fun k => (k, default "" (m !! k))) <$> (map_to_list m).*1 = map_to_list m.
Proof.
  rewrite <- list_fmap_compose.
  rewrite <- (list_fmap_id (map_to_list m)) at 2.
  apply list_fmap_ext. intros i [k v] Hin. cbn.
  apply list_elem_of_lookup_2, elem_of_map_to_list in Hin. by rewrite Hin.
Qed.

(** Reading the whole store: [getAllKeys], then [getItem] key by key. *)
Lemma read_all_run {A} (k : list (string * string) -> M World A) w :
  (let* keys := storage_getAllKeys in
   let* items := collect_items keys in
   k items) w
  = match read_outcome (storage w) with
    | Resolves => k (map_to_list (items (storage w))) w
    | Rejects e => (Raised e, w)
    | NeverSettles => (Stuck, w)
    end.
Proof.
  unfold read_outcome, storage_getAllKeys.
  destruct (store_call (storage w) GetAllKeys) as [|e|] eqn:Hkeys.
  - erewrite bind_done by (by apply storage_call_ok).
    destruct ((map_to_list (items (storage w))).*1) as [|key keys] eqn:Hl.
    + cbn [collect_items]. unfold bind, ret. cbv beta iota.
      apply fmap_nil_inv in Hl. by rewrite Hl.
    + destruct (store_call (storage w) GetItem) as [|e|] eqn:Hitem.
      * erewrite bind_done by (by apply collect_items_ok).
        by rewrite <- Hl, read_all_keys.
      * apply bind_raised. cbn [collect_items]. apply bind_raised.
        by apply storage_call_fails.
      * apply bind_stuck. cbn [collect_items]. apply bind_stuck.
        by apply storage_call_pending.
  - apply bind_raised. by apply storage_call_fails.
  - apply bind_stuck. by apply storage_call_pending.
Qed.

(** The [catch] blocks of the store code: the caught value is written in the
    log line, if it can be. *)
Lemma catch_log (msg : string -> string) en e w :
  (let* shown := render template_text e in
   log (msg shown) en LevelError) w
  = match template_text e with
    | Some shown =>
        (Done tt,
         set_logs (logs w ++ [{| lc_message := msg shown; lc_enabled := en;
                                 lc_level := LevelError |}]) w)
    | None => (Raised (conversion_error e), w)
    end.
Proof. unfold render, bind, ret, throw. by destruct (template_text e). Qed.

Lemma sendAsyncStorageState_run p w :
  let run := sendAsyncStorageState p w in
  run.1 = (if reports p w then caught (read_outcome (storage w)) else Done tt)
  ∧ storage run.2 = storage w
  ∧ client run.2 = client w
  ∧ set_emitted (emitted (socket w)) (socket run.2) = socket w
  ∧ emitted (socket run.2)
    = emitted (socket w) ++ (if sends p w then [snapshot p w] else []).
Proof.
  cbv zeta. remember (sendAsyncStorageState p w) as r eqn:Hr.
  unfold sendAsyncStorageState in Hr. unfold bind at 1, get at 1 in Hr.
  cbv beta iota in Hr. unfold sends, reports.
  assert (set_emitted (emitted (socket w)) (socket w) = socket w) as Hsock
    by (by destruct (socket w)).
  destruct (asyncStorage p), (socket_present (socket w)), (blank (deviceId p));
    cbn [negb orb andb] in *; try (subst r; by rewrite app_nil_r).
  unfold try_catch in Hr. rewrite read_all_run in Hr.
  destruct (read_outcome (storage w)) as [|e|]; cbn [resolves caught].
  - subst r. cbn. by destruct (socket w).
  - rewrite catch_log in Hr. unfold caught.
    destruct (template_text e); subst r; cbn; by rewrite app_nil_r.
  - subst r. cbn. by rewrite app_nil_r.
Qed.

(** X16: [sendAsyncStorageState] never writes to the store or to the query
    cache.  When a store was passed, the socket is there and the device id is
    not empty, it reads the whole store ([getAllKeys], then [getItem] for
    each key) and, when these reads resolve, sends one "async-storage-sync"
    message holding every entry of the store, the time and the device id; in
    every other case it sends nothing.  It returns, except in two cases: it
    stays suspended when a read never settles, and it throws the TypeError of
    the conversion when a read rejects with a value that cannot be written in
    the template literal of its [catch]. *)
Theorem snapshot_holds_the_whole_store (p : Props) (w : World) :
  let run := sendAsyncStorageState p w in
  let asked :=
    asyncStorage p && socket_present (socket w) && negb (blank (deviceId p)) in
  storage run.2 = storage w
  ∧ client run.2 = client w
  ∧ emitted (socket run.2)
    = emitted (socket w)
      ++ (if asked && resolves (read_outcome (storage w))
          then [{| em_event := "async-storage-sync";
                   em_payload :=
                     AsyncStorageSyncMessage (map_to_list (items (storage w)))
                                             (now w) (deviceId p) |}]
          else [])
  ∧ run.1 = (if asked then caught (read_outcome (storage w)) else Done tt).
Proof.
  destruct (sendAsyncStorageState_run p w) as (H1 & H2 & H3 & _ & H5).
  cbv zeta. repeat split; done.
Qed.

Lemma truthy_some k : k ≠ "" → truthy (Some k) = Some k.
Proof.
  intros H. unfold truthy. destruct (blank k) eqn:E; [|done].
  by apply blank_true in E.
Qed.

Lemma truthy_none o : (o = None ∨ o = Some "") → truthy o = None.
Proof. by intros [-> | ->]. Qed.

(** A write to the store followed by the report to the dashboard. *)
Lemma write_then_send p method f msg w :
  store_call (storage w) method = Resolves →
  let w1 := with_items (f (items (storage w))) w in
  let run := (storage_update method f >> (log msg (enableLogs p) LevelLog >>
                                          sendAsyncStorageState p)) w in
  run.1 = (if reports p w then caught (read_outcome (storage w1)) else Done tt)
  ∧ storage run.2 = storage w1
  ∧ client run.2 = client w
  ∧ set_emitted (emitted (socket w)) (socket run.2) = socket w
  ∧ emitted (socket run.2)
    = emitted (socket w) ++ (if sends p w1 then [snapshot p w1] else []).
Proof.
  intros Hf. cbv zeta.
  erewrite bind_done by (by apply storage_update_ok).
  rewrite log_bind.
  match goal with |- context [sendAsyncStorageState p ?w'] =>
    destruct (sendAsyncStorageState_run p w') as (H1 & H2 & H3 & H4 & H5) end.
  rewrite H1, H2, H3, H5. split; [done|]. split; [done|]. split; [done|].
  split; [exact H4|done].
Qed.

(** A read of one item followed by the report. *)
Lemma read_then_send p k (msg : option string -> string) w :
  store_call (storage w) GetItem = Resolves →
  let run := (let* value := storage_getItem k in
              log (msg value) (enableLogs p) LevelLog >>
              sendAsyncStorageState p) w in
  run.1 = (if reports p w then caught (read_outcome (storage w)) else Done tt)
  ∧ storage run.2 = storage w
  ∧ client run.2 = client w
  ∧ set_emitted (emitted (socket w)) (socket run.2) = socket w
  ∧ emitted (socket run.2)
    = emitted (socket w) ++ (if sends p w then [snapshot p w] else []).
Proof.
  intros Hf. cbv zeta. unfold storage_getItem.
  erewrite bind_done by (by apply storage_call_ok).
  rewrite log_bind.
  match goal with |- context [sendAsyncStorageState p ?w'] =>
    destruct (sendAsyncStorageState_run p w') as (H1 & H2 & H3 & H4 & H5) end.
  rewrite H1, H2, H3, H5. split; [done|]. split; [done|]. split; [done|].
  split; [exact H4|done].
Qed.

Lemma read_outcome_answers s :
  failure s = None → read_outcome s = Resolves.
Proof.
  intros H. unfold read_outcome.
  rewrite !(failure_none s H). by destruct ((map_to_list (items s)).*1).
Qed.

Ltac enter_storage_handler Hr Hid Htarget :=
  unfold asyncStorageActionHandler in Hr; cbv zeta in Hr;
  rewrite Hid, Htarget in Hr; cbn [negb] in Hr; rewrite log_bind in Hr.

(** X17: a write action with a store that answers.  SET_ITEM with a key
    that is not empty and any value (the empty string too) stores the value
    under the key; REMOVE_ITEM with such a key deletes the key; CLEAR_ALL
    empties the store.  Each time the handler returns and then sends one
    snapshot, which shows the store after the write. *)
Theorem storage_write_then_snapshot (p : Props) (m : AsyncStorageActionMessage)
  (w : World) (f : gmap string string -> gmap string string) :
  blank (deviceId p) = false →
  shouldProcessMessage (asa_targetDeviceId m) (deviceId p) = true →
  asyncStorage p = true →
  socket_present (socket w) = true →
  failure (storage w) = None →
  (∃ k v, asa_action m = "SET_ITEM" ∧ asa_key m = Some k ∧ k ≠ ""
          ∧ asa_value m = Some v ∧ f = insert k v)
  ∨ (∃ k, asa_action m = "REMOVE_ITEM" ∧ asa_key m = Some k ∧ k ≠ ""
          ∧ f = delete k)
  ∨ (asa_action m = "CLEAR_ALL" ∧ f = fun _ => ∅) →
  let run := asyncStorageActionHandler p m w in
  run.1 = Done tt
  ∧ items (storage run.2) = f (items (storage w))
  ∧ emitted (socket run.2)
    = emitted (socket w)
      ++ [{| em_event := "async-storage-sync";
             em_payload :=
               AsyncStorageSyncMessage (map_to_list (f (items (storage w))))
                                       (now w) (deviceId p) |}].
Proof.
  intros Hid Htarget Hst Hsock Hf Hcase. cbv zeta.
  remember (asyncStorageActionHandler p m w) as r eqn:Hr.
  enter_storage_handler Hr Hid Htarget.
  rewrite Hst in Hr.
  match type of Hr with context [set_logs ?l w] => set (w' := set_logs l w) in * end.
  assert (∀ method msg handler,
            r = try_catch
                  (storage_update method f >>
                   (log msg (enableLogs p) LevelLog >> sendAsyncStorageState p))
                  handler w' →
            r.1 = Done tt
            ∧ items (storage r.2) = f (items (storage w))
            ∧ emitted (socket r.2)
              = emitted (socket w)
                ++ [snapshot p (with_items (f (items (storage w))) w)]) as Hrun.
  { intros method msg handler ->.
    destruct (write_then_send p method f msg w' (failure_none _ Hf method))
      as (H1 & H2 & _ & _ & H5).
    assert (reports p w' = true) as Hrep.
    { unfold reports. subst w'. simpl_world. by rewrite Hst, Hsock, Hid. }
    assert (read_outcome (storage (with_items (f (items (storage w'))) w'))
            = Resolves) as Hread.
    { apply read_outcome_answers. subst w'. unfold with_items. simpl_world.
      unfold failure in *. by simpl_world. }
    rewrite Hrep, Hread in H1.
    rewrite (try_catch_done _ _ _ tt) by exact H1.
    rewrite H1, H2, H5. unfold sends. rewrite Hread.
    replace (reports p (with_items (f (items (storage w'))) w')) with true
      by (by rewrite <- Hrep). done. }
  destruct Hcase as [(k & v & Ha & Hk & Hne & Hv & ->)
                    |[(k & Ha & Hk & Hne & ->)|[Ha ->]]];
    rewrite Ha in Hr; cbn [String.eqb Ascii.eqb Bool.eqb] in Hr;
    cbv beta iota in Hr.
  - rewrite Hk, Hv, (truthy_some k Hne) in Hr. by eapply Hrun.
  - rewrite Hk, (truthy_some k Hne) in Hr. by eapply Hrun.
  - by eapply Hrun.
Qed.

Lemma storage_write_then_snapshot_witness :
  items (storage (asyncStorageActionHandler storage_props
                    (storage_action "SET_ITEM" (Some "token") (Some "") "dev-A")
                    (with_items {["token" := "abc"]} sample_world)).2)
  = <["token" := ""]> {["token" := "abc"]}.
Proof.
  refine (proj1 (proj2 (storage_write_then_snapshot storage_props
            (storage_action "SET_ITEM" (Some "token") (Some "") "dev-A")
            (with_items {["token" := "abc"]} sample_world)
            (insert "token" "") _ _ _ _ _ _))); try reflexivity.
  left. exists "token", "". done.
Defined.

(** X18: the two read actions answer alike.  With a store passed whose
    [getAllKeys] and [getItem] resolve, GET_ALL_KEYS and GET_ITEM with a key
    that is not empty return, leave the store as it is and end in the same
    report: the snapshot of the whole store when the socket is there, nothing
    otherwise.  GET_ITEM never sends the one item it read. *)
Theorem storage_read_sends_whole_state (p : Props)
  (m : AsyncStorageActionMessage) (w : World) :
  blank (deviceId p) = false →
  shouldProcessMessage (asa_targetDeviceId m) (deviceId p) = true →
  asyncStorage p = true →
  store_call (storage w) GetAllKeys = Resolves →
  store_call (storage w) GetItem = Resolves →
  asa_action m = "GET_ALL_KEYS"
  ∨ (∃ k, asa_action m = "GET_ITEM" ∧ asa_key m = Some k ∧ k ≠ "") →
  let run := asyncStorageActionHandler p m w in
  run.1 = Done tt
  ∧ storage run.2 = storage w
  ∧ emitted (socket run.2)
    = emitted (socket w)
      ++ (if socket_present (socket w)
          then [{| em_event := "async-storage-sync";
                   em_payload :=
                     AsyncStorageSyncMessage (map_to_list (items (storage w)))
                                             (now w) (deviceId p) |}]
          else []).
Proof.
  intros Hid Htarget Hst Hkeys Hitem Hcase. cbv zeta.
  remember (asyncStorageActionHandler p m w) as r eqn:Hr.
  enter_storage_handler Hr Hid Htarget.
  rewrite Hst in Hr.
  match type of Hr with context [set_logs ?l w] => set (w' := set_logs l w) in * end.
  assert (read_outcome (storage w') = Resolves) as Hread.
  { unfold read_outcome. subst w'. simpl_world. rewrite Hkeys, Hitem.
    by destruct ((map_to_list (items (storage w))).*1). }
  assert (reports p w' = socket_present (socket w)) as Hrep.
  { unfold reports. subst w'. simpl_world. rewrite Hst, Hid. cbn [negb andb].
    by rewrite andb_true_r. }
  assert (sends p w' = socket_present (socket w)) as Hsends.
  { unfold sends. rewrite Hrep, Hread. cbn [resolves]. by rewrite andb_true_r. }
  assert (∀ body : M World unit,
            (body w').1
            = (if reports p w' then caught (read_outcome (storage w'))
               else Done tt) →
            storage (body w').2 = storage w' →
            emitted (socket (body w').2)
            = emitted (socket w') ++ (if sends p w' then [snapshot p w'] else []) →
            ∀ handler, r = try_catch body handler w' →
            r.1 = Done tt ∧ storage r.2 = storage w
            ∧ emitted (socket r.2)
              = emitted (socket w)
                ++ (if socket_present (socket w) then [snapshot p w] else []))
    as Hrun.
  { intros body H1 H2 H5 handler ->.
    rewrite Hread in H1. cbn [caught] in H1.
    assert ((body w').1 = Done tt) as Hdone by (by destruct (reports p w')).
    rewrite (try_catch_done _ _ _ tt) by exact Hdone.
    rewrite Hdone, H2, H5, Hsends. done. }
  destruct Hcase as [Ha|(k & Ha & Hk & Hne)];
    rewrite Ha in Hr; cbn [String.eqb Ascii.eqb Bool.eqb] in Hr;
    cbv beta iota in Hr.
  - destruct (sendAsyncStorageState_run p w') as (H1 & H2 & _ & _ & H5).
    by eapply Hrun.
  - rewrite Hk, (truthy_some k Hne) in Hr.
    destruct (read_then_send p k
                (fun value => logPrefix p +:+ " Got AsyncStorage item: " +:+
                              k +:+ " = " +:+ default "null" value)
                w' Hitem) as (H1 & H2 & _ & _ & H5).
    by eapply Hrun.
Qed.

Lemma storage_read_sends_whole_state_witness :
  emitted (socket (asyncStorageActionHandler storage_props
                     (storage_action "GET_ITEM" (Some "token") None "All")
                     (with_items {["token" := "abc"]} sample_world)).2)
  = [{| em_event := "async-storage-sync";
        em_payload := AsyncStorageSyncMessage [("token", "abc")] 1000 "dev-A" |}].
Proof.
  refine (proj2 (proj2 (storage_read_sends_whole_state storage_props
            (storage_action "GET_ITEM" (Some "token") None "All")
            (with_items {["token" := "abc"]} sample_world) _ _ _ _ _ _)));
    try reflexivity.
  right. exists "token". done.
Defined.

(** X19: a message that lacks what its action needs is dropped without a
    word to the dashboard: GET_ITEM and REMOVE_ITEM without a key or with an
    empty key, SET_ITEM without a key, with an empty key or without a value,
    and every action name the switch has no case for.  The handler returns,
    the store is not called (even a store that rejects every call does not
    make it log an error) and nothing is sent. *)
Theorem storage_incomplete_message_ignored (p : Props)
  (m : AsyncStorageActionMessage) (w : World) :
  blank (deviceId p) = false →
  shouldProcessMessage (asa_targetDeviceId m) (deviceId p) = true →
  asyncStorage p = true →
  ((asa_action m = "GET_ITEM" ∨ asa_action m = "REMOVE_ITEM")
   ∧ (asa_key m = None ∨ asa_key m = Some ""))
  ∨ (asa_action m = "SET_ITEM"
     ∧ (asa_key m = None ∨ asa_key m = Some "" ∨ asa_value m = None))
  ∨ asa_action m ∉ ["GET_ALL_KEYS"; "GET_ITEM"; "SET_ITEM"; "REMOVE_ITEM";
                    "CLEAR_ALL"] →
  let run := asyncStorageActionHandler p m w in
  run.1 = Done tt
  ∧ storage run.2 = storage w
  ∧ socket run.2 = socket w
  ∧ length (logs run.2) = S (length (logs w)).
Proof.
  intros Hid Htarget Hst Hcase. cbv zeta.
  remember (asyncStorageActionHandler p m w) as r eqn:Hr.
  enter_storage_handler Hr Hid Htarget.
  rewrite Hst in Hr. unfold try_catch in Hr.
  assert (∀ w', r = (Done tt, set_logs (logs w ++ [w']) w) →
                r.1 = Done tt ∧ storage r.2 = storage w ∧ socket r.2 = socket w
                ∧ length (logs r.2) = S (length (logs w))) as Hdone.
  { intros w' ->. simpl_world. rewrite length_app. cbn. repeat split; lia. }
  destruct Hcase as [[Ha Hk]|[[Ha Hk]|Ha]].
  - rewrite (truthy_none (asa_key m) Hk) in Hr.
    destruct Ha as [Ha|Ha]; rewrite Ha in Hr;
      cbn [String.eqb Ascii.eqb Bool.eqb] in Hr; cbv beta iota in Hr;
      unfold ret in Hr; by eapply Hdone.
  - rewrite Ha in Hr. cbn [String.eqb Ascii.eqb Bool.eqb] in Hr.
    cbv beta iota in Hr.
    destruct Hk as [Hk|[Hk|Hv]].
    + rewrite (truthy_none (asa_key m) (or_introl Hk)) in Hr.
      unfold ret in Hr; by eapply Hdone.
    + rewrite (truthy_none (asa_key m) (or_intror Hk)) in Hr.
      unfold ret in Hr; by eapply Hdone.
    + rewrite Hv in Hr.
      destruct (truthy (asa_key m)); unfold ret in Hr; by eapply Hdone.
  - repeat match type of Hr with
           | context [String.eqb (asa_action m) ?s] =>
               destruct (String.eqb_spec (asa_action m) s) as [E|_];
               [exfalso; apply Ha; rewrite E; apply list_elem_of_In; cbn; tauto|]
           end.
    unfold ret in Hr; by eapply Hdone.
Qed.

Lemma storage_incomplete_message_ignored_witness :
  socket (asyncStorageActionHandler storage_props
            (storage_action "SET_ITEM" (Some "") (Some "abc") "dev-A")
            (broken_store (ErrorObj "disk") sample_world)).2
  = socket sample_world.
Proof.
  refine (proj1 (proj2 (proj2 (storage_incomplete_message_ignored storage_props
            (storage_action "SET_ITEM" (Some "") (Some "abc") "dev-A")
            (broken_store (ErrorObj "disk") sample_world) _ _ _ _))));
    try reflexivity.
  right. left. split; [reflexivity|]. right. left. reflexivity.
Defined.

(** *** What can come out of the store handlers *)

Lemma caught_from_store s m :
  from_store s (caught (store_call s m)).
Proof.
  unfold caught. destruct (store_call s m) as [|e|] eqn:Hm; cbn; [done| |eauto].
  destruct (template_text e) eqn:Ht; cbn; [done|].
  right. by exists m, e.
Qed.

Lemma read_from_store s : from_store s (caught (read_outcome s)).
Proof.
  unfold read_outcome.
  destruct (store_call s GetAllKeys) as [|e|] eqn:Hkeys.
  - destruct ((map_to_list (items s)).*1); [done|apply caught_from_store].
  - rewrite <- Hkeys. apply caught_from_store.
  - rewrite <- Hkeys. apply caught_from_store.
Qed.

Lemma from_store_items s x r :
  from_store s r → from_store (set_items x s) r.
Proof. done. Qed.

Lemma send_from_store p w :
  from_store (storage w) (sendAsyncStorageState p w).1
  ∧ client (sendAsyncStorageState p w).2 = client w.
Proof.
  destruct (sendAsyncStorageState_run p w) as (H1 & _ & H3 & _).
  split; [|exact H3]. rewrite H1.
  destruct (reports p w); [apply read_from_store|done].
Qed.

Lemma write_from_store p method f msg w :
  let run := (storage_update method f >> (log msg (enableLogs p) LevelLog >>
                                          sendAsyncStorageState p)) w in
  from_store (storage w) run.1 ∧ client run.2 = client w.
Proof.
  cbv zeta. destruct (store_call (storage w) method) as [|e|] eqn:Hm.
  - destruct (write_then_send p method f msg w Hm) as (H1 & _ & H3 & _).
    split; [|exact H3]. rewrite H1.
    destruct (reports p w); [|done].
    apply (read_from_store (set_items (f (items (storage w))) (storage w))).
  - erewrite bind_raised
      by (unfold storage_update; apply bind_raised;
          by apply storage_call_fails).
    split; [|done]. left. by exists method.
  - erewrite bind_stuck
      by (unfold storage_update; apply bind_stuck;
          by apply storage_call_pending).
    split; [|done]. by exists method.
Qed.

Lemma read_item_from_store p k (msg : option string -> string) w :
  let run := (let* value := storage_getItem k in
              log (msg value) (enableLogs p) LevelLog >>
              sendAsyncStorageState p) w in
  from_store (storage w) run.1 ∧ client run.2 = client w.
Proof.
  cbv zeta. destruct (store_call (storage w) GetItem) as [|e|] eqn:Hm.
  - destruct (read_then_send p k msg w Hm) as (H1 & _ & H3 & _).
    split; [|exact H3]. rewrite H1.
    destruct (reports p w); [apply read_from_store|done].
  - erewrite bind_raised by (by apply storage_call_fails).
    split; [|done]. left. by exists GetItem.
  - erewrite bind_stuck by (by apply storage_call_pending).
    split; [|done]. by exists GetItem.
Qed.

(** The [try]/[catch] of the handler around such a body. *)
Lemma outer_catch_explained s (body : M World unit) (msg : string -> string)
  en w c :
  from_store s (body w).1 → client (body w).2 = c →
  let r := try_catch body
             (fun error =>
                let* shown := render template_text error in
                log (msg shown) en LevelError) w in
  explained s r.1 ∧ client r.2 = c.
Proof.
  intros Hfrom Hc. cbv zeta. unfold try_catch.
  destruct (body w) as [[[]|e|] w2]; cbn [fst snd] in *; [done| |done].
  rewrite catch_log.
  destruct Hfrom as [[m Hm]|(m & e0 & Hm & Ht & ->)].
  - destruct (template_text e) eqn:Ht; [done|].
    split; [|done]. by exists m, e.
  - by destruct e0.
Qed.

Lemma explained_printable s r :
  printable_store s → explained s r → r = Done tt.
Proof.
  intros Hp. destruct r as [[]|e|]; [done| |].
  - intros (m & e0 & Hm & Ht & _). specialize (Hp m). rewrite Hm, Ht in Hp.
    by destruct Hp.
  - intros [m Hm]. specialize (Hp m). by rewrite Hm in Hp.
Qed.

(** Past the guards and with a store passed. *)
Lemma storage_switch_explained p m w :
  blank (deviceId p) = false →
  shouldProcessMessage (asa_targetDeviceId m) (deviceId p) = true →
  asyncStorage p = true →
  explained (storage w) (asyncStorageActionHandler p m w).1
  ∧ client (asyncStorageActionHandler p m w).2 = client w.
Proof.
  intros Hid Htarget Hst.
  remember (asyncStorageActionHandler p m w) as r eqn:Hr.
  enter_storage_handler Hr Hid Htarget.
  rewrite Hst in Hr.
  match type of Hr with context [set_logs ?l w] => set (w' := set_logs l w) in * end.
  change (storage w) with (storage w'). change (client w) with (client w').
  subst r.
  apply (outer_catch_explained (storage w') _
           (fun shown => logPrefix p +:+ " Error handling AsyncStorage action: "
                         +:+ shown)).
  - repeat match goal with
           | |- context [String.eqb (asa_action m) ?s] =>
               destruct (String.eqb (asa_action m) s)
           end.
    + apply send_from_store.
    + destruct (truthy (asa_key m)) as [k|]; [|done].
      apply (read_item_from_store p k
               (fun value => logPrefix p +:+ " Got AsyncStorage item: " +:+
                             k +:+ " = " +:+ default "null" value)).
    + destruct (truthy (asa_key m)) as [k|]; [|done].
      destruct (asa_value m) as [v|]; [|done]. apply write_from_store.
    + destruct (truthy (asa_key m)) as [k|]; [|done]. apply write_from_store.
    + apply write_from_store.
    + done.
  - repeat match goal with
           | |- context [String.eqb (asa_action m) ?s] =>
               destruct (String.eqb (asa_action m) s)
           end.
    + apply send_from_store.
    + destruct (truthy (asa_key m)) as [k|]; [|done].
      apply (read_item_from_store p k
               (fun value => logPrefix p +:+ " Got AsyncStorage item: " +:+
                             k +:+ " = " +:+ default "null" value)).
    + destruct (truthy (asa_key m)) as [k|]; [|done].
      destruct (asa_value m) as [v|]; [|done]. apply write_from_store.
    + destruct (truthy (asa_key m)) as [k|]; [|done]. apply write_from_store.
    + apply write_from_store.
    + done.
Qed.

(** X20: what can come out of the async-storage-action handler, whatever the
    props, the message and the store.  It never touches the query cache.  It
    returns, except in two cases the store is the cause of: it stays
    suspended when a call of the store never settles, and it throws, out of
    its own [catch], the TypeError of writing in the log line a value that a
    call of the store rejected with and that cannot be written in a template
    literal.  So with a store whose calls all settle, and reject only with
    values that can be written (any [Error], string or number), the handler
    returns. *)
Theorem storage_handler_outcomes (p : Props)
  (m : AsyncStorageActionMessage) (w : World) :
  let run := asyncStorageActionHandler p m w in
  client run.2 = client w
  ∧ match run.1 with
    | Done _ => True
    | Stuck => ∃ method, store_call (storage w) method = NeverSettles
    | Raised e =>
        ∃ method e0, store_call (storage w) method = Rejects e0
                     ∧ template_text e0 = None ∧ e = conversion_error e0
    end
  ∧ (printable_store (storage w) → run.1 = Done tt).
Proof.
  cbv zeta.
  assert (explained (storage w) (asyncStorageActionHandler p m w).1
          ∧ client (asyncStorageActionHandler p m w).2 = client w) as [He Hc].
  { destruct (blank (deviceId p)) eqn:Hid;
      [by unfold asyncStorageActionHandler; cbv zeta; rewrite Hid|].
    destruct (shouldProcessMessage (asa_targetDeviceId m) (deviceId p)) eqn:Ht;
      [|by unfold asyncStorageActionHandler; cbv zeta; rewrite Hid, Ht].
    destruct (asyncStorage p) eqn:Hst.
    - by apply storage_switch_explained.
    - unfold asyncStorageActionHandler. cbv zeta. by rewrite Hid, Ht, Hst. }
  split; [exact Hc|]. split; [exact He|].
  intros Hp. by apply (explained_printable (storage w)).
Qed.

Lemma storage_handler_outcomes_witness :
  (asyncStorageActionHandler storage_props
     (storage_action "CLEAR_ALL" None None "dev-A")
     (broken_store (ErrorObj "disk") sample_world)).1 = Done tt.
Proof.
  refine (proj2 (proj2 (storage_handler_outcomes storage_props
            (storage_action "CLEAR_ALL" None None "dev-A")
            (broken_store (ErrorObj "disk") sample_world))) _).
  intros method. cbn. by eexists.
Defined.

(** X21: a rejecting store is logged, not reported.  When [clear] rejects,
    CLEAR_ALL changes nothing in the store and sends nothing; when
    [getAllKeys] rejects, so does GET_ALL_KEYS.  Where the rejection is caught
    shows in the log: for CLEAR_ALL the handler's own [catch] writes
    "Error handling AsyncStorage action: " and the value, for GET_ALL_KEYS
    the [catch] inside [sendAsyncStorageState] writes
    "Error sending AsyncStorage state: " and the value, both at level error;
    the value is written as a template literal writes it.  When it cannot be
    written, CLEAR_ALL throws the TypeError of the conversion, while
    GET_ALL_KEYS still returns: the TypeError of the inner [catch] is caught
    by the outer one. *)
Theorem rejecting_store_is_logged (p : Props) (m : AsyncStorageActionMessage)
  (w : World) (e : Thrown) :
  blank (deviceId p) = false →
  shouldProcessMessage (asa_targetDeviceId m) (deviceId p) = true →
  asyncStorage p = true →
  socket_present (socket w) = true →
  let run := asyncStorageActionHandler p m w in
  (asa_action m = "CLEAR_ALL" → store_call (storage w) Clear = Rejects e →
   storage run.2 = storage w ∧ socket run.2 = socket w
   ∧ match template_text e with
     | Some shown =>
         run.1 = Done tt
         ∧ last (logs run.2)
           = Some {| lc_message := logPrefix p +:+
                                   " Error handling AsyncStorage action: " +:+
                                   shown;
                     lc_enabled := enableLogs p; lc_level := LevelError |}
     | None => run.1 = Raised (conversion_error e)
     end)
  ∧ (asa_action m = "GET_ALL_KEYS" →
     store_call (storage w) GetAllKeys = Rejects e →
     storage run.2 = storage w ∧ socket run.2 = socket w
     ∧ run.1 = Done tt
     ∧ ∀ shown, template_text e = Some shown →
         last (logs run.2)
         = Some {| lc_message := logPrefix p +:+
                                 " Error sending AsyncStorage state: " +:+ shown;
                   lc_enabled := enableLogs p; lc_level := LevelError |}).
Proof.
  intros Hid Htarget Hst Hsock. cbv zeta.
  remember (asyncStorageActionHandler p m w) as r eqn:Hr.
  enter_storage_handler Hr Hid Htarget. rewrite Hst in Hr.
  match type of Hr with context [set_logs ?l w] => set (w' := set_logs l w) in * end.
  split; intros Ha Hcall; rewrite Ha in Hr;
    cbn [String.eqb Ascii.eqb Bool.eqb] in Hr; cbv beta iota in Hr.
  - erewrite try_catch_raised in Hr
      by (unfold storage_update; apply bind_raised, bind_raised;
          by apply storage_call_fails).
    rewrite (catch_log
               (fun shown => logPrefix p +:+
                             " Error handling AsyncStorage action: " +:+ shown))
      in Hr.
    destruct (template_text e); subst r; simpl_world; [|done].
    split; [done|]. split; [done|]. split; [done|]. by rewrite last_snoc.
  - unfold sendAsyncStorageState in Hr. unfold try_catch at 1 in Hr.
    unfold bind at 1, get at 1 in Hr. cbv beta iota in Hr.
    cbn [socket storage set_logs w'] in Hr.
    rewrite Hst, Hsock, Hid in Hr. cbn [negb orb] in Hr.
    unfold try_catch at 1 in Hr. rewrite read_all_run in Hr.
    assert (read_outcome (storage w') = Rejects e) as Hread
      by (unfold read_outcome; subst w'; simpl_world; by rewrite Hcall).
    rewrite Hread in Hr.
    rewrite (catch_log
               (fun shown => logPrefix p +:+
                             " Error sending AsyncStorage state: " +:+ shown))
      in Hr.
    destruct (template_text e) as [shown|] eqn:Ht.
    + subst r. simpl_world. split; [done|]. split; [done|]. split; [done|].
      intros ? [= <-]. by rewrite last_snoc.
    + rewrite (catch_log
                 (fun shown => logPrefix p +:+
                               " Error handling AsyncStorage action: " +:+ shown))
        in Hr.
      replace (template_text (conversion_error e))
        with (String_of (conversion_error e)) in Hr by (by destruct e).
      cbn [conversion_error String_of] in Hr.
      subst r. simpl_world. split; [done|]. split; [done|]. split; [done|].
      intros ? [=].
Qed.

Lemma rejecting_store_is_logged_witness :
  last (logs (asyncStorageActionHandler storage_props
                (storage_action "CLEAR_ALL" None None "dev-A")
                (broken_store (ErrorObj "") sample_world)).2)
  = Some {| lc_message := "[Pixel] Error handling AsyncStorage action: Error";
            lc_enabled := false; lc_level := LevelError |}.
Proof.
  destruct (rejecting_store_is_logged storage_props
              (storage_action "CLEAR_ALL" None None "dev-A")
              (broken_store (ErrorObj "") sample_world) (ErrorObj "")
              eq_refl eq_refl eq_refl eq_refl) as [H _].
  destruct (H eq_refl eq_refl) as (_ & _ & _ & Hlog). exact Hlog.
Defined.

(** X22: without a store in the props the handler does no storage work at
    all: whatever the action name, known or not, and whatever the key and the
    value, the message is sent back unchanged as
    "async-storage-action-received" for the app to handle, and the handler
    returns. *)
Theorem storage_action_handed_on (p : Props) (m : AsyncStorageActionMessage)
  (w : World) :
  blank (deviceId p) = false →
  shouldProcessMessage (asa_targetDeviceId m) (deviceId p) = true →
  asyncStorage p = false →
  let run := asyncStorageActionHandler p m w in
  run.1 = Done tt
  ∧ storage run.2 = storage w
  ∧ emitted (socket run.2)
    = emitted (socket w)
      ++ [{| em_event := "async-storage-action-received";
             em_payload := AsyncStorageActionReceived m |}].
Proof.
  intros Hid Htarget Hst. cbv zeta.
  unfold asyncStorageActionHandler. cbv zeta. by rewrite Hid, Htarget, Hst.
Qed.

Lemma storage_action_handed_on_witness :
  emitted (socket (asyncStorageActionHandler sample_props
                     (storage_action "NO_SUCH_ACTION" None None "dev-A")
                     (broken_store (ErrorObj "disk") sample_world)).2)
  = [{| em_event := "async-storage-action-received";
        em_payload :=
          AsyncStorageActionReceived
            (storage_action "NO_SUCH_ACTION" None None "dev-A") |}].
Proof.
  exact (proj2 (proj2 (storage_action_handed_on sample_props
           (storage_action "NO_SUCH_ACTION" None None "dev-A")
           (broken_store (ErrorObj "disk") sample_world)
           eq_refl eq_refl eq_refl))).
Defined.

(** X23: a "request-async-storage" message for this device is answered by
    one of two things: with a store in the props, the snapshot of the whole
    store, sent when the socket is there and the reads of the store resolve
    (nothing is sent otherwise); without a store, the event
    "request-async-storage-received".  The store is only read.  The handler
    awaits [sendAsyncStorageState] outside any [try]: it returns when the
    reads resolve or reject with a value that can be written in a template
    literal, stays suspended when a read never settles, and throws the
    TypeError of the conversion otherwise. *)
Theorem request_async_storage_answer (p : Props)
  (m : AsyncStorageRequestMessage) (w : World) :
  blank (deviceId p) = false →
  shouldProcessMessage (asr_targetDeviceId m) (deviceId p) = true →
  let run := asyncStorageRequestHandler p m w in
  storage run.2 = storage w
  ∧ emitted (socket run.2)
    = emitted (socket w)
      ++ (if asyncStorage p
          then if socket_present (socket w)
                  && resolves (read_outcome (storage w))
               then [{| em_event := "async-storage-sync";
                        em_payload :=
                          AsyncStorageSyncMessage
                            (map_to_list (items (storage w))) (now w)
                            (deviceId p) |}]
               else []
          else [{| em_event := "request-async-storage-received";
                   em_payload := RequestAsyncStorageReceived |}])
  ∧ run.1 = (if asyncStorage p && socket_present (socket w)
             then caught (read_outcome (storage w)) else Done tt).
Proof.
  intros Hid Htarget. cbv zeta.
  remember (asyncStorageRequestHandler p m w) as r eqn:Hr.
  unfold asyncStorageRequestHandler in Hr. cbv zeta in Hr.
  rewrite Hid, Htarget in Hr. cbn [negb] in Hr. rewrite log_bind in Hr.
  destruct (asyncStorage p) eqn:Hst; [|by subst r].
  match type of Hr with context [set_logs ?l w] => set (w' := set_logs l w) in * end.
  destruct (sendAsyncStorageState_run p w') as (H1 & H2 & _ & _ & H5).
  subst r. rewrite H1, H2, H5. unfold sends, reports. subst w'. simpl_world.
  rewrite Hst, Hid. cbn [negb andb]. rewrite !andb_true_r. done.
Qed.

Lemma request_async_storage_answer_witness :
  emitted (socket (asyncStorageRequestHandler sample_props
                     {| asr_targetDeviceId := "All" |} sample_world).2)
  = [{| em_event := "request-async-storage-received";
        em_payload := RequestAsyncStorageReceived |}].
Proof.
  exact (proj1 (proj2 (request_async_storage_answer sample_props
           {| asr_targetDeviceId := "All" |} sample_world eq_refl eq_refl))).
Defined.


(** ** The effect and the hook *)

(** [checkVersion] only logs: one warning for an untested version. *)
Lemma checkVersion_run w :
  checkVersion w
  = (Done tt,
     set_logs
       (logs w ++
        if tested_version (client w) then []
        else [{| lc_message := "This version of React Query has not been tested with the dev tools plugin. Some features might not work as expected.";
                 lc_enabled := true; lc_level := LevelWarn |}]) w).
Proof.
  unfold checkVersion, tested_version, bind, get. cbv beta iota.
  destruct w as [h i c s m st l n pc]. simpl_world.
  destruct (version c) as [v|]; [|by rewrite app_nil_r].
  destruct (blank v), (String.prefix "4" v), (String.prefix "5" v);
    cbn; by rewrite ?app_nil_r.
Qed.

(** The effect apart from what it logs, when the socket is connected. *)
Lemma effect_connected_run p w :
  isConnected (socket w) = true →
  socket_present (socket w) = true →
  (effect p w).1 = Done true
  ∧ set_logs (logs w) (effect p w).2
    = set_prevConnectedRef true
        (set_client (set_subscriber (Some p) (client w))
           (set_monitor (configured (networkMonitoring p) (monitor w))
              (set_socket
                 (set_listeners (listeners (socket w) ++ setup_events) (socket w))
                 w))).
Proof.
  intros Hc Hs. unfold effect.
  erewrite bind_done by apply checkVersion_run.
  generalize (if tested_version (client w) then []
              else [{| lc_message := "This version of React Query has not been tested with the dev tools plugin. Some features might not work as expected.";
                       lc_enabled := true; lc_level := LevelWarn |}]).
  intros l0.
  destruct w as [h i [qs ms on sb uc vs ol] [ic sp ls oc em]
                   [rf rx rw tp nx dc] st l n pc].
  cbn in Hc, Hs. subst ic sp.
  destruct pc;
    destruct (networkMonitoring p) as [[[] [] []]|];
    (split; [reflexivity|]);
    cbv [bind get modify ret when log socket_on cache_subscribe
         setupFetchInterceptor setupXHRInterceptor setupWebSocketInterceptor
         setupInterceptor write_ref configured forced negb Bool.eqb orb
         nm_fetch nm_xhr nm_websocket id
         fst snd host impls client socket monitor storage logs now
         prevConnectedRef version set_prevConnectedRef set_host set_impls
         set_client set_socket set_monitor set_storage
         set_logs queries mutations online subscriber unsubscribe_call
         online_listeners set_queries set_mutations set_online set_subscriber
         isConnected socket_present listeners off_call emitted
         set_listeners set_emitted set_connection
         removeFetchInterceptorRef removeXHRInterceptorRef
         removeWebSocketInterceptorRef taps next_tap dispose_call
         get_ref set_ref set_taps setup_events];
    rewrite <- ?app_assoc; reflexivity.
Qed.

(** The effect when the socket is not connected or not there. *)
Lemma effect_offline_run p w :
  negb (isConnected (socket w)) || negb (socket_present (socket w)) = true →
  effect p w
  = (Done false,
     set_prevConnectedRef (isConnected (socket w))
       (set_logs
          (logs w
           ++ (if tested_version (client w) then []
               else [{| lc_message := "This version of React Query has not been tested with the dev tools plugin. Some features might not work as expected.";
                        lc_enabled := true; lc_level := LevelWarn |}])
           ++ (if Bool.eqb (prevConnectedRef w) (isConnected (socket w)) then []
               else [{| lc_message :=
                          if isConnected (socket w)
                          then deviceName p +:+ " Connected to external dashboard"
                          else logPrefix p +:+
                               " Not connected to external dashboard";
                        lc_enabled := enableLogs p; lc_level := LevelLog |}]))
          w)).
Proof.
  intros Hoff. unfold effect.
  erewrite bind_done by apply checkVersion_run.
  generalize (if tested_version (client w) then []
              else [{| lc_message := "This version of React Query has not been tested with the dev tools plugin. Some features might not work as expected.";
                       lc_enabled := true; lc_level := LevelWarn |}]).
  intros l0.
  destruct w as [h i c [ic sp ls oc em] m st l n pc]. cbn in Hoff.
  unfold bind, get, when, modify, log. simpl_world.
  destruct pc, ic, sp; try discriminate; cbn; by rewrite <- ?app_assoc, ?app_nil_r.
Qed.

(** X24: with a socket that is not connected (or no socket) the effect sets
    nothing up: it returns no cleanup function, registers no handler, does not
    subscribe to the query cache and installs no interceptor; it only records
    the connection state it saw.  A second run in the same state, with a
    tested version of React Query, changes nothing and logs nothing: the
    connection state is logged on changes only. *)
Theorem effect_without_connection (p : Props) (w : World) :
  isConnected (socket w) = false ∨ socket_present (socket w) = false →
  let first := effect p w in
  first.1 = Done false
  ∧ socket first.2 = socket w
  ∧ client first.2 = client w
  ∧ monitor first.2 = monitor w
  ∧ prevConnectedRef first.2 = isConnected (socket w)
  ∧ (tested_version (client w) = true →
     effect p first.2 = (Done false, first.2)).
Proof.
  intros Hoff. cbv zeta.
  assert (negb (isConnected (socket w)) || negb (socket_present (socket w))
          = true) as H
    by (destruct Hoff as [-> | ->]; [done|by rewrite orb_true_r]).
  rewrite (effect_offline_run p w H). simpl_world.
  repeat (split; [done|]). intros Hv.
  rewrite effect_offline_run by (simpl_world; exact H). simpl_world.
  rewrite Hv, eqb_reflx, !app_nil_r.
  by destruct w.
Qed.

Lemma effect_without_connection_witness :
  listeners (socket (effect sample_props offline_world).2) = [].
Proof.
  exact (f_equal listeners
           (proj1 (proj2 (effect_without_connection sample_props offline_world
                            (or_introl eq_refl))))).
Defined.

(** The counts of the taps after the setups of the effect. *)
Lemma configured_counts nm m k :
  count_kind k (taps (configured nm m))
  = count_kind k (taps m)
    + match nm with
      | Some o =>
          if match k with
             | KFetch => nm_fetch o
             | KXHR => nm_xhr o
             | KWebSocket => nm_websocket o
             end then 1 else 0
      | None => 0
      end.
Proof.
  destruct m as [rf rx rw tp nx dc]. unfold count_kind.
  destruct nm as [[[] [] []]|]; destruct k; cbn;
    rewrite ?filter_app, ?length_app; cbn;
    repeat case_decide; simplify_eq; cbn; lia.
Qed.

(** X25: with a connected socket the effect returns a cleanup function and
    registers one handler for each of nine events, in the order of the
    source; these are the nine events the cleanup turns off.  It subscribes
    the cache listener, and for each kind of traffic switched on in the
    [networkMonitoring] prop it puts one more tap on the traffic, whether or
    not the ref of that kind was already set. *)
Theorem effect_registers_nine_handlers (p : Props) (w : World) :
  isConnected (socket w) = true →
  socket_present (socket w) = true →
  let run := effect p w in
  run.1 = Done true
  ∧ listeners (socket run.2)
    = listeners (socket w)
      ++ [ "request-initial-state"; "online-manager"; "query-action";
           "async-storage-action"; "request-async-storage";
           "network-monitoring-action"; "request-network-monitoring";
           "expo-command-action"; "request-expo-devtools-status" ]
  ∧ (∀ e, e ∈ setup_events ↔ e ∈ teardown_events)
  ∧ subscriber (client run.2) = Some p
  ∧ queries (client run.2) = queries (client w)
  ∧ (∀ k, count_kind k (taps (monitor run.2))
          = count_kind k (taps (monitor w))
            + match networkMonitoring p with
              | Some o =>
                  if match k with
                     | KFetch => nm_fetch o
                     | KXHR => nm_xhr o
                     | KWebSocket => nm_websocket o
                     end then 1 else 0
              | None => 0
              end).
Proof.
  intros Hc Hs. cbv zeta.
  destruct (effect_connected_run p w Hc Hs) as [Hr Hw].
  split; [exact Hr|].
  pose proof (f_equal socket Hw) as Hsock.
  pose proof (f_equal client Hw) as Hcl.
  pose proof (f_equal monitor Hw) as Hmon.
  revert Hsock Hcl Hmon. simpl_world. intros Hsock Hcl Hmon.
  rewrite Hsock, Hcl, Hmon. simpl_world.
  split; [done|]. split.
  { intros e. unfold setup_events, teardown_events.
    rewrite !list_elem_of_In. cbn. tauto. }
  split; [done|]. split; [done|].
  intros k. apply configured_counts.
Qed.

Lemma effect_registers_nine_handlers_witness :
  length (listeners (socket (effect monitoring_props sample_world).2)) = 9.
Proof.
  exact (f_equal (@length string)
           (proj1 (proj2 (effect_registers_nine_handlers monitoring_props
                            sample_world eq_refl eq_refl)))).
Defined.

Lemma filter_absent {A} `{EqDecision A} (l : list A) (x : A) :
  x ∉ l → filter (fun y => y ≠ x) l = l.
Proof.
  intros Hx. induction l as [|a l IH]; [done|].
  apply not_elem_of_cons in Hx as [Hne Hx].
  rewrite filter_cons_True by done. by rewrite IH.
Qed.

Lemma filter_numbered (tp : list Disposer) (nx : nat) k (j : nat) :
  (∀ t, t ∈ tp → d_id t < nx) → (nx <= j)%nat →
  filter (fun t => t ≠ {| d_kind := k; d_id := j |}) tp = tp.
Proof.
  intros Hwn Hj. apply filter_absent. intros Hin%Hwn. cbn in Hin. lia.
Qed.

Lemma dispose_call_configured nm m :
  dispose_call (configured nm m) = dispose_call m.
Proof. by destruct nm as [[[] [] []]|], m. Qed.

(** Taking away what the setups of the effect put in place. *)
Lemma setup_then_remove nm m :
  (∀ k, get_ref k m = None) → well_numbered m →
  let m' := removed KWebSocket (removed KXHR (removed KFetch (configured nm m))) in
  taps m' = taps m ∧ (∀ k, get_ref k m' = None) ∧ well_numbered m'.
Proof.
  intros Hnone Hwn. cbv zeta.
  pose proof (Hnone KFetch) as Hf. pose proof (Hnone KXHR) as Hx.
  pose proof (Hnone KWebSocket) as Hw.
  destruct m as [rf rx rw tp nx dc]. cbn in Hf, Hx, Hw. subst rf rx rw.
  unfold well_numbered in *. cbn [taps next_tap] in Hwn.
  assert (∀ tp' (nx' : nat),
            tp' = tp → (nx <= nx')%nat →
            ∀ t, t ∈ tp' → d_id t < nx') as Hkeep.
  { intros tp' nx' -> Hle t Hin%Hwn. lia. }
  destruct nm as [[[] [] []]|]; cbn;
    repeat (rewrite ?filter_app, ?(filter_numbered tp nx) by (done || lia);
            cbn;
            repeat (case_decide;
                    try (exfalso; first
                           [ congruence
                           | match goal with H : ¬ _ |- _ =>
                               apply H; congruence end ])));
    rewrite ?app_nil_r;
    (split; [done|]); (split; [by intros []|]);
    apply Hkeep; (done || lia).
Qed.

(** X26: unmounting after mounting.  From a state in which no interceptor
    ref is set and the taps are numbered below the counter, and with [off],
    the disposers and [unsubscribe] returning, the cleanup run after the
    effect gives back the taps of before, for every [networkMonitoring] prop;
    the refs are empty again, the cache listener is gone, the queries were
    never touched, and the state allows the next mount to do the same.  The
    handlers are another matter: [off()] is called on the socket without
    arguments, so the cleanup leaves the socket with no handler at all, also
    none of those that were registered before the effect ran. *)
Theorem effect_then_cleanup_restores (p : Props) (w : World) :
  isConnected (socket w) = true →
  socket_present (socket w) = true →
  (∀ e, off_call (socket w) e = Returns) →
  (∀ k, dispose_call (monitor w) k = Returns) →
  unsubscribe_call (client w) = Returns →
  (∀ k, get_ref k (monitor w) = None) →
  well_numbered (monitor w) →
  let mounted := (effect p w).2 in
  let after := cleanup p mounted in
  after.1 = Done tt
  ∧ listeners (socket mounted) = listeners (socket w) ++ setup_events
  ∧ listeners (socket after.2) = []
  ∧ taps (monitor after.2) = taps (monitor w)
  ∧ (∀ k, get_ref k (monitor after.2) = None)
  ∧ well_numbered (monitor after.2)
  ∧ subscriber (client after.2) = None
  ∧ queries (client after.2) = queries (client w).
Proof.
  intros Hc Hs Hoff Hdispose Hunsub Hnone Hwn. cbv zeta.
  destruct (effect_connected_run p w Hc Hs) as [_ Hw].
  pose proof (f_equal socket Hw) as Hsock.
  pose proof (f_equal client Hw) as Hcl.
  pose proof (f_equal monitor Hw) as Hmon.
  revert Hsock Hcl Hmon. simpl_world. intros Hsock Hcl Hmon.
  rewrite cleanup_run.
  - simpl_world. rewrite Hsock, Hcl, Hmon. simpl_world.
    destruct (setup_then_remove (networkMonitoring p) (monitor w) Hnone Hwn)
      as (Ht & Hr & Hw').
    done.
  - intros e. rewrite Hsock. simpl_world. apply Hoff.
  - intros k. rewrite Hmon, dispose_call_configured. apply Hdispose.
  - rewrite Hcl. simpl_world. exact Hunsub.
Qed.

Lemma effect_then_cleanup_restores_witness :
  listeners (socket (cleanup monitoring_props
                       (effect monitoring_props
                          (set_socket (set_listeners ["connect"] sample_socket)
                                      sample_world)).2).2) = [].
Proof.
  refine (proj1 (proj2 (proj2 (effect_then_cleanup_restores monitoring_props
            (set_socket (set_listeners ["connect"] sample_socket) sample_world)
            eq_refl eq_refl _ _ eq_refl _ _)))).
  - reflexivity.
  - reflexivity.
  - by intros [].
  - intros t Ht. by apply not_elem_of_nil in Ht.
Defined.

Lemma disable_run p t w :
  blank (deviceId p) = false →
  shouldProcessMessage t (deviceId p) = true →
  (∀ k, dispose_call (monitor w) k = Returns) →
  (networkMonitoringHandler p (disable_monitoring t) w).1 = Done tt
  ∧ monitor (networkMonitoringHandler p (disable_monitoring t) w).2
    = removed KWebSocket (removed KXHR (removed KFetch (monitor w))).
Proof.
  intros Hid Htarget Hd.
  remember (networkMonitoringHandler p (disable_monitoring t) w) as r eqn:Hr.
  unfold networkMonitoringHandler in Hr.
  cbn [nma_action nma_targetDeviceId disable_monitoring] in Hr.
  rewrite Hid, Htarget in Hr.
  change (String.eqb "ACTION-DISABLE-NETWORK-MONITORING"
            "ACTION-ENABLE-NETWORK-MONITORING") with false in Hr.
  change (String.eqb "ACTION-DISABLE-NETWORK-MONITORING"
            "ACTION-DISABLE-NETWORK-MONITORING") with true in Hr.
  cbn [negb] in Hr. cbv beta iota in Hr. rewrite !log_bind in Hr.
  erewrite bind_done in Hr by (apply remove_if_present_run; apply Hd).
  erewrite bind_done in Hr
    by (apply remove_if_present_run; intros k; simpl_world;
        rewrite dispose_call_removed; apply Hd).
  rewrite remove_if_present_run in Hr
    by (intros k; simpl_world; rewrite !dispose_call_removed; apply Hd).
  by subst r.
Qed.

Lemma installed_is_configured m :
  (∀ k, get_ref k m = None) →
  installed KWebSocket (installed KXHR (installed KFetch m))
  = configured (Some {| nm_fetch := true; nm_xhr := true; nm_websocket := true |})
               m.
Proof.
  intros Hnone.
  pose proof (Hnone KFetch) as Hf. pose proof (Hnone KXHR) as Hx.
  pose proof (Hnone KWebSocket) as Hw.
  destruct m as [rf rx rw tp nx dc]. cbn in Hf, Hx, Hw. by subst rf rx rw.
Qed.

(** X27: ACTION-ENABLE-NETWORK-MONITORING followed by
    ACTION-DISABLE-NETWORK-MONITORING is a round trip.  From a state with no
    interceptor ref set, and with disposers that return, both handlers return
    and leave the taps on the traffic exactly as they were, with the three
    refs empty again. *)
Theorem monitoring_enable_then_disable (p : Props) (t : string) (w : World) :
  blank (deviceId p) = false →
  shouldProcessMessage t (deviceId p) = true →
  (∀ k, dispose_call (monitor w) k = Returns) →
  (∀ k, get_ref k (monitor w) = None) →
  well_numbered (monitor w) →
  let on := networkMonitoringHandler p (enable_monitoring t) w in
  let off := networkMonitoringHandler p (disable_monitoring t) on.2 in
  on.1 = Done tt ∧ off.1 = Done tt
  ∧ (∀ k, count_kind k (taps (monitor on.2))
          = S (count_kind k (taps (monitor w))))
  ∧ taps (monitor off.2) = taps (monitor w)
  ∧ (∀ k, get_ref k (monitor off.2) = None).
Proof.
  intros Hid Htarget Hd Hnone Hwn. cbv zeta.
  destruct (enable_run p t w Hid Htarget) as [Hon Hmon].
  destruct (disable_run p t (networkMonitoringHandler p (enable_monitoring t) w).2
              Hid Htarget) as [Hoff Hmoff].
  { intros k. rewrite Hmon, (installed_is_configured _ Hnone).
    rewrite dispose_call_configured. apply Hd. }
  split; [done|]. split; [done|]. rewrite Hmoff, Hmon.
  rewrite (installed_is_configured _ Hnone).
  destruct (setup_then_remove
              (Some {| nm_fetch := true; nm_xhr := true; nm_websocket := true |})
              (monitor w) Hnone Hwn) as (Ht & Hr & _).
  split; [|done].
  intros k. rewrite configured_counts. destruct k; cbn; lia.
Qed.

Lemma monitoring_enable_then_disable_witness :
  taps (monitor (networkMonitoringHandler sample_props (disable_monitoring "All")
                   (networkMonitoringHandler sample_props
                      (enable_monitoring "All") sample_world).2).2) = [].
Proof.
  refine (proj1 (proj2 (proj2 (proj2 (monitoring_enable_then_disable
            sample_props "All" sample_world eq_refl eq_refl _ _ _))))).
  - reflexivity.
  - by intros [].
  - intros t Ht. by apply not_elem_of_nil in Ht.
Defined.

(** X28: the network-monitoring handler has no [try]/[catch].  When the
    fetch interceptor is installed and its disposer throws, the DISABLE action
    throws the same value out of the handler, and nothing is removed: the
    fetch ref stays set and the XHR and WebSocket interceptors are not
    reached. *)
Theorem disable_propagates_throw (p : Props) (t : string) (w : World)
  (d : Disposer) (e : Thrown) :
  blank (deviceId p) = false →
  shouldProcessMessage t (deviceId p) = true →
  get_ref KFetch (monitor w) = Some d →
  dispose_call (monitor w) (d_kind d) = Throws e →
  let run := networkMonitoringHandler p (disable_monitoring t) w in
  run.1 = Raised e ∧ monitor run.2 = monitor w.
Proof.
  intros Hid Htarget Href Hthrow. cbv zeta.
  remember (networkMonitoringHandler p (disable_monitoring t) w) as r eqn:Hr.
  unfold networkMonitoringHandler in Hr.
  cbn [nma_action nma_targetDeviceId disable_monitoring] in Hr.
  rewrite Hid, Htarget in Hr.
  change (String.eqb "ACTION-DISABLE-NETWORK-MONITORING"
            "ACTION-ENABLE-NETWORK-MONITORING") with false in Hr.
  change (String.eqb "ACTION-DISABLE-NETWORK-MONITORING"
            "ACTION-DISABLE-NETWORK-MONITORING") with true in Hr.
  cbn [negb] in Hr. cbv beta iota in Hr. rewrite !log_bind in Hr.
  match type of Hr with context [bind (remove_if_present KFetch) _ ?w'] =>
    assert (remove_if_present KFetch w' = (Raised e, w')) as Hfetch
  end.
  { unfold remove_if_present, dispose, bind, get. cbv beta iota. simpl_world.
    cbn [get_ref] in Href. rewrite Href. cbv beta iota. simpl_world. by rewrite Hthrow. }
  rewrite (bind_raised _ _ _ _ _ Hfetch) in Hr. by subst r.
Qed.

Lemma disable_propagates_throw_witness :
  (networkMonitoringHandler monitoring_props (disable_monitoring "dev-A")
     faulty_world).1
  = Raised (ErrorObj "fetch was replaced").
Proof.
  exact (proj1 (disable_propagates_throw monitoring_props "dev-A" faulty_world
                  {| d_kind := KFetch; d_id := 0 |}
                  (ErrorObj "fetch was replaced")
                  eq_refl eq_refl eq_refl eq_refl)).
Defined.

(** X29: the answer to "request-initial-state" is the message the cache
    listener sends on every change of the cache: one "query-sync" message with
    the dehydrated cache, the online flag and the device id.  Neither of the
    two looks at a target device, and neither touches the cache; with an
    empty device id both send nothing. *)
Theorem initial_state_is_cache_sync (p : Props) (w : World) :
  let asked := initialStateHandler p w in
  let changed := cache_listener p w in
  asked.1 = Done tt ∧ changed.1 = Done tt
  ∧ socket asked.2 = socket changed.2
  ∧ client asked.2 = client w ∧ client changed.2 = client w
  ∧ emitted (socket asked.2)
    = emitted (socket w)
      ++ (if blank (deviceId p) then []
          else [{| em_event := "query-sync";
                   em_payload :=
                     SyncMessage (Dehydrate (client w)) (online (client w))
                                 (deviceId p) |}]).
Proof.
  cbv zeta. unfold initialStateHandler, cache_listener.
  destruct (blank (deviceId p)); cbn; by rewrite ?app_nil_r.
Qed.

Lemma effect_done p w : ∃ b, (effect p w).1 = Done b.
Proof.
  destruct (negb (isConnected (socket w)) || negb (socket_present (socket w)))
    eqn:Hoff.
  - exists false. by rewrite effect_offline_run.
  - apply orb_false_elim in Hoff as [Hc Hs].
    apply negb_false_iff in Hc. apply negb_false_iff in Hs.
    exists true. by apply effect_connected_run.
Qed.

(** X30: the hook checks the device id before anything else.  When the id
    is empty after trimming, the hook throws an [Error] and has done nothing:
    no handler, no log, no state written.  For every other id it returns, with
    the connection state it read before the effect ran; and then the id is not
    empty, so the "No persistent device ID found" branch of the handlers it
    registered cannot be taken. *)
Theorem hook_validates_device_id (p : Props) (w : World) :
  (trim (deviceId p) = "" →
   ∃ message, useSyncQueriesExternal p w = (Raised (ErrorObj message), w))
  ∧ (trim (deviceId p) ≠ "" →
     blank (deviceId p) = false
     ∧ ∃ r, (useSyncQueriesExternal p w).1 = Done r
            ∧ hr_isConnected r = isConnected (socket w)
            ∧ hr_socket r = socket_present (socket w)).
Proof.
  unfold useSyncQueriesExternal. split.
  - intros ->. cbn [blank String.eqb]. by eexists.
  - intros Hne. split.
    + destruct (blank (deviceId p)) eqn:Hb; [|done].
      apply blank_true in Hb. rewrite Hb in Hne. by destruct Hne.
    + destruct (blank (trim (deviceId p))) eqn:Hb;
        [by apply blank_true in Hb|].
      unfold bind at 1, get at 1. cbv beta iota.
      destruct (effect_done p w) as [b Hb'].
      unfold bind. destruct (effect p w) as [[b'|e|] w1]; try discriminate.
      by eexists.
Qed.

Lemma hook_validates_device_id_witness :
  (useSyncQueriesExternal
     {| deviceName := "Pixel"; deviceId := " " +:+ no_break_space;
        enableLogs := true; asyncStorage := false;
        networkMonitoring := None |} sample_world).2
  = sample_world.
Proof.
  destruct (proj1 (hook_validates_device_id
                     {| deviceName := "Pixel";
                        deviceId := " " +:+ no_break_space;
                        enableLogs := true; asyncStorage := false;
                        networkMonitoring := None |} sample_world) eq_refl)
    as [message H].
  exact (f_equal snd H).
Defined.
